(** * LMS completion dashboard: record pipeline

A shallow embedding of the analytical core of the dashboard:
the CSV row mapper and the store-directory merge of [App.tsx], the
tenure classifier, the multi-select filter and the employee rollup of
the [Dashboard] component, and the group-by-and-rate computation of
[TrainerCompletionChart]; then the cards, tiers and filter summary of
the [Dashboard], the handlers of [MultiSelectFilter], and the reducers of
[AreaManagerCompletionChart], [TenureCompletionChart] and
[TenureDistributionChart].

JavaScript objects are finite maps from property names to values, a
missing property reading as [undefined]; numbers are IEEE binary64
values ([spec_float] at precision 53); [Date] time values are integers
of milliseconds, with [None] for the time value [NaN]. *)

From Stdlib Require Import ZArith QArith Qpower Lia Ascii String List.
From Stdlib Require Import Floats.SpecFloat Sorting.Sorted DecimalString.
From stdpp Require Import gmap strings list fin_maps.

Local Open Scope string_scope.
Local Open Scope Z_scope.

(** ** JavaScript values *)

Module JS.

(** A JavaScript number is a binary64 float. *)
Abbreviation number := spec_float.

Definition prec : Z := 53.
Definition emax : Z := 1024.

Definition num_of_Z (z : Z) : number := binary_normalize prec emax z 0 false.
Definition num_mul : number -> number -> number := SFmul prec emax.
Definition num_div : number -> number -> number := SFdiv prec emax.

(** The real number that a finite double stands for. *)
Definition num_value (x : number) : option Q :=
  match x with
  | S754_zero _ => Some 0%Q
  | S754_finite s m e => Some (inject_Z (cond_Zopp s (Z.pos m)) * 2 ^ e)%Q
  | S754_infinity _ | S754_nan => None
  end.

(** A shift register of the rounding that has lost no bit so far. *)
Definition lossless (mrs : shr_record) : Prop :=
  shr_r mrs = false /\ shr_s mrs = false.

Inductive value : Type :=
| VUndefined
| VNull
| VBool (b : bool)
| VNumber (n : number)
| VString (s : string).

#[global] Instance spec_float_eq_dec : EqDecision spec_float.
Proof. solve_decision. Defined.

#[global] Instance value_eq_dec : EqDecision value.
Proof. solve_decision. Defined.

(** Own properties of a plain data object. *)
Abbreviation object := (gmap string value).

(** [o.k] and [o['k']]: a missing property reads as [undefined]. *)
Definition get (o : object) (k : string) : value :=
  default VUndefined (o !! k).

(** ToBoolean *)
Definition toBoolean (v : value) : bool :=
  match v with
  | VUndefined | VNull => false
  | VBool b => b
  | VNumber (S754_zero _) | VNumber S754_nan => false
  | VNumber _ => true
  | VString s => negb (String.eqb s EmptyString)
  end.

(** [a || b] *)
Definition logicalOr (a b : value) : value := if toBoolean a then a else b.

(** [arr.includes(v)] on an array of strings: SameValueZero against
    every element, so only a string can be found. *)
Definition includes (arr : list string) (v : value) : bool :=
  match v with
  | VString s => bool_decide (s ∈ arr)
  | _ => false
  end.

(** [arr.length > 0] *)
Definition nonEmpty {A : Type} (arr : list A) : bool :=
  match arr with [] => false | _ :: _ => true end.

(** Integer part of a number, [None] when it is NaN or infinite. *)
Definition truncate (n : number) : option Z :=
  match n with
  | S754_zero _ => Some 0
  | S754_finite s m e => Some (cond_Zopp s (Z.shiftl (Z.pos m) e))
  | S754_infinity _ | S754_nan => None
  end.

(** TimeClip *)
Definition timeClip (t : option Z) : option Z :=
  match t with
  | Some t => if Z.abs t <=? 8640000000000000 then Some t else None
  | None => None
  end.


(** [Math.round]: the nearest integer, ties towards [+Infinity]; the
    result keeps the sign of a negative argument that rounds to zero. *)
Definition Math_round (x : number) : number :=
  match x with
  | S754_finite s m e =>
      if 0 <=? e then x
      else
        let r := (cond_Zopp s (Z.pos m) * 2 + 2 ^ (- e)) / 2 ^ (- e + 1) in
        binary_normalize prec emax r 0 s
  | _ => x
  end.

(** [x === y] against a string literal. *)
Definition strictEqualsString (v : value) (s : string) : bool :=
  bool_decide (v = VString s).

(** *** [Map]: insertion-ordered, keys compared by SameValueZero

    [Map.prototype.set] stores the key [-0] as [+0]; on values whose
    numbers are in canonical form SameValueZero is then equality of the
    stored keys. *)
Definition mapKey (v : value) : value :=
  match v with
  | VNumber (S754_zero _) => VNumber (S754_zero false)
  | _ => v
  end.

Fixpoint Map_get {A : Type} (m : list (value * A)) (k : value) : option A :=
  match m with
  | [] => None
  | (k', a) :: m' => if decide (k' = mapKey k) then Some a else Map_get m' k
  end.

Definition Map_has {A : Type} (m : list (value * A)) (k : value) : bool :=
  match Map_get m k with Some _ => true | None => false end.

(** [m.set(k, a)]: a present key keeps its position, a new one goes last. *)
Fixpoint Map_set {A : Type} (m : list (value * A)) (k : value) (a : A) : list (value * A) :=
  match m with
  | [] => [(mapKey k, a)]
  | (k', a') :: m' =>
      if decide (k' = mapKey k) then (k', a) :: m' else (k', a') :: Map_set m' k a
  end.

(** [Array.from(m.values())] *)
Definition Map_values {A : Type} (m : list (value * A)) : list A := map snd m.

Section Date.

(** [Date.parse] is implementation-defined outside the ISO format; it
    is a parameter of the development. [None] is [NaN]. *)
Variable Date_parse : string -> option Z.

(** [new Date(v).getTime()] *)
Definition Date_getTime (v : value) : option Z :=
  match v with
  | VString s => Date_parse s
  | VUndefined => None
  | VNull => Some 0
  | VBool b => Some (if b then 1 else 0)
  | VNumber n => timeClip (truncate n)
  end.

End Date.

(** One admissible [Date.parse]: the date-only ISO form [YYYY-MM-DD],
    read as UTC midnight; everything else is [NaN]. *)
Definition digit (c : ascii) : option Z :=
  let n := Z.of_nat (nat_of_ascii c) in
  if (48 <=? n) && (n <=? 57) then Some (n - 48) else None.

Definition isLeap (y : Z) : bool :=
  ((y mod 4 =? 0) && negb (y mod 100 =? 0)) || (y mod 400 =? 0).

Definition daysInMonth (y m : Z) : Z :=
  if m =? 2 then (if isLeap y then 29 else 28)
  else if (m =? 4) || (m =? 6) || (m =? 9) || (m =? 11) then 30
  else 31.

Definition daysFromCivil (y m d : Z) : Z :=
  let y' := if m <=? 2 then y - 1 else y in
  let era := y' / 400 in
  let yoe := y' - era * 400 in
  let doy := (153 * (m + (if 2 <? m then -3 else 9)) + 2) / 5 + d - 1 in
  let doe := yoe * 365 + yoe / 4 - yoe / 100 + doy in
  era * 146097 + doe - 719468.

Definition isoDateParse (s : string) : option Z :=
  match list_ascii_of_string s with
  | [y1; y2; y3; y4; sep1; m1; m2; sep2; d1; d2] =>
      match digit y1, digit y2, digit y3, digit y4,
            digit m1, digit m2, digit d1, digit d2 with
      | Some a, Some b, Some c, Some d, Some e, Some f, Some g, Some h =>
          let y := a * 1000 + b * 100 + c * 10 + d in
          let m := e * 10 + f in
          let dd := g * 10 + h in
          if Ascii.eqb sep1 "-" && Ascii.eqb sep2 "-"
             && (1 <=? m) && (m <=? 12) && (1 <=? dd) && (dd <=? daysInMonth y m)
          then Some (daysFromCivil y m dd * 86400000)
          else None
      | _, _, _, _, _, _, _, _ => None
      end
  | _ => None
  end.

(** *** [Set]: insertion-ordered, elements compared by SameValueZero *)

(** [s.add(v)] *)
Definition Set_add (s : list value) (v : value) : list value :=
  if decide (mapKey v ∈ s) then s else (s ++ [mapKey v])%list.

(** [new Set(arr)] *)
Definition Set_from (arr : list value) : list value := fold_left Set_add arr [].

(** *** Comparison of numbers: false when an operand is NaN *)

(** [x >= y] *)
Definition num_geb (x y : number) : bool :=
  match SFcompare x y with
  | Some Gt | Some Eq => true
  | _ => false
  end.

(** [x < y] *)
Definition num_ltb (x y : number) : bool :=
  match SFcompare x y with
  | Some Lt => true
  | _ => false
  end.

End JS.

Import JS.

(** ** Tenure classification

[calculateTenure] is defined, with the same body, in [Dashboard],
[TenureDistributionChart] and [TenureCompletionChart]. The current
instant [new Date().getTime()] is the parameter [now].

The day difference is taken in integers. The code takes it in doubles;
both agree while [|now - joinDate| < 2^53] (the subtraction is exact and
the rounded quotient never reaches the next integer), and beyond that
span the quotient is of the order of 10^8 days, far from the thresholds
4, 15 and 30, so the bucket is the same in every case. *)

Section Tenure.

Variable Date_parse : string -> option Z.
Variable now : Z.

Definition msPerDay : Z := 1000 * 60 * 60 * 24.

(** [Math.floor((currentDate.getTime() - joinDate.getTime()) / msPerDay)];
    [None] is [NaN]. *)
Definition daysDiff (dateOfJoining : value) : option Z :=
  match Date_getTime Date_parse dateOfJoining with
  | Some joinTime => Some ((now - joinTime) / msPerDay)
  | None => None
  end.

(** [daysDiff <= k]; a comparison with [NaN] is false. *)
Definition le_num (d : option Z) (k : Z) : bool :=
  match d with
  | Some d => d <=? k
  | None => false
  end.

Definition calculateTenure (dateOfJoining : value) : string :=
  let d := daysDiff dateOfJoining in
  if le_num d 4 then "1-4 days"
  else if le_num d 15 then "5-15 days"
  else if le_num d 30 then "16-30 days"
  else "over a month".

End Tenure.

Definition tenureBuckets : list string :=
  ["1-4 days"; "5-15 days"; "16-30 days"; "over a month"].


(** ** The dashboard: multi-select filter *)

Module Dashboard.

(** The six [useState] selections. *)
Record FilterSelection : Type := {
  selectedTenure : list string;
  selectedStore : list string;
  selectedAreaManager : list string;
  selectedTrainer : list string;
  selectedCourse : list string;
  selectedDesignation : list string
}.

(** The default state: every selection is [[]]. *)
Definition noSelection : FilterSelection :=
  {| selectedTenure := []; selectedStore := []; selectedAreaManager := [];
     selectedTrainer := []; selectedCourse := []; selectedDesignation := [] |}.

Section Filter.

Variable Date_parse : string -> option Z.
Variable now : Z.
Variable isMerged : bool.
Variable sel : FilterSelection.

(** The callback of [data.filter] in [filteredData]: each block returns
    [false] when its selection is non-empty and does not include the
    item's value. *)
Definition filterCallback (item : object) : bool :=
  if nonEmpty (selectedTenure sel)
     && negb (includes (selectedTenure sel)
                (VString (calculateTenure Date_parse now (get item "date_of_joining"))))
  then false
  else if nonEmpty (selectedStore sel)
     && negb (includes (selectedStore sel)
                (if isMerged then get item "location" else VString "Unknown"))
  then false
  else if nonEmpty (selectedAreaManager sel)
     && negb (includes (selectedAreaManager sel)
                (if isMerged then get item "AM" else VString "Unknown"))
  then false
  else if nonEmpty (selectedTrainer sel)
     && negb (includes (selectedTrainer sel)
                (if isMerged then get item "Trainer" else VString "Unknown"))
  then false
  else if nonEmpty (selectedCourse sel)
     && negb (includes (selectedCourse sel)
                (logicalOr (get item "course_name") (VString "Unknown")))
  then false
  else if nonEmpty (selectedDesignation sel)
     && negb (includes (selectedDesignation sel)
                (logicalOr (get item "designation") (VString "Unknown")))
  then false
  else true.

Definition filteredData (data : list object) : list object :=
  List.filter filterCallback data.

(** The filter as the specification words it: six dimensions, each with a
    selected-value set and a value read off the record. *)
Inductive Dimension : Type :=
| ByTenure | ByStore | ByAreaManager | ByTrainer | ByCourse | ByDesignation.

Definition selection (d : Dimension) : list string :=
  match d with
  | ByTenure => selectedTenure sel
  | ByStore => selectedStore sel
  | ByAreaManager => selectedAreaManager sel
  | ByTrainer => selectedTrainer sel
  | ByCourse => selectedCourse sel
  | ByDesignation => selectedDesignation sel
  end.

Definition dimensionValue (d : Dimension) (item : object) : value :=
  match d with
  | ByTenure => VString (calculateTenure Date_parse now (get item "date_of_joining"))
  | ByStore => if isMerged then get item "location" else VString "Unknown"
  | ByAreaManager => if isMerged then get item "AM" else VString "Unknown"
  | ByTrainer => if isMerged then get item "Trainer" else VString "Unknown"
  | ByCourse => logicalOr (get item "course_name") (VString "Unknown")
  | ByDesignation => logicalOr (get item "designation") (VString "Unknown")
  end.

(** The value is a member of the selected-value set. *)
Definition memberOf (v : value) (selected : list string) : Prop :=
  exists s, v = VString s /\ s ∈ selected.

(** All non-empty dimension constraints hold. *)
Definition satisfiesAll (item : object) : Prop :=
  forall d, selection d <> [] -> memberOf (dimensionValue d item) (selection d).

End Filter.

(** A field that is missing or blank. *)
Definition blank (v : value) : Prop := v = VUndefined \/ v = VString EmptyString.

(** A selection that constrains one dimension only. *)
Definition only (d : Dimension) (selected : list string) : FilterSelection :=
  match d with
  | ByTenure => {| selectedTenure := selected; selectedStore := []; selectedAreaManager := [];
                 selectedTrainer := []; selectedCourse := []; selectedDesignation := [] |}
  | ByStore => {| selectedTenure := []; selectedStore := selected; selectedAreaManager := [];
                selectedTrainer := []; selectedCourse := []; selectedDesignation := [] |}
  | ByAreaManager => {| selectedTenure := []; selectedStore := []; selectedAreaManager := selected;
                      selectedTrainer := []; selectedCourse := []; selectedDesignation := [] |}
  | ByTrainer => {| selectedTenure := []; selectedStore := []; selectedAreaManager := [];
                  selectedTrainer := selected; selectedCourse := []; selectedDesignation := [] |}
  | ByCourse => {| selectedTenure := []; selectedStore := []; selectedAreaManager := [];
                 selectedTrainer := []; selectedCourse := selected; selectedDesignation := [] |}
  | ByDesignation => {| selectedTenure := []; selectedStore := []; selectedAreaManager := [];
                      selectedTrainer := []; selectedCourse := []; selectedDesignation := selected |}
  end.

(** The selection with one dimension's constraint lifted. *)
Definition without (d : Dimension) (sel : FilterSelection) : FilterSelection :=
  {| selectedTenure := match d with ByTenure => [] | _ => selectedTenure sel end;
     selectedStore := match d with ByStore => [] | _ => selectedStore sel end;
     selectedAreaManager := match d with ByAreaManager => [] | _ => selectedAreaManager sel end;
     selectedTrainer := match d with ByTrainer => [] | _ => selectedTrainer sel end;
     selectedCourse := match d with ByCourse => [] | _ => selectedCourse sel end;
     selectedDesignation := match d with ByDesignation => [] | _ => selectedDesignation sel end |}.


(** *** Employee rollup *)

Record CourseStatus : Type := {
  course_name : value;
  completion_status : value;
  completion_date : value;
  course_end_date : value
}.

Record EmployeeRollup : Type := {
  employee_code : value;
  employee_name : value;
  designation : value;
  total_courses : nat;
  completed_courses : nat;
  completion_rate : number;
  courses : list CourseStatus
}.

(** [Math.round((completed_courses / total_courses) * 100)], in doubles. *)
Definition roundedRate (completed total : nat) : number :=
  Math_round (num_mul (num_div (num_of_Z (Z.of_nat completed)) (num_of_Z (Z.of_nat total)))
                (num_of_Z 100)).

(** The object stored for an employee code seen for the first time. *)
Definition newEmployee (item : object) : EmployeeRollup :=
  {| employee_code := get item "employee_code";
     employee_name := get item "employee_name";
     designation := get item "designation";
     total_courses := 0;
     completed_courses := 0;
     completion_rate := num_of_Z 0;
     courses := [] |}.

(** [item.course_completion_status || item.completion_status] *)
Definition statusOf (item : object) : value :=
  logicalOr (get item "course_completion_status") (get item "completion_status").

(** The updates made to [emp] for one record. *)
Definition addCourse (item : object) (emp : EmployeeRollup) : EmployeeRollup :=
  let total := S (total_courses emp) in
  let completed :=
    if strictEqualsString (statusOf item) "Completed"
    then S (completed_courses emp) else completed_courses emp in
  {| employee_code := employee_code emp;
     employee_name := employee_name emp;
     designation := designation emp;
     total_courses := total;
     completed_courses := completed;
     completion_rate := roundedRate completed total;
     courses := courses emp ++
       [ {| course_name := get item "course_name";
            completion_status := statusOf item;
            completion_date := get item "completion_date";
            course_end_date := get item "course_end_date" |} ] |}.

(** The body of [filteredData.forEach]. The employee object is shared
    between the map and [emp], so its update is an update of the entry. *)
Definition rollupStep (employeeMap : list (value * EmployeeRollup)) (item : object)
  : list (value * EmployeeRollup) :=
  let empCode := get item "employee_code" in
  let employeeMap :=
    if negb (Map_has employeeMap empCode)
    then Map_set employeeMap empCode (newEmployee item)
    else employeeMap in
  match Map_get employeeMap empCode with
  | Some emp => Map_set employeeMap empCode (addCourse item emp)
  | None => employeeMap
  end.

Definition employeeMap (filteredData : list object) : list (value * EmployeeRollup) :=
  fold_left rollupStep filteredData [].

Definition employeeCompletionRates (filteredData : list object) : list EmployeeRollup :=
  Map_values (employeeMap filteredData).

(** The records of one employee, and those among them that are completed. *)
Definition recordsOf (code : value) (data : list object) : list object :=
  List.filter (fun item => bool_decide (mapKey (get item "employee_code") = code)) data.

Definition completedOf (code : value) (data : list object) : list object :=
  List.filter (fun item => strictEqualsString (statusOf item) "Completed") (recordsOf code data).

(** What the rollup promises for the entry of employee [code]. *)
Definition entryOk (data : list object) (code : value) (emp : EmployeeRollup) : Prop :=
  mapKey (employee_code emp) = code
  /\ total_courses emp = length (recordsOf code data)
  /\ (1 <= total_courses emp)%nat
  /\ completed_courses emp = length (completedOf code data)
  /\ (completed_courses emp <= total_courses emp)%nat
  /\ length (courses emp) = total_courses emp
  /\ completion_rate emp = roundedRate (completed_courses emp) (total_courses emp).

(** The invariant of the [forEach] loop, after the records [data]. *)
Definition rollupInv (data : list object) (m : list (value * EmployeeRollup)) : Prop :=
  NoDup (map fst m)
  /\ (forall k, k ∈ map fst m -> mapKey k = k)
  /\ (forall k emp, Map_get m k = Some emp -> entryOk data (mapKey k) emp)
  /\ (forall item, item ∈ data -> Map_get m (get item "employee_code") <> None).

(** *** Summary cards *)

(** [new Set(filteredData.map(item => item.employee_code)).size] *)
Definition totalEmployees (filteredData : list object) : nat :=
  length (Set_from (map (fun item => get item "employee_code") filteredData)).

Definition totalEnrollments (filteredData : list object) : nat := length filteredData.

Definition highPerformers (rates : list EmployeeRollup) : list EmployeeRollup :=
  List.filter (fun emp => num_geb (completion_rate emp) (num_of_Z 80)) rates.

Definition averagePerformers (rates : list EmployeeRollup) : list EmployeeRollup :=
  List.filter (fun emp => num_geb (completion_rate emp) (num_of_Z 60)
                          && num_ltb (completion_rate emp) (num_of_Z 80)) rates.

Definition needsAttention (rates : list EmployeeRollup) : list EmployeeRollup :=
  List.filter (fun emp => num_ltb (completion_rate emp) (num_of_Z 60)) rates.

(** [employees.reduce((sum, emp) => sum + emp.total_courses, 0)] *)
Definition totalCourses (employees : list EmployeeRollup) : nat :=
  fold_left (fun sum emp => (sum + total_courses emp)%nat) employees 0%nat.

(** The course entry pushed for a record. *)
Definition courseStatusOf (item : object) : CourseStatus :=
  {| course_name := get item "course_name";
     completion_status := statusOf item;
     completion_date := get item "completion_date";
     course_end_date := get item "course_end_date" |}.

(** What the rollup holds for employee [code] beyond the counts: the name
    and designation of the employee's first record, and one course entry
    for each of the employee's records, in their order. *)
Definition entryDetails (data : list object) (code : value) (emp : EmployeeRollup) : Prop :=
  exists first rest,
    recordsOf code data = first :: rest
    /\ employee_code emp = get first "employee_code"
    /\ employee_name emp = get first "employee_name"
    /\ designation emp = get first "designation"
    /\ courses emp = map courseStatusOf (first :: rest).

(** *** [getActiveFiltersText]: the summary beside the filter header *)

(** A length as a template literal prints it: in decimal. *)
Definition lengthText {A : Type} (arr : list A) : string :=
  NilZero.string_of_uint (Nat.to_uint (length arr)).

(** [`Label: ${selected.length === 1 ? selected[0] : `${selected.length} selected`}`] *)
Definition describe (label : string) (selected : list string) : string :=
  (label ++ ": "
   ++ match selected with
      | [s] => s
      | _ => lengthText selected ++ " selected"
      end)%string.

(** [if (selected.length > 0) activeFilters.push(...)] *)
Definition pushActive (label : string) (selected : list string)
    (activeFilters : list string) : list string :=
  if nonEmpty selected then (activeFilters ++ [describe label selected])%list
  else activeFilters.

Definition activeFilters (sel : FilterSelection) : list string :=
  pushActive "Designation" (selectedDesignation sel)
    (pushActive "Course" (selectedCourse sel)
       (pushActive "Trainer" (selectedTrainer sel)
          (pushActive "Area Manager" (selectedAreaManager sel)
             (pushActive "Store" (selectedStore sel)
                (pushActive "Tenure" (selectedTenure sel) []))))).

Definition getActiveFiltersText (sel : FilterSelection) : string :=
  match activeFilters sel with
  | [] => "All Data"
  | [text] => text
  | _ => (lengthText (activeFilters sel) ++ " Filters Applied")%string
  end.

End Dashboard.

(** ** [App]: the CSV row mapper and the directory merge *)

Module App.

(** Strings are byte strings that hold UTF-8. The white space that
    [trim], [\s] and [parseFloat] recognise is the WhiteSpace and
    LineTerminator of ECMAScript: the code points U+0009 to U+000D, U+0020,
    U+00A0, U+1680, U+2000 to U+200A, U+2028, U+2029, U+202F, U+205F, U+3000
    and U+FEFF, each in its UTF-8 encoding of one, two or three bytes. *)

(** U+0009 to U+000D, U+0020 *)
Definition isWhiteSpace1 (c : ascii) : bool :=
  let n := nat_of_ascii c in
  (Nat.eqb n 32 || (Nat.leb 9 n && Nat.leb n 13))%bool.

(** U+00A0: C2 A0 *)
Definition isWhiteSpace2 (c c1 : ascii) : bool :=
  (Nat.eqb (nat_of_ascii c) 194 && Nat.eqb (nat_of_ascii c1) 160)%bool.

(** U+1680: E1 9A 80; U+2000 to U+200A, U+2028, U+2029, U+202F: E2 80 80
    to E2 80 8A, E2 80 A8, E2 80 A9, E2 80 AF; U+205F: E2 81 9F; U+3000:
    E3 80 80; U+FEFF: EF BB BF *)
Definition isWhiteSpace3 (c c1 c2 : ascii) : bool :=
  let x := nat_of_ascii c in
  let y := nat_of_ascii c1 in
  let z := nat_of_ascii c2 in
  ((Nat.eqb x 225 && Nat.eqb y 154 && Nat.eqb z 128)
   || (Nat.eqb x 226 && Nat.eqb y 128
       && ((Nat.leb 128 z && Nat.leb z 138)
           || Nat.eqb z 168 || Nat.eqb z 169 || Nat.eqb z 175))
   || (Nat.eqb x 226 && Nat.eqb y 129 && Nat.eqb z 159)
   || (Nat.eqb x 227 && Nat.eqb y 128 && Nat.eqb z 128)
   || (Nat.eqb x 239 && Nat.eqb y 187 && Nat.eqb z 191))%bool.

(** The number of bytes of the white-space character at the head of [l];
    0 when there is none. *)
Definition whiteSpaceLength (l : list ascii) : nat :=
  match l with
  | [] => 0
  | c :: l1 =>
      if isWhiteSpace1 c then 1
      else match l1 with
           | [] => 0
           | c1 :: l2 =>
               if isWhiteSpace2 c c1 then 2
               else match l2 with
                    | [] => 0
                    | c2 :: _ => if isWhiteSpace3 c c1 c2 then 3 else 0
                    end
           end
  end%nat.

(** The white space at the head is dropped; [skip] counts the bytes that
    are left of the white-space character being dropped. *)
Fixpoint trimStartFrom (skip : nat) (l : list ascii) : list ascii :=
  match l with
  | [] => []
  | _ :: l' =>
      match skip with
      | S k => trimStartFrom k l'
      | O =>
          match whiteSpaceLength l with
          | O => l
          | S k => trimStartFrom k l'
          end
      end
  end.

Definition trimStart (l : list ascii) : list ascii := trimStartFrom 0 l.

(** Nothing but white space. *)
Definition isAllWhiteSpace (l : list ascii) : bool :=
  match trimStart l with
  | [] => true
  | _ :: _ => false
  end.

(** The white space at the end is dropped: the string is cut where what
    follows is nothing but white space. *)
Fixpoint trimEnd (l : list ascii) : list ascii :=
  match l with
  | [] => []
  | c :: l' => if isAllWhiteSpace l then [] else c :: trimEnd l'
  end.

Definition trim (l : list ascii) : list ascii := trimEnd (trimStart l).

(** [replace(/\s+/g, ' ')]: every maximal run of white space becomes one
    space. [inRun] tells that the previous character was white space,
    [skip] counts the bytes that are left of the white-space character
    being replaced. *)
Fixpoint collapseSpacesFrom (inRun : bool) (skip : nat) (l : list ascii) : list ascii :=
  match l with
  | [] => []
  | c :: l' =>
      match skip with
      | S k => collapseSpacesFrom inRun k l'
      | O =>
          match whiteSpaceLength l with
          | O => c :: collapseSpacesFrom false 0 l'
          | S k =>
              if inRun then collapseSpacesFrom true k l'
              else " "%char :: collapseSpacesFrom true k l'
          end
      end
  end.

Definition collapseSpaces (inRun : bool) (l : list ascii) : list ascii :=
  collapseSpacesFrom inRun 0 l.

(** [key.trim().replace(/\s+/g, ' ')] *)
Definition cleanKey (key : string) : string :=
  string_of_list_ascii (collapseSpaces false (trim (list_ascii_of_string key))).

(** [s.replace('%', '')]: the first occurrence only. *)
Fixpoint removeFirst (c : ascii) (l : list ascii) : list ascii :=
  match l with
  | [] => []
  | x :: l' => if Ascii.eqb x c then l' else x :: removeFirst c l'
  end.

Definition stripPercent (s : string) : string :=
  string_of_list_ascii (removeFirst "%"%char (list_ascii_of_string s)).

(** *** [parseFloat] *)

Fixpoint takeDigits (l : list ascii) : list Z * list ascii :=
  match l with
  | c :: l' =>
      match digit c with
      | Some d => let '(ds, rest) := takeDigits l' in (d :: ds, rest)
      | None => ([], l)
      end
  | [] => ([], [])
  end.

Definition digitsValue (ds : list Z) : Z :=
  fold_left (fun acc d => acc * 10 + d) ds 0.

Definition takeSign (l : list ascii) : bool * list ascii :=
  match l with
  | c :: l' =>
      if Ascii.eqb c "-" then (true, l')
      else if Ascii.eqb c "+" then (false, l')
      else (false, l)
  | [] => (false, [])
  end.

Fixpoint startsWith (p l : list ascii) : bool :=
  match p, l with
  | [], _ => true
  | a :: p', b :: l' => Ascii.eqb a b && startsWith p' l'
  | _ :: _, [] => false
  end.

(** The value of an exponent part at the head of [l], 0 when there is no
    complete one. *)
Definition takeExponent (l : list ascii) : Z :=
  match l with
  | c :: l' =>
      if Ascii.eqb c "e" || Ascii.eqb c "E" then
        let '(s, l'') := takeSign l' in
        match takeDigits l'' with
        | ([], _) => 0
        | (ds, _) => cond_Zopp s (digitsValue ds)
        end
      else 0
  | [] => 0
  end.

(** The double nearest to [(-1)^s * m * 10^e]. *)
Definition decimalToNumber (s : bool) (m e : Z) : number :=
  match m with
  | Z0 => S754_zero s
  | Zpos p =>
      if 0 <=? e
      then binary_normalize prec emax (cond_Zopp s (m * 10 ^ e)) 0 s
      else num_div (S754_finite s p 0) (S754_finite false (Z.to_pos (10 ^ (- e))) 0)
  | Zneg _ => S754_nan
  end.

(** The longest prefix of the trimmed string that is a decimal literal;
    [NaN] when there is none. *)
Definition parseFloat (str : string) : number :=
  let '(s, l1) := takeSign (trimStart (list_ascii_of_string str)) in
  if startsWith (list_ascii_of_string "Infinity") l1 then S754_infinity s
  else
    let '(ip, l2) := takeDigits l1 in
    match l2 with
    | c :: l3 =>
        if Ascii.eqb c "." then
          let '(fp, l4) := takeDigits l3 in
          match ip, fp with
          | [], [] => S754_nan
          | _, _ =>
              decimalToNumber s (digitsValue (ip ++ fp))
                (takeExponent l4 - Z.of_nat (length fp))
          end
        else
          match ip with
          | [] => S754_nan
          | _ => decimalToNumber s (digitsValue ip) (takeExponent l2)
          end
    | [] =>
        match ip with
        | [] => S754_nan
        | _ => decimalToNumber s (digitsValue ip) 0
        end
    end.

(** *** The row mapper passed to [csvParse]

    A parsed row [d] is given by its cells in [for ... in] order; every
    cell is a string. *)

Definition cleanedD (d : list (string * string)) : gmap string string :=
  fold_left (fun acc kv => <[cleanKey (fst kv) := snd kv]> acc) d ∅.

(** [cell ? f(cell) : 0] *)
Definition numberOrZero (f : string -> number) (cell : option string) : number :=
  match cell with
  | Some s => if negb (String.eqb s EmptyString) then f s else num_of_Z 0
  | None => num_of_Z 0
  end.

Definition csvRowMapper (d : list (string * string)) : object :=
  let c := cleanedD d in
  <["course_completion_status" :=
      VString (if bool_decide (c !! "course_completion_status" = Some "Completed")
               then "Completed" else "Not Completed")]>
    (<["course_progress" :=
         VNumber (numberOrZero (fun s => parseFloat (stripPercent s))
                    (c !! "course_progress"))]>
       (<["course_completion_hours" :=
            VNumber (numberOrZero parseFloat (c !! "course_completion_hours"))]>
          (VString <$> c))).

(** [Number.isNaN] *)
Definition isNaN (v : value) : Prop := v = VNumber S754_nan.

(** *** The directory merge *)

Record StoreRecord : Type := {
  Store_ID : string;
  location : string;
  Region : string;
  AM : string;
  Trainer : string
}.

Definition directoryFields : list string := ["location"; "Region"; "AM"; "Trainer"].

Section Merge.

(** The directory table [storeMappingData] of [data/storeMapping]. *)
Variable storeMappingData : list StoreRecord.

(** [{ location: s.location, Region: s.Region, AM: s.AM, Trainer: s.Trainer }] *)
Definition storeInfoOf (s : StoreRecord) : object :=
  <["location" := VString (location s)]>
    (<["Region" := VString (Region s)]>
       (<["AM" := VString (AM s)]>
          (<["Trainer" := VString (Trainer s)]> ∅))).

(** [new Map(storeMappingData.map(s => [s['Store ID'], {...}]))]: a later
    entry replaces an earlier one with the same key. *)
Definition storeMap : gmap string object :=
  fold_left (fun m s => <[Store_ID s := storeInfoOf s]> m) storeMappingData ∅.

(** [emp['Store ID'] ? storeMap.get(emp['Store ID']) : undefined]; the
    keys of the map are strings, so only a string finds an entry. *)
Definition storeInfo (emp : object) : option object :=
  if toBoolean (get emp "Store ID") then
    match get emp "Store ID" with
    | VString id => storeMap !! id
    | _ => None
    end
  else None.

(** [{ ...emp, ...storeInfo }]: spreading [undefined] adds nothing. *)
Definition mergeRecord (emp : object) : object :=
  match storeInfo emp with
  | Some info => info ∪ emp
  | None => emp
  end.

Definition mergeWithStoreData (data : list object) : list object :=
  map mergeRecord data.

End Merge.

(** *** Cells that hold an integer *)

(** The character of a decimal digit. *)
Definition digitChar (d : Z) : ascii := ascii_of_nat (48 + Z.to_nat d).

(** The decimal numeral with the digits [ds]. *)
Definition numeral (ds : list Z) : string := string_of_list_ascii (map digitChar ds).

Definition isDigitValue (d : Z) : Prop := 0 <= d <= 9.

(** The characters, read from the state [inRun], hold no white space
    other than single spaces, each followed by a character that is not white
    space or by the end. *)
Fixpoint collapsed (inRun : bool) (l : list ascii) : bool :=
  match l with
  | [] => true
  | c :: l' =>
      match whiteSpaceLength l with
      | O => collapsed false l'
      | S _ => negb inRun && Ascii.eqb c " " && collapsed true l'
      end
  end.

(** No part of the characters from some byte to the end is nothing but
    white space. *)
Fixpoint noTrailingSpace (l : list ascii) : bool :=
  match l with
  | [] => true
  | _ :: l' => negb (isAllWhiteSpace l) && noTrailingSpace l'
  end.

End App.

(** ** [TrainerCompletionChart]: group by trainer and rate *)

Module TrainerCompletionChart.

Record Counts : Type := { total : nat; completed : nat }.

(** The properties every plain object inherits from [Object.prototype];
    each reads as a function or an object, hence as true. *)
Definition objectPrototypeKeys : list string :=
  ["constructor"; "__defineGetter__"; "__defineSetter__"; "hasOwnProperty";
   "__lookupGetter__"; "__lookupSetter__"; "isPrototypeOf"; "propertyIsEnumerable";
   "toString"; "valueOf"; "__proto__"; "toLocaleString"].

Section Chart.

(** Number-to-string conversion, used only when a trainer is a number. *)
Variable Number_toString : number -> string.

(** ToPropertyKey *)
Definition toPropertyKey (v : value) : string :=
  match v with
  | VString s => s
  | VNumber n => Number_toString n
  | VBool b => if b then "true" else "false"
  | VNull => "null"
  | VUndefined => "undefined"
  end.

(** [acc[trainer]] is truthy: an own bucket, or an inherited member. *)
Definition hasTruthy (acc : gmap string Counts) (trainer : string) : bool :=
  match acc !! trainer with
  | Some _ => true
  | None => bool_decide (trainer ∈ objectPrototypeKeys)
  end.

Definition incTotal (c : Counts) : Counts :=
  {| total := S (total c); completed := completed c |}.

Definition incCompleted (c : Counts) : Counts :=
  {| total := total c; completed := S (completed c) |}.

(** The reducer. [acc] holds the own properties of the accumulator; an
    increment through an inherited member lands on that member and leaves
    [acc] as it is, which is what [alter] does on a key that is absent. *)
Definition reducer (acc : gmap string Counts) (record : object) : gmap string Counts :=
  let trainer := toPropertyKey (logicalOr (get record "Trainer") (VString "Unknown")) in
  let acc :=
    if negb (hasTruthy acc trainer)
    then <[trainer := {| total := 0; completed := 0 |}]> acc
    else acc in
  let acc := alter incTotal trainer acc in
  if strictEqualsString (get record "course_completion_status") "Completed"
  then alter incCompleted trainer acc
  else acc.

(** What one record does to the bucket found, or created, for it. *)
Definition bump (record : object) (c : Counts) : Counts :=
  {| total := S (total c);
     completed := if strictEqualsString (get record "course_completion_status") "Completed"
                  then S (completed c) else completed c |}.

(** After [n] records every bucket counts at least one and at most [n]
    records, and no more completions than records. *)
Definition bucketsOk (n : nat) (acc : gmap string Counts) : Prop :=
  forall trainer c, acc !! trainer = Some c ->
    (1 <= total c <= n)%nat /\ (completed c <= total c)%nat.

Definition trainerData (data : list object) : gmap string Counts :=
  fold_left reducer data ∅.

(** [(completed / total) * 100], in doubles. The counters are below
    [2^53], an array having fewer than [2^32] elements, so they are doubles
    themselves. *)
Definition completionRate (c : Counts) : number :=
  num_mul (num_div (num_of_Z (Z.of_nat (completed c))) (num_of_Z (Z.of_nat (total c))))
    (num_of_Z 100).

(** The rows [{ name, 'Completion Rate' }] of [chartData], one for each own
    key of [trainerData]; the order that [Object.keys] and the sort by
    decreasing rate give them is not modelled. *)
Definition chartData (data : list object) : list (string * number) :=
  map_to_list (completionRate <$> trainerData data).

End Chart.

End TrainerCompletionChart.

(** ** The reducer that the completion charts share

    [TrainerCompletionChart], [AreaManagerCompletionChart] and
    [TenureCompletionChart] run the same reducer over the records; they
    differ in the group that they read off a record. *)

Module CompletionCharts.

Import TrainerCompletionChart.

(** [record.course_completion_status === 'Completed'] *)
Definition isCompleted (record : object) : bool :=
  strictEqualsString (get record "course_completion_status") "Completed".

Section GroupBy.

(** The property key under which a record is counted. *)
Variable keyOf : object -> string.

Definition reducer (acc : gmap string Counts) (record : object) : gmap string Counts :=
  let key := keyOf record in
  let acc :=
    if negb (hasTruthy acc key)
    then <[key := {| total := 0; completed := 0 |}]> acc
    else acc in
  let acc := alter incTotal key acc in
  if isCompleted record then alter incCompleted key acc else acc.

Definition groupBy (data : list object) : gmap string Counts :=
  fold_left reducer data ∅.

(** The records of a group, and the counts that they make. *)
Definition recordsIn (key : string) (data : list object) : list object :=
  List.filter (fun record => bool_decide (keyOf record = key)) data.

Definition countsOf (key : string) (data : list object) : Counts :=
  {| total := length (recordsIn key data);
     completed := length (List.filter isCompleted (recordsIn key data)) |}.

(** The sum of the totals of the buckets. *)
Definition sumOfTotals (buckets : gmap string Counts) : nat :=
  sum_list (map (fun entry => total (snd entry)) (map_to_list buckets)).

End GroupBy.

(** *** [TrainerCompletionChart] and [AreaManagerCompletionChart] *)

Section ByField.

Variable Number_toString : number -> string.

(** [record.Trainer || 'Unknown'], as a property key *)
Definition trainerOf (record : object) : string :=
  toPropertyKey Number_toString (logicalOr (get record "Trainer") (VString "Unknown")).

(** [record.AM || 'Unknown'], as a property key *)
Definition amOf (record : object) : string :=
  toPropertyKey Number_toString (logicalOr (get record "AM") (VString "Unknown")).

Definition amData (data : list object) : gmap string Counts := groupBy amOf data.

End ByField.

(** *** [TenureCompletionChart] *)

Record TenureRow : Type := {
  name : string;
  Completion_Rate : number;
  Total_Enrollments : nat;
  Completed : nat
}.

(** [order.indexOf(s)] *)
Fixpoint indexOf (order : list string) (s : string) : Z :=
  match order with
  | [] => -1
  | x :: rest =>
      if String.eqb x s then 0
      else match indexOf rest s with
           | Zneg _ => -1
           | i => i + 1
           end
  end.

(** [arr.sort(cmp)]: a stable sort; [x] goes before the first element
    that the comparison does not put before it. *)
Fixpoint insertBy {A : Type} (cmp : A -> A -> Z) (x : A) (l : list A) : list A :=
  match l with
  | [] => [x]
  | y :: rest => if cmp x y <=? 0 then x :: l else y :: insertBy cmp x rest
  end.

Definition sortBy {A : Type} (cmp : A -> A -> Z) (l : list A) : list A :=
  fold_right (insertBy cmp) [] l.

Section TenureChart.

Variable Date_parse : string -> option Z.
Variable now : Z.

Definition tenureOf (record : object) : string :=
  calculateTenure Date_parse now (get record "date_of_joining").

Definition tenureData (data : list object) : gmap string Counts :=
  groupBy tenureOf data.

Definition rowOf (tenure : string) (c : Counts) : TenureRow :=
  {| name := tenure;
     Completion_Rate := if (0 <? total c)%nat then completionRate c else num_of_Z 0;
     Total_Enrollments := total c;
     Completed := completed c |}.

(** [order.indexOf(a.name) - order.indexOf(b.name)] *)
Definition compareRows (a b : TenureRow) : Z :=
  indexOf tenureBuckets (name a) - indexOf tenureBuckets (name b).

(** [chartData], from the own properties of [tenureData] in the order in
    which [Object.keys] lists them. *)
Definition chartData (entries : list (string * Counts)) : list TenureRow :=
  sortBy compareRows (map (fun entry => rowOf (fst entry) (snd entry)) entries).

(** The rows of the buckets that hold a record, in the order of the
    buckets. *)
Definition rowsInOrder (data : list object) : list TenureRow :=
  omap (fun tenure => rowOf tenure <$> tenureData data !! tenure) tenureBuckets.

End TenureChart.

End CompletionCharts.

(** Exactly one of three conditions holds. *)
Definition exactlyOne (high average low : bool) : Prop :=
  (high = true /\ average = false /\ low = false)
  \/ (high = false /\ average = true /\ low = false)
  \/ (high = false /\ average = false /\ low = true).

(** ** [MultiSelectFilter]: the handlers of a filter drop-down *)

Module MultiSelectFilter.

(** [handleOptionToggle]: the selection handed to [onSelectionChange]. *)
Definition handleOptionToggle (selectedValues : list string) (option : string) : list string :=
  if includes selectedValues (VString option)
  then List.filter (fun v => negb (String.eqb v option)) selectedValues
  else (selectedValues ++ [option])%list.

(** [handleSelectAll] *)
Definition handleSelectAll (selectedValues options : list string) : list string :=
  if Nat.eqb (length selectedValues) (length options) then [] else options.

(** The value that [getItemCount] reads off an item. *)
Definition optionValue (filterKey : string) (isMerged : bool) (item : object) : value :=
  if String.eqb filterKey "location" && isMerged then get item "location"
  else if String.eqb filterKey "AM" && isMerged then get item "AM"
  else if String.eqb filterKey "Trainer" && isMerged then get item "Trainer"
  else get item filterKey.

(** [getItemCount]; [data] is an array, which is never falsy. *)
Definition getItemCount (showCount : bool) (data : list object) (filterKey : string)
    (isMerged : bool) (option : string) : nat :=
  if negb showCount || negb (toBoolean (VString filterKey)) then 0%nat
  else
    length
      (List.filter
         (fun item =>
            strictEqualsString
              (logicalOr (optionValue filterKey isMerged item) (VString "Unknown")) option)
         data).

End MultiSelectFilter.

(** ** [TenureDistributionChart]: enrolments and employees by tenure *)

Module TenureDistributionChart.

Record Bucket : Type := {
  total : nat;
  completed : nat;
  employees : list value
}.

(** [acc[tenure]] is truthy: an own bucket, or an inherited member. *)
Definition hasTruthy (acc : gmap string Bucket) (tenure : string) : bool :=
  match acc !! tenure with
  | Some _ => true
  | None => bool_decide (tenure ∈ TrainerCompletionChart.objectPrototypeKeys)
  end.

Definition addEmployee (code : value) (b : Bucket) : Bucket :=
  {| total := total b; completed := completed b; employees := Set_add (employees b) code |}.

Definition incTotal (b : Bucket) : Bucket :=
  {| total := S (total b); completed := completed b; employees := employees b |}.

Definition incCompleted (b : Bucket) : Bucket :=
  {| total := total b; completed := S (completed b); employees := employees b |}.

Section Chart.

Variable Date_parse : string -> option Z.
Variable now : Z.

Definition reducer (acc : gmap string Bucket) (record : object) : gmap string Bucket :=
  let tenure := calculateTenure Date_parse now (get record "date_of_joining") in
  let acc :=
    if negb (hasTruthy acc tenure)
    then <[tenure := {| total := 0; completed := 0; employees := [] |}]> acc
    else acc in
  let acc := alter (addEmployee (get record "employee_code")) tenure acc in
  let acc := alter incTotal tenure acc in
  if strictEqualsString (get record "course_completion_status") "Completed"
  then alter incCompleted tenure acc
  else acc.

Definition tenureData (data : list object) : gmap string Bucket :=
  fold_left reducer data ∅.

(** What one record does to the bucket found, or created, for it. *)
Definition bump (record : object) (b : Bucket) : Bucket :=
  {| total := S (total b);
     completed := if strictEqualsString (get record "course_completion_status") "Completed"
                  then S (completed b) else completed b;
     employees := Set_add (employees b) (get record "employee_code") |}.

(** [tenureData[tenure].employees.size] *)
Definition uniqueEmployees (b : Bucket) : nat := length (employees b).

(** The records of a tenure bucket, and the bucket that they make. *)
Definition recordsIn (tenure : string) (data : list object) : list object :=
  CompletionCharts.recordsIn (CompletionCharts.tenureOf Date_parse now) tenure data.

Definition bucketOf (tenure : string) (data : list object) : Bucket :=
  {| total := length (recordsIn tenure data);
     completed := length (List.filter CompletionCharts.isCompleted (recordsIn tenure data));
     employees :=
       Set_from (map (fun record => get record "employee_code") (recordsIn tenure data)) |}.

(** The counts of a bucket, as the completion chart keeps them. *)
Definition countsOf (b : Bucket) : TrainerCompletionChart.Counts :=
  {| TrainerCompletionChart.total := total b;
     TrainerCompletionChart.completed := completed b |}.

End Chart.

End TenureDistributionChart.


(** ** Sample data *)

Module Sample.

(** 2024-01-10T00:00:00Z *)
Definition now : Z := 1704844800000.

Definition directory : list App.StoreRecord :=
  [ {| App.Store_ID := "S1"; App.location := "Pune"; App.Region := "West";
       App.AM := "A. Rao"; App.Trainer := "T. Iyer" |} ].

(** A record with no store identifier, date of joining, course or
    designation. *)
Definition bare : object := {["employee_code" := VString "E1"]}.

(** A record of a store that the directory does not know. *)
Definition unmapped : object :=
  {["employee_code" := VString "E2"; "Store ID" := VString "S9"]}.

(** A parsed CSV row whose numeric cells are not numbers. *)
Definition badRow : list (string * string) :=
  [ ("employee_code", "E1"); ("course_completion_hours", "abc");
    ("course_progress", "n/a%") ].

Definition trained (code trainer status : string) : object :=
  {["employee_code" := VString code; "Trainer" := VString trainer;
    "course_completion_status" := VString status]}.

Definition enrolments : list object :=
  [ trained "E1" "T. Iyer" "Completed"; trained "E1" "T. Iyer" "Not Completed";
    trained "E2" "T. Iyer" "Completed" ].

(** A number-to-string conversion for the samples, which hold no numeric
    trainer. *)
Definition noNumbers (n : number) : string := "NaN".

End Sample.

(** * Properties *)

Import Dashboard.

(** ** Tenure classification *)

Example isoDateParse_epoch : isoDateParse "1970-01-01" = Some 0.
Proof. reflexivity. Qed.

Example isoDateParse_2024 : isoDateParse "2024-01-10" = Some 1704844800000.
Proof. reflexivity. Qed.

Example isoDateParse_blank : isoDateParse EmptyString = None.
Proof. reflexivity. Qed.

Section TenureFacts.

Variable Date_parse : string -> option Z.
Variable now : Z.

Lemma daysDiff_exact d k :
  Date_getTime Date_parse d = Some (now - k * msPerDay) ->
  daysDiff Date_parse now d = Some k.
Proof.
  intros H. unfold daysDiff. rewrite H. f_equal.
  replace (now - (now - k * msPerDay)) with (k * msPerDay) by lia.
  apply Z.div_mul. unfold msPerDay. lia.
Qed.

Lemma calculateTenure_of_days d k :
  daysDiff Date_parse now d = Some k ->
  calculateTenure Date_parse now d =
    if k <=? 4 then "1-4 days"
    else if k <=? 15 then "5-15 days"
    else if k <=? 30 then "16-30 days"
    else "over a month".
Proof. intros H. unfold calculateTenure. rewrite H. reflexivity. Qed.

Lemma calculateTenure_NaN d :
  daysDiff Date_parse now d = None ->
  calculateTenure Date_parse now d = "over a month".
Proof. intros H. unfold calculateTenure. rewrite H. reflexivity. Qed.

Lemma calculateTenure_bucket d :
  calculateTenure Date_parse now d ∈ tenureBuckets.
Proof.
  unfold calculateTenure, tenureBuckets.
  apply list_elem_of_In.
  repeat case_match; simpl; tauto.
Qed.

(** C5. A date of joining exactly [k] whole days before the evaluation
    instant has day difference [k], and the classifier returns "1-4 days"
    for 4 days, "5-15 days" for 5 and for 15, "16-30 days" for 16 and
    "over a month" for 31. *)
Theorem calculateTenure_boundaries d k :
  Date_getTime Date_parse d = Some (now - k * msPerDay) ->
  daysDiff Date_parse now d = Some k
  /\ (k = 4 -> calculateTenure Date_parse now d = "1-4 days")
  /\ (k = 5 -> calculateTenure Date_parse now d = "5-15 days")
  /\ (k = 15 -> calculateTenure Date_parse now d = "5-15 days")
  /\ (k = 16 -> calculateTenure Date_parse now d = "16-30 days")
  /\ (k = 31 -> calculateTenure Date_parse now d = "over a month").
Proof.
  intros H. pose proof (daysDiff_exact d k H) as Hd.
  pose proof (calculateTenure_of_days d k Hd) as Ht.
  split; [exact Hd |].
  repeat split; intros ->; exact Ht.
Qed.

(** C6. A date-of-joining string that does not parse (its day difference
    is NaN) is classified "over a month", and whatever the value of the
    field the classifier returns one of the four, pairwise distinct,
    tenure buckets. *)
Theorem calculateTenure_unparseable :
  (forall s, Date_parse s = None ->
     daysDiff Date_parse now (VString s) = None
     /\ calculateTenure Date_parse now (VString s) = "over a month")
  /\ (forall d, calculateTenure Date_parse now d ∈ tenureBuckets)
  /\ NoDup tenureBuckets.
Proof.
  split; [| split].
  - intros s Hs.
    assert (Hd : daysDiff Date_parse now (VString s) = None).
    { unfold daysDiff. simpl. rewrite Hs. reflexivity. }
    split; [exact Hd | apply calculateTenure_NaN, Hd].
  - apply calculateTenure_bucket.
  - unfold tenureBuckets. apply NoDup_ListNoDup.
    repeat (constructor; [simpl; intuition discriminate |]). constructor.
Qed.

End TenureFacts.

Lemma calculateTenure_boundaries_witness :
  calculateTenure isoDateParse Sample.now (VString "2024-01-06") = "1-4 days".
Proof.
  refine (proj1 (proj2 (calculateTenure_boundaries isoDateParse Sample.now
                          (VString "2024-01-06") 4 _)) _);
    reflexivity.
Defined.

Lemma calculateTenure_unparseable_witness :
  calculateTenure isoDateParse Sample.now (VString "N/A") = "over a month".
Proof.
  refine (proj2 (proj1 (calculateTenure_unparseable isoDateParse Sample.now) "N/A" _)).
  reflexivity.
Defined.

(** ** Multi-select filter *)

Lemma nonEmpty_true {A : Type} (l : list A) : nonEmpty l = true <-> l <> [].
Proof. destruct l; simpl; split; intros; congruence. Qed.

Lemma includes_memberOf selected v :
  includes selected v = true <-> memberOf v selected.
Proof.
  unfold includes, memberOf. split.
  - destruct v; try discriminate. intros H%bool_decide_eq_true. eauto.
  - intros (s & -> & Hs). apply bool_decide_eq_true, Hs.
Qed.

(** One block of the callback lets the item through exactly when its
    selection is empty or includes the value. *)
Lemma block_passes selected v :
  nonEmpty selected && negb (includes selected v) = false
  <-> (selected <> [] -> memberOf v selected).
Proof.
  rewrite andb_false_iff, negb_false_iff, includes_memberOf.
  split.
  - intros [He | Hm] Hne; [| exact Hm].
    apply nonEmpty_true in Hne. congruence.
  - intros H. destruct selected as [| s l]; [left; reflexivity |].
    right. apply H. discriminate.
Qed.

Lemma filter_all {A : Type} (f : A -> bool) (l : list A) :
  (forall x, f x = true) -> List.filter f l = l.
Proof.
  intros Hf. induction l as [| x l IH]; simpl; [reflexivity |].
  rewrite Hf, IH. reflexivity.
Qed.

Lemma filter_none {A : Type} (f : A -> bool) (l : list A) :
  (forall x, f x = false) -> List.filter f l = [].
Proof.
  intros Hf. induction l as [| x l IH]; simpl; [reflexivity |].
  rewrite Hf. exact IH.
Qed.

Lemma filter_sublist {A : Type} (f : A -> bool) (l : list A) :
  List.filter f l `sublist_of` l.
Proof.
  induction l as [| x l IH]; simpl; [constructor |].
  destruct (f x); [apply sublist_skip | apply sublist_cons]; exact IH.
Qed.

Section FilterFacts.

Variable Date_parse : string -> option Z.
Variable now : Z.

Lemma filterCallback_blocks isMerged sel item :
  filterCallback Date_parse now isMerged sel item = true <->
  forall d,
    nonEmpty (selection sel d)
    && negb (includes (selection sel d) (dimensionValue Date_parse now isMerged d item))
    = false.
Proof.
  unfold filterCallback. split.
  - intros H d.
    destruct d; cbn [selection dimensionValue];
      repeat (case_match; try discriminate); reflexivity || assumption.
  - intros H.
    pose proof (H ByTenure) as H1. pose proof (H ByStore) as H2.
    pose proof (H ByAreaManager) as H3. pose proof (H ByTrainer) as H4.
    pose proof (H ByCourse) as H5. pose proof (H ByDesignation) as H6.
    cbn [selection dimensionValue] in H1, H2, H3, H4, H5, H6.
    rewrite H1, H2, H3, H4, H5, H6. reflexivity.
Qed.

Lemma filterCallback_satisfiesAll isMerged sel item :
  filterCallback Date_parse now isMerged sel item = true <->
  satisfiesAll Date_parse now isMerged sel item.
Proof.
  rewrite filterCallback_blocks. unfold satisfiesAll.
  split; intros H d; apply block_passes, H.
Qed.

(** C1. A record is in the filter's output if and only if it is in the
    input and, for every dimension whose selection is non-empty, its value
    for that dimension is one of the selected values; the output is a
    subsequence of the input. *)
Theorem filteredData_sound_complete isMerged sel (data : list object) :
  (forall item,
     item ∈ filteredData Date_parse now isMerged sel data <->
     item ∈ data /\ satisfiesAll Date_parse now isMerged sel item)
  /\ filteredData Date_parse now isMerged sel data `sublist_of` data.
Proof.
  split.
  - intros item. unfold filteredData.
    rewrite !list_elem_of_In, filter_In, filterCallback_satisfiesAll. reflexivity.
  - apply filter_sublist.
Qed.

(** C2. With all six selections empty the filter returns its input. *)
Theorem filteredData_noSelection isMerged (data : list object) :
  filteredData Date_parse now isMerged noSelection data = data.
Proof. apply filter_all. intros item. reflexivity. Qed.

End FilterFacts.

Lemma get_insert_eq (o : object) k v : get (<[k := v]> o) k = v.
Proof. unfold get. rewrite lookup_insert_eq. reflexivity. Qed.

Lemma get_insert_ne (o : object) k k' v : k <> k' -> get (<[k := v]> o) k' = get o k'.
Proof. intros H. unfold get. rewrite lookup_insert_ne by exact H. reflexivity. Qed.

Lemma includes_string selected s :
  includes selected (VString s) = bool_decide (s ∈ selected).
Proof. reflexivity. Qed.

Lemma block_includes selected v :
  includes selected v = true -> nonEmpty selected && negb (includes selected v) = false.
Proof. intros ->. apply andb_false_r. Qed.

Lemma block_excludes selected v :
  selected <> [] -> includes selected v = false ->
  nonEmpty selected && negb (includes selected v) = true.
Proof. intros Hne ->. apply nonEmpty_true in Hne. rewrite Hne. reflexivity. Qed.

Lemma logicalOr_blank v w : blank v -> logicalOr v w = w.
Proof. intros [-> | ->]; reflexivity. Qed.

Lemma filter_ext_eq {A : Type} (f g : A -> bool) (l : list A) :
  (forall x, f x = g x) -> List.filter f l = List.filter g l.
Proof. intros H. apply filter_ext. exact H. Qed.

Section UnknownFacts.

Variable Date_parse : string -> option Z.
Variable now : Z.

(** A selection on one dimension only passes exactly the records whose
    value for that dimension is included. *)
Lemma filterCallback_only isMerged d selected item :
  selected <> [] ->
  filterCallback Date_parse now isMerged (only d selected) item
  = includes selected (dimensionValue Date_parse now isMerged d item).
Proof.
  intros Hne. apply nonEmpty_true in Hne.
  unfold filterCallback.
  destruct d; cbn [only selectedTenure selectedStore selectedAreaManager selectedTrainer
                   selectedCourse selectedDesignation dimensionValue nonEmpty andb];
    rewrite Hne; cbn [andb];
    match goal with |- context [includes ?l ?v] => destruct (includes l v) end;
    reflexivity.
Qed.

(** Lifting the constraint of a dimension whose block lets the item
    through does not change the callback. *)
Lemma filterCallback_without isMerged sel d item :
  nonEmpty (selection sel d)
  && negb (includes (selection sel d) (dimensionValue Date_parse now isMerged d item)) = false ->
  filterCallback Date_parse now isMerged sel item
  = filterCallback Date_parse now isMerged (without d sel) item.
Proof.
  intros H. unfold filterCallback.
  destruct d; cbn [selection dimensionValue] in H;
    cbn [without selectedTenure selectedStore selectedAreaManager selectedTrainer
         selectedCourse selectedDesignation nonEmpty andb];
    rewrite H; reflexivity.
Qed.

Lemma filterCallback_blocked isMerged sel d item :
  nonEmpty (selection sel d)
  && negb (includes (selection sel d) (dimensionValue Date_parse now isMerged d item)) = true ->
  filterCallback Date_parse now isMerged sel item = false.
Proof.
  intros H.
  destruct (filterCallback Date_parse now isMerged sel item) eqn:E; [| reflexivity].
  apply filterCallback_blocks with (d := d) in E. congruence.
Qed.

(** C10. On a dataset that is not merged the callback reads "Unknown" for
    store, area manager and trainer, whatever the record holds: it behaves
    as on a merged record whose three fields are "Unknown". Hence, for a
    non-empty selection on one of these dimensions: when "Unknown" is
    selected the output is the output without that constraint, that is, the
    records of the input that satisfy the constraints on the other
    dimensions, in their order, and the whole input when no other dimension
    is constrained; when "Unknown" is not selected the output is empty. *)
Theorem filteredData_not_merged sel d (data : list object) :
  d ∈ [ByStore; ByAreaManager; ByTrainer] ->
  selection sel d <> [] ->
  (forall item,
     filterCallback Date_parse now false sel item
     = filterCallback Date_parse now true sel
         (<["location" := VString "Unknown"]>
            (<["AM" := VString "Unknown"]>
               (<["Trainer" := VString "Unknown"]> item))))
  /\ ("Unknown" ∈ selection sel d ->
      filteredData Date_parse now false sel data
      = filteredData Date_parse now false (without d sel) data)
  /\ ("Unknown" ∉ selection sel d ->
      filteredData Date_parse now false sel data = [])
  /\ ("Unknown" ∈ selection sel d ->
      (forall item,
         item ∈ filteredData Date_parse now false sel data <->
         item ∈ data
         /\ forall d', d' <> d -> selection sel d' <> [] ->
              memberOf (dimensionValue Date_parse now false d' item) (selection sel d'))
      /\ filteredData Date_parse now false sel data `sublist_of` data
      /\ ((forall d', d' <> d -> selection sel d' = []) ->
          filteredData Date_parse now false sel data = data)).
Proof.
  intros Hd Hne.
  assert (Hv : forall item,
             dimensionValue Date_parse now false d item = VString "Unknown").
  { intros item. rewrite !elem_of_cons in Hd.
    destruct Hd as [-> | [-> | [-> | Hd]]]; [reflexivity .. | inversion Hd]. }
  assert (Hother : "Unknown" ∈ selection sel d ->
            forall item,
              filterCallback Date_parse now false sel item = true <->
              forall d', d' <> d -> selection sel d' <> [] ->
                memberOf (dimensionValue Date_parse now false d' item) (selection sel d')).
  { intros Hin item. rewrite filterCallback_satisfiesAll. unfold satisfiesAll. split.
    - intros H d' _. apply H.
    - intros H d' Hd'.
      assert (Hdec : d' = d \/ d' <> d)
        by (destruct d', d; (left; reflexivity) || (right; discriminate)).
      destruct Hdec as [-> | Hneq]; [| apply H; assumption].
      rewrite Hv. exists "Unknown". split; [reflexivity | exact Hin]. }
  split; [| split; [| split]].
  - intros item. unfold filterCallback.
    rewrite get_insert_eq.
    rewrite (get_insert_ne _ "location" "AM"), get_insert_eq by discriminate.
    rewrite (get_insert_ne _ "location" "Trainer"),
            (get_insert_ne _ "AM" "Trainer"), get_insert_eq by discriminate.
    rewrite !(get_insert_ne _ "location"), !(get_insert_ne _ "AM"),
            !(get_insert_ne _ "Trainer") by discriminate.
    reflexivity.
  - intros Hin. unfold filteredData. apply filter_ext_eq. intros item.
    apply filterCallback_without. rewrite Hv. apply block_includes.
    apply bool_decide_eq_true, Hin.
  - intros Hnin. unfold filteredData. apply filter_none. intros item.
    apply filterCallback_blocked with (d := d). rewrite Hv.
    apply block_excludes; [exact Hne |].
    apply bool_decide_eq_false, Hnin.
  - intros Hin. split; [| split].
    + intros item. unfold filteredData.
      rewrite !list_elem_of_In, filter_In, (Hother Hin item). reflexivity.
    + apply filter_sublist.
    + intros Hrest. unfold filteredData. apply filter_all. intros item.
      apply (Hother Hin). intros d' Hneq Hsel. destruct Hsel. apply Hrest, Hneq.
Qed.

(** C3, as amended. Under a non-empty selection on one dimension, a record
    whose course name (designation) is missing or blank passes exactly when
    "Unknown" is selected; a record whose date of joining is missing or
    does not parse passes a tenure selection exactly when "over a month" is
    selected; and on a dataset that is not merged every record passes a
    store, area-manager or trainer selection exactly when "Unknown" is
    selected. *)
Theorem missing_value_matching isMerged (item : object) selected :
  selected <> [] ->
  (blank (get item "course_name") ->
     filterCallback Date_parse now isMerged (only ByCourse selected) item = true
     <-> "Unknown" ∈ selected)
  /\ (blank (get item "designation") ->
     filterCallback Date_parse now isMerged (only ByDesignation selected) item = true
     <-> "Unknown" ∈ selected)
  /\ (Date_getTime Date_parse (get item "date_of_joining") = None ->
     filterCallback Date_parse now isMerged (only ByTenure selected) item = true
     <-> "over a month" ∈ selected)
  /\ (forall d, d ∈ [ByStore; ByAreaManager; ByTrainer] ->
     filterCallback Date_parse now false (only d selected) item = true
     <-> "Unknown" ∈ selected).
Proof.
  intros Hne. split; [| split; [| split]].
  - intros Hb. rewrite filterCallback_only by exact Hne. cbn [dimensionValue].
    rewrite logicalOr_blank by exact Hb. apply bool_decide_eq_true.
  - intros Hb. rewrite filterCallback_only by exact Hne. cbn [dimensionValue].
    rewrite logicalOr_blank by exact Hb. apply bool_decide_eq_true.
  - intros Ht. rewrite filterCallback_only by exact Hne. cbn [dimensionValue].
    rewrite calculateTenure_NaN by (unfold daysDiff; rewrite Ht; reflexivity).
    apply bool_decide_eq_true.
  - intros d Hd. rewrite filterCallback_only by exact Hne.
    rewrite !elem_of_cons in Hd.
    destruct Hd as [-> | [-> | [-> | Hd]]]; [| | | inversion Hd];
      apply bool_decide_eq_true.
Qed.

End UnknownFacts.

Lemma filteredData_not_merged_witness :
  filteredData isoDateParse Sample.now false (only ByStore ["Pune"])
    [Sample.bare; Sample.unmapped] = []
  /\ filteredData isoDateParse Sample.now false (only ByStore ["Pune"; "Unknown"])
       [Sample.bare; Sample.unmapped] = [Sample.bare; Sample.unmapped].
Proof.
  split.
  - refine (proj1 (proj2 (proj2 (filteredData_not_merged isoDateParse Sample.now
                                   (only ByStore ["Pune"]) ByStore _ _ _))) _).
    + apply list_elem_of_here.
    + discriminate.
    + intros H. apply list_elem_of_In in H. simpl in H. intuition discriminate.
  - refine (proj2 (proj2 (proj2 (proj2 (proj2 (filteredData_not_merged
              isoDateParse Sample.now (only ByStore ["Pune"; "Unknown"]) ByStore _ _ _)))
              _)) _).
    + apply list_elem_of_here.
    + discriminate.
    + apply list_elem_of_In. simpl. tauto.
    + intros d' Hneq. destruct d'; try reflexivity. contradiction.
Defined.

Lemma missing_value_matching_witness :
  filterCallback isoDateParse Sample.now true (only ByCourse ["Unknown"]) Sample.bare = true.
Proof.
  refine (proj2 (proj1 (missing_value_matching isoDateParse Sample.now true
                          Sample.bare ["Unknown"] _) _) _).
  - discriminate.
  - left. reflexivity.
  - apply list_elem_of_here.
Defined.

(** C3, as the specification states it, fails on the code. A record
    without a date of joining does not pass the tenure selection
    ["Unknown"], although "Unknown" is selected, and it passes the tenure
    selection ["over a month"]; on a merged dataset a record whose location
    the directory merge left absent does not pass the store selection
    ["Unknown"] either. *)
Lemma blank_not_matched_as_Unknown :
  blank (get Sample.bare "date_of_joining")
  /\ filterCallback isoDateParse Sample.now true (only ByTenure ["Unknown"]) Sample.bare = false
  /\ filterCallback isoDateParse Sample.now true (only ByTenure ["over a month"]) Sample.bare = true
  /\ blank (get Sample.bare "location")
  /\ filterCallback isoDateParse Sample.now true (only ByStore ["Unknown"]) Sample.bare = false.
Proof.
  split; [left; reflexivity |].
  split; [vm_compute; reflexivity |].
  split; [vm_compute; reflexivity |].
  split; [left; reflexivity |].
  vm_compute; reflexivity.
Qed.

Lemma filteredData_sound_complete_witness :
  Sample.bare ∈ filteredData isoDateParse Sample.now true (only ByCourse ["Unknown"])
                  [Sample.bare; Sample.unmapped].
Proof.
  apply (proj1 (filteredData_sound_complete isoDateParse Sample.now true
                  (only ByCourse ["Unknown"]) [Sample.bare; Sample.unmapped])).
  split; [apply list_elem_of_here |].
  intros d Hd. destruct d; try (exfalso; apply Hd; reflexivity).
  exists "Unknown". split; [reflexivity | apply list_elem_of_here].
Defined.

Example roundedRate_half : roundedRate 1 2 = num_of_Z 50.
Proof. reflexivity. Qed.

Example roundedRate_two_thirds : roundedRate 2 3 = num_of_Z 67.
Proof. reflexivity. Qed.

Example roundedRate_in_doubles : roundedRate 23 40 = num_of_Z 57.
Proof. reflexivity. Qed.

(** ** [Map] *)

Lemma mapKey_idem v : mapKey (mapKey v) = mapKey v.
Proof. destruct v as [| | | n |]; try reflexivity. destruct n; reflexivity. Qed.

Section MapFacts.

Context {A : Type}.
Implicit Types (m : list (value * A)) (k : value) (a : A).

Lemma Map_get_set m k a k' :
  Map_get (Map_set m k a) k' =
  if decide (mapKey k = mapKey k') then Some a else Map_get m k'.
Proof.
  induction m as [| [k0 a0] m IH]; simpl.
  - destruct (decide (mapKey k = mapKey k')); reflexivity.
  - destruct (decide (k0 = mapKey k)) as [-> | Hk]; simpl.
    + destruct (decide (mapKey k = mapKey k')); reflexivity.
    + rewrite IH.
      destruct (decide (k0 = mapKey k')) as [-> | Hk'];
        destruct (decide (mapKey k = mapKey k')); congruence.
Qed.

Lemma Map_get_None m k : Map_get m k = None <-> mapKey k ∉ map fst m.
Proof.
  induction m as [| [k0 a0] m IH]; simpl.
  - split; [intros _; apply not_elem_of_nil | reflexivity].
  - rewrite not_elem_of_cons.
    destruct (decide (k0 = mapKey k)) as [-> | Hk].
    + split; [discriminate | intros [H _]; congruence].
    + rewrite IH. split; [intros H; split; [congruence | exact H] | intros [_ H]; exact H].
Qed.

Lemma Map_set_keys_new m k a :
  Map_get m k = None -> map fst (Map_set m k a) = (map fst m ++ [mapKey k])%list.
Proof.
  induction m as [| [k0 a0] m IH]; simpl; [reflexivity |].
  destruct (decide (k0 = mapKey k)); [discriminate |].
  intros H. simpl. rewrite IH by exact H. reflexivity.
Qed.

Lemma Map_set_keys_old m k a :
  Map_get m k <> None -> map fst (Map_set m k a) = map fst m.
Proof.
  induction m as [| [k0 a0] m IH]; simpl; [congruence |].
  destruct (decide (k0 = mapKey k)); [reflexivity |].
  intros H. simpl. rewrite IH by exact H. reflexivity.
Qed.

Lemma Map_get_elem m k a :
  NoDup (map fst m) -> (mapKey k, a) ∈ m -> Map_get m k = Some a.
Proof.
  induction m as [| [k0 a0] m IH]; simpl; intros Hnd Hin.
  - inversion Hin.
  - apply NoDup_cons in Hnd as [Hk0 Hnd].
    apply elem_of_cons in Hin as [Heq | Hin].
    + injection Heq as <- <-. rewrite decide_True by reflexivity. reflexivity.
    + destruct (decide (k0 = mapKey k)) as [-> | Hne]; [| apply IH; assumption].
      exfalso. apply Hk0. apply list_elem_of_fmap. exists (mapKey k, a). split; [reflexivity | exact Hin].
Qed.

End MapFacts.

(** ** Employee rollup *)

Lemma filter_length_bound {A : Type} (f : A -> bool) (l : list A) :
  (length (List.filter f l) <= length l)%nat.
Proof.
  induction l as [| x l IH]; simpl; [lia |].
  destruct (f x); simpl; lia.
Qed.

Lemma recordsOf_snoc code data item :
  recordsOf code (data ++ [item])
  = (recordsOf code data
     ++ if bool_decide (mapKey (get item "employee_code") = code) then [item] else [])%list.
Proof. unfold recordsOf. rewrite List.filter_app. reflexivity. Qed.

Lemma completedOf_snoc code data item :
  completedOf code (data ++ [item])
  = (completedOf code data
     ++ if bool_decide (mapKey (get item "employee_code") = code)
           && strictEqualsString (statusOf item) "Completed"
        then [item] else [])%list.
Proof.
  unfold completedOf. rewrite recordsOf_snoc, List.filter_app.
  destruct (bool_decide (mapKey (get item "employee_code") = code)); simpl;
    [destruct (strictEqualsString (statusOf item) "Completed") |]; reflexivity.
Qed.

Lemma completedOf_le code data :
  (length (completedOf code data) <= length (recordsOf code data))%nat.
Proof. apply filter_length_bound. Qed.

Lemma entryOk_other data item code emp :
  mapKey (get item "employee_code") <> code ->
  entryOk data code emp -> entryOk (data ++ [item]) code emp.
Proof.
  intros Hne. unfold entryOk.
  rewrite recordsOf_snoc, completedOf_snoc, bool_decide_eq_false_2 by exact Hne.
  simpl. rewrite !app_nil_r. tauto.
Qed.

Lemma addCourse_ok data item emp :
  let code := mapKey (get item "employee_code") in
  mapKey (employee_code emp) = code ->
  total_courses emp = length (recordsOf code data) ->
  completed_courses emp = length (completedOf code data) ->
  length (courses emp) = total_courses emp ->
  entryOk (data ++ [item]) code (addCourse item emp).
Proof.
  intros code Hc Ht Hd Hl. unfold entryOk.
  rewrite recordsOf_snoc, completedOf_snoc.
  fold code. rewrite bool_decide_eq_true_2 by reflexivity.
  pose proof (completedOf_le code data) as Hle.
  cbn [addCourse employee_code total_courses completed_courses completion_rate courses andb].
  rewrite !length_app. cbn [length].
  repeat split; try (destruct (strictEqualsString (statusOf item) "Completed"); cbn [length]); lia || assumption || reflexivity.
Qed.

Lemma recordsOf_nil code data :
  (forall item, item ∈ data -> mapKey (get item "employee_code") <> code) ->
  recordsOf code data = [].
Proof.
  intros H. unfold recordsOf. induction data as [| x data IH]; simpl; [reflexivity |].
  rewrite bool_decide_eq_false_2 by (apply H; left).
  apply IH. intros item Hin. apply H. right. exact Hin.
Qed.

Lemma rollupStep_get m item k :
  Map_get (rollupStep m item) k =
  if decide (mapKey (get item "employee_code") = mapKey k)
  then Some (addCourse item (default (newEmployee item) (Map_get m (get item "employee_code"))))
  else Map_get m k.
Proof.
  unfold rollupStep, Map_has.
  destruct (Map_get m (get item "employee_code")) as [emp |] eqn:E; cbn [negb default].
  - rewrite E. apply Map_get_set.
  - rewrite Map_get_set, decide_True by reflexivity.
    rewrite !Map_get_set.
    destruct (decide (mapKey (get item "employee_code") = mapKey k)); reflexivity.
Qed.

Lemma rollupStep_keys m item :
  map fst (rollupStep m item) =
  match Map_get m (get item "employee_code") with
  | Some _ => map fst m
  | None => (map fst m ++ [mapKey (get item "employee_code")])%list
  end.
Proof.
  unfold rollupStep, Map_has.
  destruct (Map_get m (get item "employee_code")) as [emp |] eqn:E; cbn [negb].
  - rewrite E. apply Map_set_keys_old. congruence.
  - rewrite Map_get_set, decide_True by reflexivity.
    rewrite Map_set_keys_old by (rewrite Map_get_set, decide_True by reflexivity; discriminate).
    apply Map_set_keys_new, E.
Qed.

Lemma rollupInv_nil : rollupInv [] [].
Proof.
  unfold rollupInv. simpl. split; [| split; [| split]].
  - constructor.
  - intros k Hk. inversion Hk.
  - discriminate.
  - intros item Hin. inversion Hin.
Qed.

Lemma rollupInv_step data m item :
  rollupInv data m -> rollupInv (data ++ [item]) (rollupStep m item).
Proof.
  intros (Hnd & Hnorm & Hok & Hall).
  set (code := get item "employee_code").
  unfold rollupInv. rewrite rollupStep_keys. fold code.
  split; [| split; [| split]].
  - destruct (Map_get m code) eqn:E; [exact Hnd |].
    apply NoDup_app. split; [exact Hnd |]. split.
    + intros k Hk Hk'. apply list_elem_of_singleton in Hk'. subst k.
      apply Map_get_None in E. contradiction.
    + apply NoDup_singleton.
  - intros k Hk. destruct (Map_get m code) eqn:E; [apply Hnorm, Hk |].
    apply elem_of_app in Hk as [Hk | Hk]; [apply Hnorm, Hk |].
    apply list_elem_of_singleton in Hk. subst k. apply mapKey_idem.
  - intros k emp. rewrite rollupStep_get. fold code.
    destruct (decide (mapKey code = mapKey k)) as [Heq | Hne].
    + intros [= <-]. rewrite <- Heq.
      destruct (Map_get m code) as [emp0 |] eqn:E; cbn [default].
      * destruct (Hok code emp0 E) as (Hc & Ht & _ & Hd & _ & Hl & _).
        apply addCourse_ok; assumption.
      * assert (Hnil : recordsOf (mapKey code) data = []).
        { apply recordsOf_nil. intros x Hx Hkey.
          apply (Hall x Hx). apply Map_get_None. rewrite Hkey.
          apply Map_get_None, E. }
        apply addCourse_ok; cbn [newEmployee employee_code total_courses
                                 completed_courses courses]; fold code.
        -- reflexivity.
        -- rewrite Hnil. reflexivity.
        -- unfold completedOf. rewrite Hnil. reflexivity.
        -- reflexivity.
    + intros E. apply entryOk_other; [exact Hne | apply Hok, E].
  - intros x Hx. rewrite rollupStep_get. fold code.
    destruct (decide (mapKey code = mapKey (get x "employee_code"))); [discriminate |].
    apply elem_of_app in Hx as [Hx | Hx]; [apply Hall, Hx |].
    apply list_elem_of_singleton in Hx. subst x. contradiction.
Qed.

Lemma rollupInv_employeeMap data : rollupInv data (employeeMap data).
Proof.
  unfold employeeMap.
  induction data as [| item data IH] using rev_ind; [apply rollupInv_nil |].
  rewrite fold_left_app. simpl. apply rollupInv_step, IH.
Qed.




Example employeeCompletionRates_example :
  map (fun emp => (employee_code emp, total_courses emp, completed_courses emp,
                   completion_rate emp))
    (employeeCompletionRates
       [ {["employee_code" := VString "E1"; "course_completion_status" := VString "Completed"]};
         {["employee_code" := VString "E1"; "course_completion_status" := VString "Not Completed"]};
         {["employee_code" := VString "E2"; "course_completion_status" := VString "Completed"]} ])
  = [ (VString "E1", 2%nat, 1%nat, num_of_Z 50); (VString "E2", 1%nat, 1%nat, num_of_Z 100) ].
Proof. vm_compute. reflexivity. Qed.

(** ** The CSV row mapper *)

Example parseFloat_decimal : App.parseFloat "12.5" = num_div (num_of_Z 25) (num_of_Z 2).
Proof. vm_compute. reflexivity. Qed.

Example parseFloat_prefix : App.parseFloat "  -3.75e2 hours" = num_of_Z (-375).
Proof. vm_compute. reflexivity. Qed.

Example parseFloat_percent : App.parseFloat "50%" = num_of_Z 50.
Proof. vm_compute. reflexivity. Qed.

Example parseFloat_not_a_number : App.parseFloat "abc" = S754_nan.
Proof. reflexivity. Qed.

Example cleanKey_example : App.cleanKey "  course   name " = "course name".
Proof. reflexivity. Qed.

(** The two numeric fields of a mapped row, in terms of the cleaned row. *)
Lemma csvRowMapper_hours d :
  get (App.csvRowMapper d) "course_completion_hours"
  = VNumber (App.numberOrZero App.parseFloat (App.cleanedD d !! "course_completion_hours")).
Proof.
  unfold App.csvRowMapper.
  rewrite !get_insert_ne by discriminate. apply get_insert_eq.
Qed.

Lemma csvRowMapper_progress d :
  get (App.csvRowMapper d) "course_progress"
  = VNumber (App.numberOrZero (fun s => App.parseFloat (App.stripPercent s))
               (App.cleanedD d !! "course_progress")).
Proof.
  unfold App.csvRowMapper.
  rewrite get_insert_ne by discriminate. apply get_insert_eq.
Qed.

(** An absent or empty cell gives 0. *)
Lemma numberOrZero_absent f cell :
  cell = None \/ cell = Some EmptyString -> App.numberOrZero f cell = num_of_Z 0.
Proof. intros [-> | ->]; reflexivity. Qed.

(** C7, on the code. A row whose hours cell is "abc" and whose progress
    cell is "n/a%" is mapped to a record that carries NaN in both fields:
    the mapper defaults to 0 only when the cell is absent or empty. *)
Theorem csvRowMapper_keeps_NaN :
  App.isNaN (get (App.csvRowMapper Sample.badRow) "course_completion_hours")
  /\ App.isNaN (get (App.csvRowMapper Sample.badRow) "course_progress").
Proof. split; vm_compute; reflexivity. Qed.

(** ** The directory merge *)

Section MergeFacts.

Variable storeMappingData : list App.StoreRecord.

Lemma storeMap_fold_None (l : list App.StoreRecord) (acc : gmap string object) id :
  fold_left (fun m s => <[App.Store_ID s := App.storeInfoOf s]> m) l acc !! id = None
  <-> acc !! id = None /\ forall s, s ∈ l -> App.Store_ID s <> id.
Proof.
  revert acc. induction l as [| s l IH]; intros acc; simpl.
  - split; [intros H; split; [exact H | intros s Hs; inversion Hs] | intros [H _]; exact H].
  - rewrite IH, lookup_insert_None. split.
    + intros [[Ha Hs] Hl]. split; [exact Ha |].
      intros s' Hs'. apply elem_of_cons in Hs' as [-> | Hs']; [exact Hs | apply Hl, Hs'].
    + intros [Ha Hl]. split; [split; [exact Ha | apply Hl; left] |].
      intros s' Hs'. apply Hl. right. exact Hs'.
Qed.

Lemma storeMap_fold_Some (l : list App.StoreRecord) (acc : gmap string object) id info :
  fold_left (fun m s => <[App.Store_ID s := App.storeInfoOf s]> m) l acc !! id = Some info ->
  acc !! id = Some info \/ exists s, s ∈ l /\ info = App.storeInfoOf s.
Proof.
  revert acc. induction l as [| s l IH]; intros acc; simpl; [auto |].
  intros H. apply IH in H as [H | (s' & Hs' & ->)].
  - apply lookup_insert_Some in H as [[_ <-] | [_ H]]; [| left; exact H].
    right. exists s. split; [left | reflexivity].
  - right. exists s'. split; [right; exact Hs' | reflexivity].
Qed.

Lemma storeInfoOf_other s k :
  k ∉ App.directoryFields -> App.storeInfoOf s !! k = None.
Proof.
  unfold App.directoryFields, App.storeInfoOf. intros Hk.
  rewrite !not_elem_of_cons in Hk. destruct Hk as (H1 & H2 & H3 & H4 & _).
  rewrite !lookup_insert_ne by congruence. apply lookup_empty.
Qed.

(** A record without a usable store identifier, or whose identifier is not
    in the directory, has no store information. *)
Lemma storeInfo_miss (emp : object) :
  toBoolean (get emp "Store ID") = false
  \/ (forall s, s ∈ storeMappingData -> get emp "Store ID" <> VString (App.Store_ID s)) ->
  App.storeInfo storeMappingData emp = None.
Proof.
  unfold App.storeInfo. intros [-> | H]; [reflexivity |].
  destruct (toBoolean (get emp "Store ID")); [| reflexivity].
  destruct (get emp "Store ID") as [| | | | id] eqn:E; try reflexivity.
  unfold App.storeMap. apply storeMap_fold_None. split; [apply lookup_empty |].
  intros s Hs Heq. apply (H s Hs). congruence.
Qed.

Lemma mergeRecord_other_fields (emp : object) k :
  k ∉ App.directoryFields ->
  get (App.mergeRecord storeMappingData emp) k = get emp k.
Proof.
  intros Hk. unfold App.mergeRecord.
  destruct (App.storeInfo storeMappingData emp) as [info |] eqn:E; [| reflexivity].
  unfold App.storeInfo in E.
  destruct (toBoolean (get emp "Store ID")); [| discriminate].
  destruct (get emp "Store ID"); try discriminate.
  unfold App.storeMap in E. apply storeMap_fold_Some in E as [E | (s' & _ & ->)].
  - rewrite lookup_empty in E. discriminate.
  - unfold get. rewrite lookup_union_r by (apply storeInfoOf_other, Hk). reflexivity.
Qed.

(** C4, as amended. The merge keeps every record at its position, with
    all its fields other than the four directory fields unchanged; a record
    whose store identifier is absent, blank or not in the directory is
    returned as it is, so its directory fields stay as the input has them
    (absent when the row has no such columns). *)
Theorem mergeWithStoreData_left_join (data : list object) :
  length (App.mergeWithStoreData storeMappingData data) = length data
  /\ (forall i emp, data !! i = Some emp ->
        exists merged,
          App.mergeWithStoreData storeMappingData data !! i = Some merged
          /\ forall k, k ∉ App.directoryFields -> get merged k = get emp k)
  /\ (forall i emp, data !! i = Some emp ->
        toBoolean (get emp "Store ID") = false
        \/ (forall s, s ∈ storeMappingData ->
              get emp "Store ID" <> VString (App.Store_ID s)) ->
        App.mergeWithStoreData storeMappingData data !! i = Some emp).
Proof.
  unfold App.mergeWithStoreData. split; [apply length_map | split].
  - intros i emp Hi. exists (App.mergeRecord storeMappingData emp). split.
    + change (map ?f ?l) with (f <$> l). rewrite list_lookup_fmap, Hi. reflexivity.
    + intros k Hk. apply mergeRecord_other_fields, Hk.
  - intros i emp Hi Hmiss.
    change (map ?f ?l) with (f <$> l). rewrite list_lookup_fmap, Hi. simpl.
    unfold App.mergeRecord. rewrite storeInfo_miss by exact Hmiss. reflexivity.
Qed.

End MergeFacts.

Lemma mergeWithStoreData_left_join_witness :
  App.mergeWithStoreData Sample.directory [Sample.bare; Sample.unmapped] !! 1%nat
  = Some Sample.unmapped.
Proof.
  refine (proj2 (proj2 (mergeWithStoreData_left_join Sample.directory
                          [Sample.bare; Sample.unmapped])) 1%nat Sample.unmapped _ _).
  - reflexivity.
  - right. intros s Hs. apply list_elem_of_singleton in Hs. subst s.
    vm_compute. discriminate.
Defined.

(** C4, as the specification states it, fails on the code. With a
    directory that knows store S1 only, a record without a store identifier
    and a record of the unknown store S9 both come out of the merge with
    their four directory fields absent, not "Unknown". *)
Lemma merge_miss_not_Unknown :
  map (fun merged => map (get merged) App.directoryFields)
    (App.mergeWithStoreData Sample.directory [Sample.bare; Sample.unmapped])
  = [ [VUndefined; VUndefined; VUndefined; VUndefined];
      [VUndefined; VUndefined; VUndefined; VUndefined] ]
  /\ get (App.mergeRecord Sample.directory Sample.bare) "location" <> VString "Unknown"
  /\ get (App.mergeRecord Sample.directory Sample.unmapped) "location" <> VString "Unknown".
Proof.
  split; [vm_compute; reflexivity |].
  split; vm_compute; discriminate.
Qed.

(** ** Rounding in binary64

    [binary_round_aux] shifts the mantissa to the right until it fits and
    rounds to nearest; a value that does not exceed a double does not
    round above it. *)

(** *** Binary digits *)
Lemma digits2_pos_log2 p : Z.pos (digits2_pos p) = Z.log2 (Z.pos p) + 1.
Proof.
  induction p as [p IH | p IH |]; simpl digits2_pos.
  - rewrite Pos2Z.inj_succ, IH.
    change (Z.pos p~1) with (2 * Z.pos p + 1).
    rewrite Z.log2_succ_double by lia. lia.
  - rewrite Pos2Z.inj_succ, IH.
    change (Z.pos p~0) with (2 * Z.pos p).
    rewrite Z.log2_double by lia. lia.
  - reflexivity.
Qed.

Lemma Zdigits2_log2 m : 0 < m -> Zdigits2 m = Z.log2 m + 1.
Proof. destruct m; try lia. intros _. apply digits2_pos_log2. Qed.

Lemma Zdigits2_le m b k :
  0 <= m -> 0 < b -> 0 <= k -> m <= b * 2 ^ k -> Zdigits2 m <= Zdigits2 b + k.
Proof.
  intros Hm Hb Hk Hle.
  destruct (Z.eq_dec m 0) as [-> | Hne].
  - simpl. rewrite Zdigits2_log2 by lia. pose proof (Z.log2_nonneg b). lia.
  - rewrite !Zdigits2_log2 by lia.
    apply Z.log2_le_mono in Hle. rewrite Z.log2_mul_pow2 in Hle by lia. lia.
Qed.

(** *** Shifts to the right *)

Lemma shr_1_spec mrs :
  0 <= shr_m mrs ->
  shr_m (shr_1 mrs) = shr_m mrs / 2
  /\ (lossless (shr_1 mrs) <-> lossless mrs /\ shr_m mrs mod 2 = 0).
Proof.
  destruct mrs as [m r s]. simpl. intros Hm. unfold lossless.
  destruct m as [| p | p]; [| | lia]; simpl.
  - split; [reflexivity |]. destruct r, s; simpl; intuition congruence.
  - destruct p as [p | p |]; simpl shr_m; simpl shr_r; simpl shr_s.
    + split.
      * change (Z.pos p~1) with (2 * Z.pos p + 1).
        apply Z.div_unique with (r := 1); lia.
      * change (Z.pos p~1) with (2 * Z.pos p + 1).
        replace ((2 * Z.pos p + 1) mod 2) with 1
          by (apply Z.mod_unique with (q := Z.pos p); lia).
        destruct r, s; simpl; intuition (congruence || lia).
    + split.
      * change (Z.pos p~0) with (2 * Z.pos p).
        apply Z.div_unique with (r := 0); lia.
      * change (Z.pos p~0) with (2 * Z.pos p).
        replace ((2 * Z.pos p) mod 2) with 0
          by (apply Z.mod_unique with (q := Z.pos p); lia).
        destruct r, s; simpl; intuition congruence.
    + split; [reflexivity |].
      change (1 mod 2) with 1.
      destruct r, s; simpl; intuition (congruence || lia).
Qed.

Lemma lossless_loc mrs : loc_of_shr_record mrs = loc_Exact <-> lossless mrs.
Proof.
  destruct mrs as [m [|] [|]]; unfold lossless; simpl; intuition congruence.
Qed.


Lemma iter_pos_nat {A : Type} (f : A -> A) n x :
  SpecFloat.iter_pos f n x = Nat.iter (Pos.to_nat n) f x.
Proof.
  revert x. induction n as [n IH | n IH |]; intros x; simpl SpecFloat.iter_pos.
  - rewrite !IH, <- Nat.iter_succ_r, <- Nat.iter_add. f_equal. lia.
  - rewrite !IH, <- Nat.iter_add. f_equal. lia.
  - reflexivity.
Qed.

Lemma iter_shr_1 (k : nat) mrs :
  0 <= shr_m mrs ->
  shr_m (Nat.iter k shr_1 mrs) = shr_m mrs / 2 ^ Z.of_nat k
  /\ (lossless (Nat.iter k shr_1 mrs) <-> lossless mrs /\ shr_m mrs mod 2 ^ Z.of_nat k = 0).
Proof.
  intros Hm. induction k as [| k [IHm IHe]].
  - simpl. rewrite Z.div_1_r, Z.mod_1_r. tauto.
  - simpl Nat.iter.
    set (mrs' := Nat.iter k shr_1 mrs) in *.
    assert (HP : 0 < 2 ^ Z.of_nat k) by (apply Z.pow_pos_nonneg; lia).
    assert (Hm' : 0 <= shr_m mrs') by (rewrite IHm; apply Z.div_pos; lia).
    destruct (shr_1_spec mrs' Hm') as [H1 E1].
    rewrite H1, E1, IHe, IHm.
    replace (2 ^ Z.of_nat (S k)) with (2 ^ Z.of_nat k * 2)
      by (rewrite Nat2Z.inj_succ, Z.pow_succ_r by lia; lia).
    set (P := 2 ^ Z.of_nat k) in *. set (m := shr_m mrs) in *.
    rewrite Z.div_div by lia. split; [reflexivity |].
    pose proof (Z.div_mod m P ltac:(lia)) as D1.
    pose proof (Z.mod_pos_bound m P ltac:(lia)) as B1.
    pose proof (Z.div_mod (m / P) 2 ltac:(lia)) as D2.
    pose proof (Z.mod_pos_bound (m / P) 2 ltac:(lia)) as B2.
    pose proof (Z.div_mod m (P * 2) ltac:(lia)) as D3.
    pose proof (Z.mod_pos_bound m (P * 2) ltac:(lia)) as B3.
    assert (Hq : m / (P * 2) = m / P / 2) by (rewrite Z.div_div by lia; reflexivity).
    split.
    + intros ((He & M1) & M2). split; [exact He |]. nia.
    + intros (He & M). split; [split; [exact He |] |]; nia.
Qed.

Lemma iter_pos_shr_1 n mrs :
  0 <= shr_m mrs ->
  shr_m (SpecFloat.iter_pos shr_1 n mrs) = shr_m mrs / 2 ^ Z.pos n
  /\ (lossless (SpecFloat.iter_pos shr_1 n mrs) <-> lossless mrs /\ shr_m mrs mod 2 ^ Z.pos n = 0).
Proof.
  intros Hm. rewrite iter_pos_nat, <- (positive_nat_Z n). apply iter_shr_1, Hm.
Qed.

Lemma shr_record_of_loc_m m l : shr_m (shr_record_of_loc m l) = m.
Proof. destruct l as [| []]; reflexivity. Qed.

Lemma shr_record_of_loc_lossless m l : lossless (shr_record_of_loc m l) <-> l = loc_Exact.
Proof. destruct l as [| []]; unfold lossless; simpl; intuition congruence. Qed.

Lemma fexp_eq x : fexp prec emax x = Z.max (x - 53) (-1074).
Proof. reflexivity. Qed.

Lemma shr_fexp_spec m e l :
  0 <= m ->
  let e' := Z.max e (fexp prec emax (Zdigits2 m + e)) in
  exists mrs',
    shr_fexp prec emax m e l = (mrs', e')
    /\ shr_m mrs' = m / 2 ^ (e' - e)
    /\ (lossless mrs' <-> l = loc_Exact /\ m mod 2 ^ (e' - e) = 0).
Proof.
  intros Hm e'. unfold shr_fexp, shr.
  set (n := fexp prec emax (Zdigits2 m + e) - e).
  assert (He' : e' - e = Z.max 0 n) by (unfold e', n; lia).
  rewrite He'.
  destruct n as [| p | p] eqn:En.
  - exists (shr_record_of_loc m l). split; [f_equal; lia |].
    simpl. rewrite Z.div_1_r, Z.mod_1_r, shr_record_of_loc_m, shr_record_of_loc_lossless. tauto.
  - exists (SpecFloat.iter_pos shr_1 p (shr_record_of_loc m l)).
    split; [f_equal; lia |].
    replace (Z.max 0 (Z.pos p)) with (Z.pos p) by lia.
    destruct (iter_pos_shr_1 p (shr_record_of_loc m l)) as [H1 H2].
    { rewrite shr_record_of_loc_m. exact Hm. }
    rewrite shr_record_of_loc_m, shr_record_of_loc_lossless in *. split; assumption.
  - exists (shr_record_of_loc m l). split; [f_equal; lia |].
    replace (Z.max 0 (Z.neg p)) with 0 by lia.
    simpl. rewrite Z.div_1_r, Z.mod_1_r, shr_record_of_loc_m, shr_record_of_loc_lossless. tauto.
Qed.

Lemma round_nearest_even_bounds m l :
  m <= round_nearest_even m l <= m + 1
  /\ (l = loc_Exact -> round_nearest_even m l = m).
Proof.
  destruct l as [| []]; simpl; try (split; [lia | congruence || auto]).
  destruct (Z.even m); split; lia || congruence.
Qed.

Lemma pow2_split a b : 0 <= a -> 0 <= b -> 2 ^ (a + b) = 2 ^ a * 2 ^ b.
Proof. intros. apply Z.pow_add_r; assumption. Qed.

(** The rounding of a value that does not exceed [b * 2^eb], a double,
    does not exceed it either. *)
Lemma binary_round_aux_le m e l b eb :
  0 <= m -> 0 < b < 2 ^ 53 -> e <= eb -> -1074 <= eb <= 971 ->
  m <= b * 2 ^ (eb - e) ->
  (l <> loc_Exact -> m < b * 2 ^ (eb - e)) ->
  binary_round_aux prec emax false m e l = S754_zero false
  \/ exists m'' e'',
       binary_round_aux prec emax false m e l = S754_finite false m'' e''
       /\ e'' <= eb /\ Z.pos m'' <= b * 2 ^ (eb - e'').
Proof.
  intros Hm Hb He Heb Hle Hstrict.
  unfold binary_round_aux.
  destruct (shr_fexp_spec m e l Hm) as (mrs' & -> & Hm' & Hex').
  set (e' := Z.max e (fexp prec emax (Zdigits2 m + e))) in *.
  assert (Hd : Zdigits2 m <= Zdigits2 b + (eb - e)) by (apply Zdigits2_le; lia).
  assert (Hdb : Zdigits2 b <= 53).
  { rewrite Zdigits2_log2 by lia.
    assert (Z.log2 b < 53) by (apply Z.log2_lt_pow2; lia). lia. }
  assert (He' : e <= e' <= eb) by (unfold e'; rewrite fexp_eq; lia).
  set (P := 2 ^ (e' - e)) in *.
  assert (HP : 0 < P) by (apply Z.pow_pos_nonneg; lia).
  set (B' := b * 2 ^ (eb - e')).
  assert (HB : b * 2 ^ (eb - e) = B' * P).
  { unfold B', P. rewrite <- Z.mul_assoc, <- pow2_split by lia. do 2 f_equal. lia. }
  assert (HB' : 0 < B') by (apply Z.mul_pos_pos; [lia | apply Z.pow_pos_nonneg; lia]).
  set (m1 := round_nearest_even (shr_m mrs') (loc_of_shr_record mrs')).
  assert (Hm1 : 0 <= m1 <= B').
  { destruct (round_nearest_even_bounds (shr_m mrs') (loc_of_shr_record mrs')) as [Hr1 Hr2].
    fold m1 in Hr1, Hr2.
    pose proof (Z.div_mod m P ltac:(lia)) as D. pose proof (Z.mod_pos_bound m P HP) as Bd.
    assert (0 <= m / P) by (apply Z.div_pos; lia).
    rewrite Hm' in Hr1, Hr2. split; [lia |].
    destruct (Z.eq_dec (m / P) B') as [Heq | Hne].
    - assert (Hmeq : m = B' * P) by nia.
      assert (l = loc_Exact).
      { destruct l as [| c]; [reflexivity |]. exfalso.
        assert (m < b * 2 ^ (eb - e)) by (apply Hstrict; discriminate). lia. }
      rewrite Hr2; [lia |]. apply lossless_loc, Hex'. split; [assumption |].
      rewrite Hmeq. apply Z.mod_mul. lia.
    - assert (m / P <= B') by (apply Z.div_le_upper_bound; lia). lia. }
  destruct (shr_fexp_spec m1 e' loc_Exact (proj1 Hm1)) as (mrs'' & -> & Hm'' & _).
  set (e'' := Z.max e' (fexp prec emax (Zdigits2 m1 + e'))) in *.
  assert (Hd1 : Zdigits2 m1 <= Zdigits2 b + (eb - e')) by (apply Zdigits2_le; unfold B' in *; lia).
  assert (He'' : e' <= e'' <= eb) by (unfold e''; rewrite fexp_eq; lia).
  set (P' := 2 ^ (e'' - e')) in *.
  assert (HP' : 0 < P') by (apply Z.pow_pos_nonneg; lia).
  assert (HB2 : B' = b * 2 ^ (eb - e'') * P').
  { unfold B', P'. rewrite <- Z.mul_assoc, <- pow2_split by lia. do 2 f_equal. lia. }
  assert (Hm2 : 0 <= shr_m mrs'' <= b * 2 ^ (eb - e'')).
  { rewrite Hm''. split; [apply Z.div_pos; lia |].
    apply Z.div_le_upper_bound; [lia |]. rewrite Z.mul_comm. lia. }
  destruct (shr_m mrs'') as [| p | p] eqn:E; [left; reflexivity | | lia].
  right. exists p, e''.
  replace (e'' <=? emax - prec) with true by (symmetry; apply Z.leb_le; unfold emax, prec; lia).
  split; [reflexivity |]. split; lia.
Qed.

Lemma Pos_iter_xO m k : Z.pos (Pos.iter xO m k) = Z.pos m * 2 ^ Z.pos k.
Proof.
  rewrite Pos2Nat.inj_iter, <- (positive_nat_Z k).
  induction (Pos.to_nat k) as [| n IH]; [simpl; lia |].
  rewrite Nat2Z.inj_succ, Z.pow_succ_r by lia.
  cbn [Nat.iter nat_rect] in *. rewrite Pos2Z.inj_xO, IH. lia.
Qed.

(** A rounding that loses no bit. *)
Lemma binary_round_aux_exact m e :
  0 < m -> fexp prec emax (Zdigits2 m + e) <= e -> e <= 971 ->
  binary_round_aux prec emax false m e loc_Exact = S754_finite false (Z.to_pos m) e.
Proof.
  intros Hm Hf He. unfold binary_round_aux.
  destruct (shr_fexp_spec m e loc_Exact ltac:(lia)) as (mrs' & -> & Hm' & Hex').
  replace (Z.max e (fexp prec emax (Zdigits2 m + e))) with e in * by lia.
  rewrite Z.sub_diag in *. simpl in Hm', Hex'. rewrite Z.div_1_r in Hm'.
  rewrite Z.mod_1_r in Hex'.
  assert (Hl : loc_of_shr_record mrs' = loc_Exact) by (apply lossless_loc, Hex'; tauto).
  rewrite Hl, Hm'. simpl round_nearest_even.
  destruct (shr_fexp_spec m e loc_Exact ltac:(lia)) as (mrs'' & -> & Hm'' & _).
  replace (Z.max e (fexp prec emax (Zdigits2 m + e))) with e in * by lia.
  rewrite Z.sub_diag in *. simpl in Hm''. rewrite Z.div_1_r in Hm''.
  rewrite Hm''. destruct m as [| p | p]; try lia.
  replace (e <=? emax - prec) with true by (symmetry; apply Z.leb_le; unfold emax, prec; lia).
  reflexivity.
Qed.

(** An integer below [2^53] is a double. *)
Lemma num_of_Z_exact n :
  0 < n < 2 ^ 53 ->
  exists m e,
    num_of_Z n = S754_finite false m e
    /\ e = Zdigits2 n - 53
    /\ Z.pos m = n * 2 ^ (- e).
Proof.
  intros Hn. destruct n as [| p | p]; try lia.
  unfold num_of_Z, binary_normalize, binary_round, shl_align.
  assert (Hd : 1 <= Zdigits2 (Z.pos p) <= 53).
  { rewrite Zdigits2_log2 by lia. pose proof (Z.log2_nonneg (Z.pos p)).
    assert (Z.log2 (Z.pos p) < 53) by (apply Z.log2_lt_pow2; lia). lia. }
  change (Z.pos (digits2_pos p)) with (Zdigits2 (Z.pos p)).
  rewrite Z.add_0_r, fexp_eq, Z.sub_0_r.
  replace (Z.max (Zdigits2 (Z.pos p) - 53) (-1074)) with (Zdigits2 (Z.pos p) - 53) by lia.
  destruct (Zdigits2 (Z.pos p) - 53) as [| k | k] eqn:Ek; try lia.
  - exists p, 0. rewrite binary_round_aux_exact; [| lia | rewrite fexp_eq; lia | lia].
    split; [reflexivity |]. split; [reflexivity |]. simpl. lia.
  - exists (Pos.iter xO p k), (Z.neg k).
    assert (Hv : Z.pos (Pos.iter xO p k) = Z.pos p * 2 ^ Z.pos k) by apply Pos_iter_xO.
    rewrite binary_round_aux_exact; [| lia | | lia].
    + split; [reflexivity |]. split; [reflexivity |]. exact Hv.
    + rewrite fexp_eq, Hv, Zdigits2_log2, Z.log2_mul_pow2 by (try apply Z.mul_pos_pos; try apply Z.pow_pos_nonneg; lia).
      rewrite Zdigits2_log2 in Ek, Hd by lia. lia.
Qed.

Lemma new_location_exact nb k : new_location nb k <> loc_Exact -> k <> 0.
Proof.
  unfold new_location, new_location_even, new_location_odd. intros H ->.
  apply H. destruct (Z.even nb); reflexivity.
Qed.

(** The quotient of two integers below [2^53], the first not above the
    second, is zero or a double not above 1. *)
Lemma num_div_le_1 c t :
  0 < c <= t -> t < 2 ^ 53 ->
  num_div (num_of_Z c) (num_of_Z t) = S754_zero false
  \/ exists m e,
       num_div (num_of_Z c) (num_of_Z t) = S754_finite false m e
       /\ e <= 0 /\ Z.pos m <= 2 ^ (- e).
Proof.
  intros Hc Ht.
  destruct (num_of_Z_exact c ltac:(lia)) as (mx & ex & -> & Hex & Hmx).
  destruct (num_of_Z_exact t ltac:(lia)) as (my & ey & -> & Hey & Hmy).
  assert (Hdc : 1 <= Zdigits2 c <= Zdigits2 t).
  { rewrite !Zdigits2_log2 by lia. pose proof (Z.log2_nonneg c).
    assert (Z.log2 c <= Z.log2 t) by (apply Z.log2_le_mono; lia). lia. }
  assert (Hdt : Zdigits2 t <= 53).
  { rewrite Zdigits2_log2 by lia.
    assert (Z.log2 t < 53) by (apply Z.log2_lt_pow2; lia). lia. }
  assert (Hdx : Zdigits2 (Z.pos mx) = 53).
  { rewrite Hmx, Zdigits2_log2, Z.log2_mul_pow2 by (try apply Z.mul_pos_pos; try apply Z.pow_pos_nonneg; lia).
    rewrite Zdigits2_log2 in Hex by lia. lia. }
  assert (Hdy : Zdigits2 (Z.pos my) = 53).
  { rewrite Hmy, Zdigits2_log2, Z.log2_mul_pow2 by (try apply Z.mul_pos_pos; try apply Z.pow_pos_nonneg; lia).
    rewrite Zdigits2_log2 in Hey by lia. lia. }
  unfold num_div, SFdiv, SFdiv_core_binary.
  rewrite Hdx, Hdy, fexp_eq.
  replace (Z.min (Z.max (53 + ex - (53 + ey) - 53) (-1074)) (ex - ey)) with (ex - ey - 53) by lia.
  replace (ex - ey - (ex - ey - 53)) with 53 by lia.
  rewrite Z.shiftl_mul_pow2 by lia.
  pose proof (Z.div_eucl_eq (Z.pos mx * 2 ^ 53) (Z.pos my) ltac:(lia)) as Hdiv.
  pose proof (Z.mod_pos_bound (Z.pos mx * 2 ^ 53) (Z.pos my) ltac:(lia)) as Hmod.
  unfold Z.modulo in Hmod.
  assert (Hq0 : 0 <= Z.pos mx * 2 ^ 53 / Z.pos my) by (apply Z.div_pos; lia).
  unfold Z.div in Hq0.
  destruct (Z.div_eucl (Z.pos mx * 2 ^ 53) (Z.pos my)) as [q r].
  cbn [xorb].
  assert (Hbound : Z.pos mx * 2 ^ 53 <= Z.pos my * 2 ^ (ey - ex + 53)).
  { rewrite Hmx, Hmy, <- !Z.mul_assoc, <- !pow2_split by lia.
    replace (- ey + (ey - ex + 53)) with (- ex + 53) by lia.
    apply Z.mul_le_mono_nonneg_r; [apply Z.pow_nonneg |]; lia. }
  assert (HP : 0 < 2 ^ (ey - ex + 53)) by (apply Z.pow_pos_nonneg; lia).
  destruct (binary_round_aux_le q (ex - ey - 53) (new_location (Z.pos my) r) 1 0)
    as [H | (m & e & H & He & Hm)]; try lia.
  - replace (0 - (ex - ey - 53)) with (ey - ex + 53) by lia. nia.
  - intros Hl%new_location_exact.
    replace (0 - (ex - ey - 53)) with (ey - ex + 53) by lia. nia.
  - left. exact H.
  - right. exists m, e. split; [exact H |]. split; [exact He |].
    replace (0 - e) with (- e) in Hm by lia. lia.
Qed.

Lemma scaled_le m e b :
  e <= 0 -> Z.pos m <= b * 2 ^ (- e) ->
  (0 <= inject_Z (Z.pos m) * 2 ^ e)%Q /\ (inject_Z (Z.pos m) * 2 ^ e <= inject_Z b)%Q.
Proof.
  intros He Hm.
  assert (HP : 0 < 2 ^ (- e)) by (apply Z.pow_pos_nonneg; lia).
  assert (Hpow : (2 ^ e == / inject_Z (2 ^ (- e)))%Q).
  { rewrite Zpower_Qpower by lia. rewrite <- Qpower_opp.
    replace (- - e) with e by lia. reflexivity. }
  rewrite Hpow. split.
  - apply Qmult_le_0_compat.
    + change 0%Q with (inject_Z 0). rewrite <- Zle_Qle. lia.
    + apply Qinv_le_0_compat. change 0%Q with (inject_Z 0). rewrite <- Zle_Qle. lia.
  - apply Qle_shift_div_r.
    + change 0%Q with (inject_Z 0). rewrite <- Zlt_Qlt. lia.
    + rewrite <- inject_Z_mult, <- Zle_Qle. exact Hm.
Qed.

Lemma num_of_Z_100 : num_of_Z 100 = S754_finite false 7036874417766400 (-46).
Proof. reflexivity. Qed.

(** [(c / t) * 100] in doubles lies between 0 and 100. *)
Lemma rate_bounds c t :
  0 <= c <= t -> 0 < t < 2 ^ 53 ->
  exists v,
    num_value (num_mul (num_div (num_of_Z c) (num_of_Z t)) (num_of_Z 100)) = Some v
    /\ (0 <= v)%Q /\ (v <= 100)%Q.
Proof.
  intros Hc Ht.
  assert (Hzero : forall x, x = S754_zero false ->
            exists v, num_value (num_mul x (num_of_Z 100)) = Some v
                      /\ (0 <= v)%Q /\ (v <= 100)%Q).
  { intros x ->. exists 0%Q. split; [reflexivity |]. split; [apply Qle_refl | discriminate]. }
  destruct (Z.eq_dec c 0) as [-> | Hc0].
  - apply Hzero.
    destruct (num_of_Z_exact t ltac:(lia)) as (my & ey & -> & _). reflexivity.
  - destruct (num_div_le_1 c t ltac:(lia) ltac:(lia)) as [H | (m & e & H & He & Hm)];
      [apply Hzero, H |].
    rewrite H, num_of_Z_100. unfold num_mul, SFmul. cbn [xorb].
    destruct (binary_round_aux_le (Z.pos (m * 7036874417766400)) (e + -46) loc_Exact 100 0)
      as [H' | (m' & e' & H' & He' & Hm')]; try lia.
    + replace (0 - (e + -46)) with (- e + 46) by lia.
      rewrite pow2_split, Pos2Z.inj_mul by lia.
      change (2 ^ 46) with 70368744177664. lia.
    + congruence.
    + rewrite H'. exists 0%Q. split; [reflexivity |]. split; [apply Qle_refl | discriminate].
    + rewrite H'. eexists. split; [reflexivity |]. cbn [cond_Zopp].
      replace (0 - e') with (- e') in Hm' by lia.
      apply (scaled_le m' e' 100); assumption.
Qed.

(** ** Group by trainer and rate *)

Import TrainerCompletionChart.

Lemma completionRate_bounds (c : Counts) :
  (1 <= total c)%nat -> (completed c <= total c)%nat ->
  Z.of_nat (total c) < 2 ^ 53 ->
  exists v, num_value (completionRate c) = Some v /\ (0 <= v)%Q /\ (v <= 100)%Q.
Proof.
  intros Ht Hd Hlt. unfold completionRate. apply rate_bounds; lia.
Qed.

Section ChartFacts.

Variable Number_toString : number -> string.

Lemma reducer_lookup acc record k :
  let trainer := toPropertyKey Number_toString (logicalOr (get record "Trainer") (VString "Unknown")) in
  reducer Number_toString acc record !! k =
  if decide (trainer = k)
  then bump record <$>
         (if hasTruthy acc trainer then acc !! trainer
          else Some {| total := 0; completed := 0 |})
  else acc !! k.
Proof.
  intros trainer. unfold reducer. fold trainer.
  destruct (hasTruthy acc trainer) eqn:Ht; cbn [negb];
    destruct (decide (trainer = k)) as [<- | Hne].
  - destruct (strictEqualsString (get record "course_completion_status") "Completed") eqn:Hs;
      rewrite ?lookup_alter_eq; unfold bump; rewrite Hs;
      destruct (acc !! trainer); reflexivity.
  - destruct (strictEqualsString (get record "course_completion_status") "Completed");
      rewrite ?lookup_alter_ne by exact Hne; reflexivity.
  - destruct (strictEqualsString (get record "course_completion_status") "Completed") eqn:Hs;
      rewrite ?lookup_alter_eq, lookup_insert_eq; unfold bump; rewrite Hs; reflexivity.
  - destruct (strictEqualsString (get record "course_completion_status") "Completed");
      rewrite ?lookup_alter_ne by exact Hne; rewrite lookup_insert_ne by exact Hne;
      reflexivity.
Qed.

Lemma reducer_bucketsOk n acc record :
  bucketsOk n acc -> bucketsOk (S n) (reducer Number_toString acc record).
Proof.
  intros Hacc k c. rewrite reducer_lookup.
  destruct (decide (_ = k)) as [<- | Hne].
  - destruct (hasTruthy acc _).
    + destruct (acc !! _) as [c0 |] eqn:E; [| discriminate].
      intros [= <-]. destruct (Hacc _ _ E) as [H1 H2].
      unfold bump. cbn [total completed]. case_match; lia.
    + intros [= <-]. unfold bump. cbn [total completed]. case_match; lia.
  - intros E. destruct (Hacc _ _ E) as [H1 H2]. lia.
Qed.

Lemma fold_reducer_bucketsOk data n acc :
  bucketsOk n acc ->
  bucketsOk (n + length data) (fold_left (reducer Number_toString) data acc).
Proof.
  revert n acc. induction data as [| record data IH]; intros n acc Hacc; simpl.
  - rewrite Nat.add_0_r. exact Hacc.
  - rewrite <- Nat.add_succ_comm. apply IH, reducer_bucketsOk, Hacc.
Qed.

Lemma trainerData_bucketsOk data :
  bucketsOk (length data) (trainerData Number_toString data).
Proof.
  apply (fold_reducer_bucketsOk data 0).
  intros k c H. rewrite lookup_empty in H. discriminate.
Qed.

(** C8. Every row of the chart comes from a bucket of the group-by that
    counts at least one record and no more completions than records; its
    rate is [(completed / total) * 100] computed in doubles, a finite
    number between 0 and 100. (The input is an array, so it has fewer than
    [2^53] elements.) *)
Theorem chartData_bounds (data : list object) name rate :
  Z.of_nat (length data) < 2 ^ 53 ->
  (name, rate) ∈ chartData Number_toString data ->
  exists c,
    trainerData Number_toString data !! name = Some c
    /\ (1 <= total c)%nat
    /\ (completed c <= total c)%nat
    /\ rate = completionRate c
    /\ exists v, num_value rate = Some v /\ (0 <= v)%Q /\ (v <= 100)%Q.
Proof.
  unfold chartData. intros Hlen H.
  apply elem_of_map_to_list in H. rewrite lookup_fmap in H.
  destruct (trainerData Number_toString data !! name) as [c |] eqn:E; [| discriminate].
  injection H as <-.
  destruct (trainerData_bucketsOk data name c E) as [H1 H2].
  exists c. split; [reflexivity |]. split; [lia |]. split; [exact H2 |].
  split; [reflexivity |].
  apply completionRate_bounds; lia.
Qed.

End ChartFacts.

Example trainerData_sample :
  trainerData Sample.noNumbers Sample.enrolments !! "T. Iyer"
  = Some {| total := 3; completed := 2 |}.
Proof. vm_compute. reflexivity. Qed.

(** Records whose trainer is named like an inherited member of the
    accumulator are counted in no bucket. *)
Example trainerData_inherited_key :
  trainerData Sample.noNumbers [Sample.trained "E1" "constructor" "Completed"] = ∅.
Proof. vm_compute. reflexivity. Qed.

Lemma chartData_bounds_witness :
  exists v,
    num_value (completionRate {| total := 3; completed := 2 |}) = Some v
    /\ (0 <= v)%Q /\ (v <= 100)%Q.
Proof.
  destruct (chartData_bounds Sample.noNumbers Sample.enrolments "T. Iyer"
              (completionRate {| total := 3; completed := 2 |}))
    as (c & Hc & _ & _ & Hr & Hv).
  - vm_compute. reflexivity.
  - apply elem_of_map_to_list. vm_compute. reflexivity.
  - exact Hv.
Defined.

(** ** The summary cards and the rollup *)

Lemma filter_all_in {A : Type} (f : A -> bool) (l : list A) :
  (forall x, x ∈ l -> f x = true) -> List.filter f l = l.
Proof.
  induction l as [| x l IH]; intros Hf; simpl; [reflexivity |].
  rewrite Hf by left. rewrite IH; [reflexivity |].
  intros y Hy. apply Hf. right. exact Hy.
Qed.

Lemma Set_from_snoc arr v : Set_from (arr ++ [v]) = Set_add (Set_from arr) v.
Proof. unfold Set_from. rewrite fold_left_app. reflexivity. Qed.

Lemma employeeMap_snoc data item :
  employeeMap (data ++ [item]) = rollupStep (employeeMap data) item.
Proof. unfold employeeMap. rewrite fold_left_app. reflexivity. Qed.

Lemma employeeMap_keys (data : list object) :
  map fst (employeeMap data)
  = Set_from (map (fun item => get item "employee_code") data).
Proof.
  induction data as [| item data IH] using rev_ind; [reflexivity |].
  rewrite employeeMap_snoc, rollupStep_keys, map_app. cbn [map].
  rewrite Set_from_snoc, <- IH. unfold Set_add.
  destruct (Map_get (employeeMap data) (get item "employee_code")) as [emp |] eqn:E.
  - rewrite decide_True; [reflexivity |].
    destruct (decide (mapKey (get item "employee_code") ∈ map fst (employeeMap data)))
      as [Hin | Hnin]; [exact Hin |].
    apply Map_get_None in Hnin. congruence.
  - rewrite decide_False; [reflexivity |]. apply Map_get_None, E.
Qed.

Lemma employeeMap_entry (data : list object) k emp :
  (k, emp) ∈ employeeMap data ->
  mapKey k = k /\ Map_get (employeeMap data) k = Some emp /\ entryOk data k emp.
Proof.
  destruct (rollupInv_employeeMap data) as (Hnd & Hnorm & Hok & _).
  intros Hin.
  assert (Hk : mapKey k = k).
  { apply Hnorm, list_elem_of_fmap. exists (k, emp). split; [reflexivity | exact Hin]. }
  assert (Hget : Map_get (employeeMap data) k = Some emp).
  { apply Map_get_elem; [exact Hnd |]. rewrite Hk. exact Hin. }
  split; [exact Hk |]. split; [exact Hget |].
  rewrite <- Hk at 1. apply Hok, Hget.
Qed.

Lemma employeeCompletionRates_codes (data : list object) :
  map (fun emp => mapKey (employee_code emp)) (employeeCompletionRates data)
  = map fst (employeeMap data).
Proof.
  unfold employeeCompletionRates, Map_values. rewrite map_map.
  apply map_ext_in. intros [k emp] Hin. simpl.
  apply list_elem_of_In, employeeMap_entry in Hin. destruct Hin as (_ & _ & Hc & _).
  exact Hc.
Qed.

(** X1. The employee codes of the rollup, in its order, are the distinct
    codes of the records in order of first appearance, which is the set
    that the "total employees" card counts: the card shows the number of
    rollup entries. *)
Theorem totalEmployees_is_rollup_length (data : list object) :
  map (fun emp => mapKey (employee_code emp)) (employeeCompletionRates data)
  = Set_from (map (fun item => get item "employee_code") data)
  /\ totalEmployees data = length (employeeCompletionRates data).
Proof.
  assert (H : map (fun emp => mapKey (employee_code emp)) (employeeCompletionRates data)
              = Set_from (map (fun item => get item "employee_code") data)).
  { rewrite employeeCompletionRates_codes. apply employeeMap_keys. }
  split; [exact H |].
  unfold totalEmployees. rewrite <- H, length_map. reflexivity.
Qed.

Lemma totalCourses_sum (employees : list EmployeeRollup) :
  totalCourses employees = sum_list (map total_courses employees).
Proof.
  unfold totalCourses.
  assert (H : forall n, fold_left (fun sum emp => (sum + total_courses emp)%nat) employees n
                        = (n + sum_list (map total_courses employees))%nat).
  { induction employees as [| emp l IH]; intros n; simpl; [lia |]. rewrite IH. lia. }
  apply H.
Qed.

(** The records of the employees [codes], each code counted once. *)
Lemma recordsOf_sum (codes : list value) (data : list object) :
  NoDup codes ->
  sum_list (map (fun code => length (recordsOf code data)) codes)
  = length (List.filter
              (fun item => bool_decide (mapKey (get item "employee_code") ∈ codes)) data).
Proof.
  intros Hnd. induction data as [| item data IH].
  - simpl. induction codes as [| c codes IHc]; [reflexivity |].
    simpl. apply IHc. apply NoDup_cons in Hnd. tauto.
  - cbn [List.filter]. set (key := mapKey (get item "employee_code")).
    assert (Hstep : sum_list (map (fun code => length (recordsOf code (item :: data))) codes)
                    = ((if bool_decide (key ∈ codes) then 1 else 0)
                       + sum_list (map (fun code => length (recordsOf code data)) codes))%nat).
    { clear IH. induction codes as [| c codes IHc]; [reflexivity |].
      apply NoDup_cons in Hnd as [Hc Hnd]. cbn [map sum_list]. rewrite (IHc Hnd).
      unfold recordsOf at 1. cbn [List.filter]. fold key. fold (recordsOf c data).
      destruct (decide (key = c)) as [-> | Hne].
      - rewrite bool_decide_eq_true_2 by reflexivity.
        rewrite (bool_decide_eq_true_2 (c ∈ c :: codes)) by left.
        rewrite (bool_decide_eq_false_2 (c ∈ codes)) by exact Hc.
        cbn [length]. unfold id. lia.
      - rewrite bool_decide_eq_false_2 by exact Hne.
        destruct (decide (key ∈ codes)) as [Hin | Hnin].
        + rewrite (bool_decide_eq_true_2 (key ∈ codes)) by exact Hin.
          rewrite (bool_decide_eq_true_2 (key ∈ c :: codes)) by (right; exact Hin).
          unfold id. lia.
        + rewrite (bool_decide_eq_false_2 (key ∈ codes)) by exact Hnin.
          rewrite (bool_decide_eq_false_2 (key ∈ c :: codes))
            by (rewrite not_elem_of_cons; split; assumption).
          unfold id. lia. }
    rewrite Hstep, IH. destruct (bool_decide (key ∈ codes)); reflexivity.
Qed.

(** X2. Every record is counted for exactly one employee: the course
    totals of the rollup add up to the number of records, the figure of
    the "total enrolments" card. *)
Theorem totalCourses_is_totalEnrollments (data : list object) :
  totalCourses (employeeCompletionRates data) = totalEnrollments data.
Proof.
  destruct (rollupInv_employeeMap data) as (Hnd & _ & _ & Hall).
  rewrite totalCourses_sum. unfold totalEnrollments.
  assert (Htot : map total_courses (employeeCompletionRates data)
                 = map (fun code => length (recordsOf code data))
                     (map fst (employeeMap data))).
  { unfold employeeCompletionRates, Map_values. rewrite !map_map.
    apply map_ext_in. intros [k emp] Hin. simpl.
    apply list_elem_of_In, employeeMap_entry in Hin.
    destruct Hin as (_ & _ & _ & Ht & _). exact Ht. }
  rewrite Htot, recordsOf_sum by exact Hnd.
  f_equal. apply filter_all_in. intros item Hin.
  apply bool_decide_eq_true.
  destruct (decide (mapKey (get item "employee_code") ∈ map fst (employeeMap data)))
    as [Hk | Hk]; [exact Hk |].
  apply Map_get_None in Hk. exfalso. exact (Hall item Hin Hk).
Qed.

Lemma entryDetails_other data item code emp :
  mapKey (get item "employee_code") <> code ->
  entryDetails data code emp -> entryDetails (data ++ [item]) code emp.
Proof.
  intros Hne (first & rest & Hr & H). exists first, rest.
  rewrite recordsOf_snoc, bool_decide_eq_false_2, app_nil_r by exact Hne.
  split; assumption.
Qed.

Lemma entryDetails_add data item emp :
  entryDetails data (mapKey (get item "employee_code")) emp ->
  entryDetails (data ++ [item]) (mapKey (get item "employee_code")) (addCourse item emp).
Proof.
  intros (first & rest & Hr & Hc & Hn & Hd & Hl).
  exists first, (rest ++ [item])%list.
  rewrite recordsOf_snoc, bool_decide_eq_true_2, Hr by reflexivity.
  cbn [addCourse employee_code employee_name designation courses].
  repeat (split; [assumption || reflexivity |]).
  rewrite Hl. change (?x :: ?l ++ ?r)%list with ((x :: l) ++ r)%list.
  rewrite map_app. reflexivity.
Qed.

Lemma entryDetails_new data item :
  recordsOf (mapKey (get item "employee_code")) data = [] ->
  entryDetails (data ++ [item]) (mapKey (get item "employee_code"))
    (addCourse item (newEmployee item)).
Proof.
  intros Hnil. exists item, [].
  rewrite recordsOf_snoc, bool_decide_eq_true_2, Hnil by reflexivity.
  repeat (split; [reflexivity |]). reflexivity.
Qed.

Lemma employeeMap_details (data : list object) k emp :
  Map_get (employeeMap data) k = Some emp -> entryDetails data (mapKey k) emp.
Proof.
  revert k emp. induction data as [| item data IH] using rev_ind; intros k emp.
  - discriminate.
  - rewrite employeeMap_snoc, rollupStep_get.
    destruct (decide (mapKey (get item "employee_code") = mapKey k)) as [Heq | Hne].
    + intros [= <-]. rewrite <- Heq.
      destruct (Map_get (employeeMap data) (get item "employee_code")) as [emp0 |] eqn:E;
        cbn [default].
      * apply entryDetails_add, IH, E.
      * apply entryDetails_new, recordsOf_nil.
        destruct (rollupInv_employeeMap data) as (_ & _ & _ & Hall).
        intros x Hx Hkey. apply (Hall x Hx). apply Map_get_None. rewrite Hkey.
        apply Map_get_None, E.
    + intros E. apply entryDetails_other; [exact Hne | apply IH, E].
Qed.

(** X3. The rollup entry of an employee carries the code, the name and
    the designation of the employee's first record (later records do not
    change them), and one course entry for each of the employee's records,
    in the order of the records. *)
Theorem employeeCompletionRates_details (data : list object) emp :
  emp ∈ employeeCompletionRates data ->
  entryDetails data (mapKey (employee_code emp)) emp.
Proof.
  unfold employeeCompletionRates, Map_values.
  intros Hin. apply list_elem_of_fmap in Hin as ([k emp'] & -> & Hin). simpl.
  destruct (employeeMap_entry data k emp' Hin) as (Hk & Hget & Hc & _).
  rewrite Hc, <- Hk. apply employeeMap_details, Hget.
Qed.

Lemma employeeCompletionRates_details_witness :
  exists emp,
    emp ∈ employeeCompletionRates Sample.enrolments
    /\ courses emp = map courseStatusOf
                       [ Sample.trained "E1" "T. Iyer" "Completed";
                         Sample.trained "E1" "T. Iyer" "Not Completed" ].
Proof.
  assert (Hin : exists emp, emp ∈ employeeCompletionRates Sample.enrolments
                            /\ mapKey (employee_code emp) = VString "E1").
  { eexists. split; [vm_compute; apply list_elem_of_here | reflexivity]. }
  destruct Hin as (emp & Hin & Hcode).
  exists emp. split; [exact Hin |].
  destruct (employeeCompletionRates_details Sample.enrolments emp Hin)
    as (first & rest & Hr & _ & _ & _ & Hl).
  rewrite Hcode in Hr. rewrite Hl, <- Hr. reflexivity.
Defined.

(** ** The rounded rate and the performance tiers *)

Lemma binary_round_aux_not_nan s m e l :
  0 <= m -> binary_round_aux prec emax s m e l <> S754_nan.
Proof.
  intros Hm. unfold binary_round_aux.
  destruct (shr_fexp_spec m e l Hm) as (mrs' & -> & Hm' & _).
  set (e' := Z.max e (fexp prec emax (Zdigits2 m + e))) in *.
  assert (H1 : 0 <= shr_m mrs').
  { rewrite Hm'. apply Z.div_pos; [lia | apply Z.pow_pos_nonneg; unfold e'; lia]. }
  destruct (round_nearest_even_bounds (shr_m mrs') (loc_of_shr_record mrs')) as [Hr _].
  set (m1 := round_nearest_even (shr_m mrs') (loc_of_shr_record mrs')) in *.
  destruct (shr_fexp_spec m1 e' loc_Exact ltac:(lia)) as (mrs'' & -> & Hm'' & _).
  assert (H2 : 0 <= shr_m mrs'').
  { rewrite Hm''. apply Z.div_pos; [lia | apply Z.pow_pos_nonneg; lia]. }
  destruct (shr_m mrs'') as [| p | p]; [discriminate | | lia].
  destruct (_ <=? _); discriminate.
Qed.

(** [(c / t) * 100] in doubles is [+0] or a positive double of value at
    most 100. *)
Lemma rate_form c t :
  0 <= c <= t -> 0 < t < 2 ^ 53 ->
  let x := num_mul (num_div (num_of_Z c) (num_of_Z t)) (num_of_Z 100) in
  x = S754_zero false
  \/ exists m e, x = S754_finite false m e /\ e <= 0 /\ Z.pos m <= 100 * 2 ^ (- e).
Proof.
  intros Hc Ht x. subst x.
  destruct (Z.eq_dec c 0) as [-> | Hc0].
  - left. destruct (num_of_Z_exact t ltac:(lia)) as (my & ey & -> & _). reflexivity.
  - destruct (num_div_le_1 c t ltac:(lia) ltac:(lia)) as [H | (m & e & H & He & Hm)].
    + left. rewrite H. reflexivity.
    + rewrite H, num_of_Z_100. unfold num_mul, SFmul. cbn [xorb].
      destruct (binary_round_aux_le (Z.pos (m * 7036874417766400)) (e + -46) loc_Exact 100 0)
        as [H' | (m' & e' & H' & He' & Hm')]; try lia.
      * replace (0 - (e + -46)) with (- e + 46) by lia.
        rewrite pow2_split, Pos2Z.inj_mul by lia.
        change (2 ^ 46) with 70368744177664. lia.
      * congruence.
      * left. exact H'.
      * right. exists m', e'. split; [exact H' |]. split; [exact He' |].
        replace (0 - e') with (- e') in Hm' by lia. exact Hm'.
Qed.

Lemma num_of_Z_value n :
  0 <= n < 2 ^ 53 ->
  exists v, num_value (num_of_Z n) = Some v /\ (v == inject_Z n)%Q.
Proof.
  intros Hn. destruct (Z.eq_dec n 0) as [-> | Hn0].
  - exists 0%Q. split; reflexivity.
  - destruct (num_of_Z_exact n ltac:(lia)) as (m & e & -> & He & Hm).
    assert (Hd : Zdigits2 n <= 53).
    { rewrite Zdigits2_log2 by lia.
      assert (Z.log2 n < 53) by (apply Z.log2_lt_pow2; lia). lia. }
    eexists. split; [reflexivity |]. cbn [cond_Zopp].
    rewrite Hm, inject_Z_mult, Zpower_Qpower by lia.
    rewrite <- Qmult_assoc, <- Qpower_plus by discriminate.
    replace (- e + e) with 0 by lia. apply Qmult_1_r.
Qed.

(** [Math.round] of such a rate is an integer between 0 and 100. *)
Lemma Math_round_rate x :
  x = S754_zero false
  \/ (exists m e, x = S754_finite false m e /\ e <= 0 /\ Z.pos m <= 100 * 2 ^ (- e)) ->
  exists k v,
    0 <= k <= 100 /\ num_value (Math_round x) = Some v /\ (v == inject_Z k)%Q.
Proof.
  intros [-> | (m & e & -> & He & Hm)].
  - exists 0, 0%Q. split; [lia |]. split; reflexivity.
  - unfold Math_round. destruct (0 <=? e) eqn:E.
    + apply Z.leb_le in E. assert (e = 0) by lia. subst e.
      exists (Z.pos m). eexists. split; [simpl in Hm; lia |].
      split; [reflexivity |]. cbn [cond_Zopp]. apply Qmult_1_r.
    + apply Z.leb_gt in E. cbn [cond_Zopp].
      set (P := 2 ^ (- e)) in *.
      assert (HP : 0 < P) by (apply Z.pow_pos_nonneg; lia).
      replace (2 ^ (- e + 1)) with (P * 2)
        by (unfold P; rewrite Z.pow_add_r by lia; reflexivity).
      set (r := (Z.pos m * 2 + P) / (P * 2)).
      assert (Hr : 0 <= r <= 100).
      { unfold r. split; [apply Z.div_pos; lia |].
        assert (r < 101); [| lia].
        unfold r. apply Z.div_lt_upper_bound; lia. }
      exists r.
      destruct (num_of_Z_value r) as (v & Hv & Hq); [lia |].
      exists v. split; [exact Hr |]. split; [exact Hv | exact Hq].
Qed.

Lemma roundedRate_integer (completed total : nat) :
  (1 <= total)%nat -> (completed <= total)%nat -> Z.of_nat total < 2 ^ 53 ->
  exists k v,
    0 <= k <= 100
    /\ num_value (roundedRate completed total) = Some v
    /\ (v == inject_Z k)%Q.
Proof.
  intros Ht Hc Hlt. unfold roundedRate.
  apply Math_round_rate. apply rate_form; lia.
Qed.

Lemma employeeCompletionRates_entryOk (data : list object) emp :
  emp ∈ employeeCompletionRates data ->
  entryOk data (mapKey (employee_code emp)) emp.
Proof.
  unfold employeeCompletionRates, Map_values.
  intros Hin. apply list_elem_of_fmap in Hin as ([k emp'] & -> & Hin). simpl.
  destruct (employeeMap_entry data k emp' Hin) as (_ & _ & Hok).
  destruct Hok as (Hc & H). rewrite Hc. split; [exact Hc | exact H].
Qed.

Lemma completion_rate_value (data : list object) emp :
  Z.of_nat (length data) < 2 ^ 53 ->
  emp ∈ employeeCompletionRates data ->
  exists k v,
    0 <= k <= 100
    /\ num_value (completion_rate emp) = Some v
    /\ (v == inject_Z k)%Q.
Proof.
  intros Hlen Hin.
  destruct (employeeCompletionRates_entryOk data emp Hin)
    as (_ & Ht & H1 & _ & Hc & _ & Hr).
  rewrite Hr. apply roundedRate_integer; [exact H1 | exact Hc |].
  pose proof (filter_length_bound
                (fun item => bool_decide (mapKey (get item "employee_code")
                                          = mapKey (employee_code emp))) data) as Hb.
  fold (recordsOf (mapKey (employee_code emp)) data) in Hb. lia.
Qed.

(** X4. The completion rate of every rollup entry is a finite number
    whose value is an integer between 0 and 100; it is never NaN. (The
    input is an array, so it has fewer than [2^53] elements.) *)
Theorem completion_rate_integer (data : list object) emp :
  Z.of_nat (length data) < 2 ^ 53 ->
  emp ∈ employeeCompletionRates data ->
  exists k v,
    0 <= k <= 100
    /\ num_value (completion_rate emp) = Some v
    /\ (v == inject_Z k)%Q.
Proof. apply completion_rate_value. Qed.

Lemma sample_rollup_entry :
  exists emp, emp ∈ employeeCompletionRates Sample.enrolments
              /\ mapKey (employee_code emp) = VString "E1".
Proof. eexists. split; [vm_compute; apply list_elem_of_here | reflexivity]. Qed.

Lemma completion_rate_integer_witness :
  exists emp k v,
    emp ∈ employeeCompletionRates Sample.enrolments
    /\ 0 <= k <= 100
    /\ num_value (completion_rate emp) = Some v
    /\ (v == inject_Z k)%Q.
Proof.
  destruct sample_rollup_entry as (emp & Hin & _).
  destruct (completion_rate_integer Sample.enrolments emp) as (k & v & H);
    [vm_compute; reflexivity | exact Hin |].
  exists emp, k, v. split; [exact Hin | exact H].
Defined.

(** *** Tiers *)

Lemma num_of_Z_80 : num_of_Z 80 = S754_finite false 5629499534213120 (-46).
Proof. reflexivity. Qed.

Lemma num_of_Z_60 : num_of_Z 60 = S754_finite false 8444249301319680 (-47).
Proof. reflexivity. Qed.

(** A number that is not NaN satisfies exactly one of [x >= 80],
    [x >= 60 && x < 80] and [x < 60]. *)
Lemma tier_exactly_one (x : number) :
  x <> S754_nan ->
  exactlyOne (num_geb x (num_of_Z 80))
             (num_geb x (num_of_Z 60) && num_ltb x (num_of_Z 80))
             (num_ltb x (num_of_Z 60)).
Proof.
  intros Hx. rewrite num_of_Z_80, num_of_Z_60. unfold exactlyOne, num_geb, num_ltb.
  destruct x as [s | s | | s m e];
    [destruct s; auto | destruct s; auto | congruence |].
  cbv beta iota delta [SFcompare].
  destruct s; [auto |].
  destruct (Z.compare_spec e (-46)) as [-> | H46 | H46].
  - change (-46 ?= -47) with Gt. cbv beta iota.
    destruct (Pos.compare_cont Eq m 5629499534213120); auto.
  - destruct (Z.compare_spec e (-47)) as [-> | H47 | H47]; [| auto | lia].
    destruct (Pos.compare_cont Eq m 8444249301319680); auto.
  - destruct (Z.compare_spec e (-47)) as [-> | H47 | H47]; [lia | lia | auto].
Qed.

Lemma filter_three_lengths {A : Type} (f g h : A -> bool) (l : list A) :
  (forall x, x ∈ l -> exactlyOne (f x) (g x) (h x)) ->
  (length (List.filter f l) + length (List.filter g l) + length (List.filter h l)
   = length l)%nat.
Proof.
  induction l as [| x l IH]; intros H; [reflexivity |].
  assert (IH' := IH (fun y Hy => H y (list_elem_of_further _ _ _ Hy))).
  cbn [List.filter].
  destruct (H x (list_elem_of_here _ _)) as [(E1 & E2 & E3) | [(E1 & E2 & E3) | (E1 & E2 & E3)]];
    rewrite E1, E2, E3; cbn [length]; lia.
Qed.

(** X5. The three performance tiers split the rollup: every entry is in
    exactly one of [highPerformers], [averagePerformers] and
    [needsAttention], and the three counts add up to the number of
    employees. *)
Theorem tiers_partition (data : list object) :
  Z.of_nat (length data) < 2 ^ 53 ->
  let rates := employeeCompletionRates data in
  (length (highPerformers rates) + length (averagePerformers rates)
   + length (needsAttention rates) = length rates)%nat
  /\ forall emp, emp ∈ rates ->
       ((emp ∈ highPerformers rates) /\ (emp ∉ averagePerformers rates)
        /\ (emp ∉ needsAttention rates))
       \/ ((emp ∉ highPerformers rates) /\ (emp ∈ averagePerformers rates)
           /\ (emp ∉ needsAttention rates))
       \/ ((emp ∉ highPerformers rates) /\ (emp ∉ averagePerformers rates)
           /\ (emp ∈ needsAttention rates)).
Proof.
  intros Hlen rates.
  assert (Hone : forall emp, emp ∈ rates ->
            exactlyOne (num_geb (completion_rate emp) (num_of_Z 80))
                       (num_geb (completion_rate emp) (num_of_Z 60)
                        && num_ltb (completion_rate emp) (num_of_Z 80))
                       (num_ltb (completion_rate emp) (num_of_Z 60))).
  { intros emp Hin. apply tier_exactly_one.
    destruct (completion_rate_value data emp Hlen Hin) as (k & v & _ & Hv & _).
    intros E. rewrite E in Hv. discriminate. }
  split.
  - unfold highPerformers, averagePerformers, needsAttention.
    apply filter_three_lengths. exact Hone.
  - intros emp Hin. unfold highPerformers, averagePerformers, needsAttention.
    rewrite !list_elem_of_In, !filter_In, <- !list_elem_of_In.
    destruct (Hone emp Hin) as [(E1 & E2 & E3) | [(E1 & E2 & E3) | (E1 & E2 & E3)]];
      rewrite E1, E2, E3;
      [left | right; left | right; right]; intuition discriminate.
Qed.

Lemma tiers_partition_witness :
  (length (highPerformers (employeeCompletionRates Sample.enrolments))
   + length (averagePerformers (employeeCompletionRates Sample.enrolments))
   + length (needsAttention (employeeCompletionRates Sample.enrolments))
   = length (employeeCompletionRates Sample.enrolments))%nat.
Proof.
  apply (proj1 (tiers_partition Sample.enrolments ltac:(vm_compute; reflexivity))).
Defined.

(** ** The filter, one dimension at a time *)

Lemma filter_filter {A : Type} (f g : A -> bool) (l : list A) :
  List.filter f (List.filter g l) = List.filter (fun x => g x && f x) l.
Proof.
  induction l as [| x l IH]; simpl; [reflexivity |].
  destruct (g x); simpl; [destruct (f x) |]; rewrite IH; reflexivity.
Qed.

Section FilterSteps.

Variable Date_parse : string -> option Z.
Variable now : Z.
Variable isMerged : bool.

Lemma filterCallback_only_block d selected item :
  filterCallback Date_parse now isMerged (only d selected) item
  = negb (nonEmpty selected
          && negb (includes selected (dimensionValue Date_parse now isMerged d item))).
Proof.
  destruct selected as [| s l].
  - destruct d; reflexivity.
  - rewrite filterCallback_only by discriminate. cbn [nonEmpty andb].
    rewrite negb_involutive. reflexivity.
Qed.

Lemma filterCallback_steps sel item :
  filterCallback Date_parse now isMerged sel item
  = filterCallback Date_parse now isMerged (only ByTenure (selectedTenure sel)) item
    && filterCallback Date_parse now isMerged (only ByStore (selectedStore sel)) item
    && filterCallback Date_parse now isMerged (only ByAreaManager (selectedAreaManager sel)) item
    && filterCallback Date_parse now isMerged (only ByTrainer (selectedTrainer sel)) item
    && filterCallback Date_parse now isMerged (only ByCourse (selectedCourse sel)) item
    && filterCallback Date_parse now isMerged (only ByDesignation (selectedDesignation sel)) item.
Proof.
  rewrite !filterCallback_only_block. unfold filterCallback. cbn [dimensionValue].
  repeat match goal with
         | |- context [if ?b then false else _] => destruct b; cbn [negb andb]; try reflexivity
         end.
Qed.

(** X6. Applying the six constraints one after the other, each as a
    selection on its dimension alone, gives the list that the filter
    returns for the whole selection; and filtering the output again with
    the same selection changes nothing. *)
Theorem filteredData_stepwise sel (data : list object) :
  filteredData Date_parse now isMerged sel data
  = filteredData Date_parse now isMerged (only ByDesignation (selectedDesignation sel))
      (filteredData Date_parse now isMerged (only ByCourse (selectedCourse sel))
         (filteredData Date_parse now isMerged (only ByTrainer (selectedTrainer sel))
            (filteredData Date_parse now isMerged (only ByAreaManager (selectedAreaManager sel))
               (filteredData Date_parse now isMerged (only ByStore (selectedStore sel))
                  (filteredData Date_parse now isMerged (only ByTenure (selectedTenure sel))
                     data)))))
  /\ filteredData Date_parse now isMerged sel
       (filteredData Date_parse now isMerged sel data)
     = filteredData Date_parse now isMerged sel data.
Proof.
  unfold filteredData. split.
  - rewrite !filter_filter. apply filter_ext_eq. intros item.
    rewrite filterCallback_steps, !andb_assoc. reflexivity.
  - rewrite filter_filter. apply filter_ext_eq. intros item.
    apply andb_diag.
Qed.

End FilterSteps.

(** ** Tenure: the buckets in milliseconds *)

Section TenureThresholds.

Variable Date_parse : string -> option Z.
Variable now : Z.

(** X7. For a date of joining that parses to the instant [joinTime], the
    bucket is decided by the elapsed time [now - joinTime]: less than 5
    days (a date in the future included) is "1-4 days", from 5 days to less
    than 16 is "5-15 days", from 16 days to less than 31 is "16-30 days",
    and 31 days or more is "over a month". *)
Theorem calculateTenure_thresholds d joinTime :
  Date_getTime Date_parse d = Some joinTime ->
  (calculateTenure Date_parse now d = "1-4 days" <-> now - joinTime < 5 * msPerDay)
  /\ (calculateTenure Date_parse now d = "5-15 days"
      <-> 5 * msPerDay <= now - joinTime < 16 * msPerDay)
  /\ (calculateTenure Date_parse now d = "16-30 days"
      <-> 16 * msPerDay <= now - joinTime < 31 * msPerDay)
  /\ (calculateTenure Date_parse now d = "over a month"
      <-> 31 * msPerDay <= now - joinTime).
Proof.
  intros Hd.
  assert (Hdiff : daysDiff Date_parse now d = Some ((now - joinTime) / msPerDay)).
  { unfold daysDiff. rewrite Hd. reflexivity. }
  rewrite (calculateTenure_of_days Date_parse now d _ Hdiff).
  set (t := now - joinTime). change msPerDay with 86400000.
  pose proof (Z.div_mod t 86400000 ltac:(lia)) as D.
  pose proof (Z.mod_pos_bound t 86400000 ltac:(lia)) as B.
  set (q := t / 86400000) in *.
  destruct (Z.leb_spec q 4) as [L4 | L4];
    [| destruct (Z.leb_spec q 15) as [L15 | L15];
       [| destruct (Z.leb_spec q 30) as [L30 | L30]]];
    (split; [| split; [| split]]); (split; intros G);
    try discriminate; try reflexivity; lia.
Qed.

End TenureThresholds.

Lemma calculateTenure_thresholds_witness :
  calculateTenure isoDateParse Sample.now (VString "2024-02-01") = "1-4 days".
Proof.
  apply (proj1 (calculateTenure_thresholds isoDateParse Sample.now
                  (VString "2024-02-01") 1706745600000 eq_refl)).
  vm_compute. reflexivity.
Defined.

(** ** The shared reducer of the completion charts *)

Module ChartFacts.

Import CompletionCharts.

Section GroupByFacts.

Variable keyOf : object -> string.

Lemma groupBy_reducer_lookup acc record k :
  reducer keyOf acc record !! k =
  if decide (keyOf record = k)
  then bump record <$>
         (if hasTruthy acc (keyOf record) then acc !! keyOf record
          else Some {| total := 0; completed := 0 |})
  else acc !! k.
Proof.
  unfold reducer, isCompleted.
  destruct (hasTruthy acc (keyOf record)) eqn:Ht; cbn [negb];
    destruct (decide (keyOf record = k)) as [<- | Hne].
  - destruct (strictEqualsString (get record "course_completion_status") "Completed") eqn:Hs;
      rewrite ?lookup_alter_eq; unfold bump; rewrite Hs;
      destruct (acc !! keyOf record); reflexivity.
  - destruct (strictEqualsString (get record "course_completion_status") "Completed");
      rewrite ?lookup_alter_ne by exact Hne; reflexivity.
  - destruct (strictEqualsString (get record "course_completion_status") "Completed") eqn:Hs;
      rewrite ?lookup_alter_eq, lookup_insert_eq; unfold bump; rewrite Hs; reflexivity.
  - destruct (strictEqualsString (get record "course_completion_status") "Completed");
      rewrite ?lookup_alter_ne by exact Hne; rewrite lookup_insert_ne by exact Hne;
      reflexivity.
Qed.

Lemma groupBy_snoc data record :
  groupBy keyOf (data ++ [record]) = reducer keyOf (groupBy keyOf data) record.
Proof. unfold groupBy. rewrite fold_left_app. reflexivity. Qed.

Lemma recordsIn_snoc key data record :
  recordsIn keyOf key (data ++ [record])
  = (recordsIn keyOf key data
     ++ if bool_decide (keyOf record = key) then [record] else [])%list.
Proof. unfold recordsIn. rewrite List.filter_app. reflexivity. Qed.

Lemma countsOf_other key data record :
  keyOf record <> key -> countsOf keyOf key (data ++ [record]) = countsOf keyOf key data.
Proof.
  intros Hne. unfold countsOf.
  rewrite recordsIn_snoc, bool_decide_eq_false_2, app_nil_r by exact Hne. reflexivity.
Qed.

Lemma countsOf_same data record :
  countsOf keyOf (keyOf record) (data ++ [record])
  = bump record (countsOf keyOf (keyOf record) data).
Proof.
  unfold countsOf, bump. cbn [total completed].
  rewrite recordsIn_snoc, bool_decide_eq_true_2 by reflexivity.
  rewrite List.filter_app, !length_app. cbn [List.filter].
  fold (isCompleted record). destruct (isCompleted record); cbn [length]; f_equal; lia.
Qed.

(** The bucket of a key: none for the name of an inherited member and
    for a key that no record has, and otherwise the counts of the records
    that have the key. *)
Lemma groupBy_lookup data key :
  groupBy keyOf data !! key =
  if bool_decide (key ∈ objectPrototypeKeys) then None
  else match recordsIn keyOf key data with
       | [] => None
       | _ :: _ => Some (countsOf keyOf key data)
       end.
Proof.
  revert key. induction data as [| record data IH] using rev_ind; intros key.
  - cbn. rewrite lookup_empty. destruct (bool_decide _); reflexivity.
  - rewrite groupBy_snoc, groupBy_reducer_lookup.
    destruct (decide (keyOf record = key)) as [<- | Hne].
    + unfold hasTruthy. rewrite IH.
      destruct (bool_decide (keyOf record ∈ objectPrototypeKeys)) eqn:Hp; [reflexivity |].
      rewrite countsOf_same.
      rewrite recordsIn_snoc, bool_decide_eq_true_2 by reflexivity.
      unfold countsOf.
      destruct (recordsIn keyOf (keyOf record) data) as [| r rs]; reflexivity.
    + rewrite IH, recordsIn_snoc.
      rewrite (bool_decide_eq_false_2 (keyOf record = key)) by exact Hne.
      rewrite app_nil_r, countsOf_other by exact Hne. reflexivity.
Qed.

Lemma count_by_key (keys : list string) (data : list object) :
  NoDup keys ->
  sum_list (map (fun key => length (recordsIn keyOf key data)) keys)
  = length (List.filter (fun record => bool_decide (keyOf record ∈ keys)) data).
Proof.
  intros Hnd. induction data as [| record data IH].
  - simpl. clear Hnd. induction keys as [| k keys IHk]; [reflexivity | exact IHk].
  - cbn [List.filter].
    assert (Hstep :
      sum_list (map (fun key => length (recordsIn keyOf key (record :: data))) keys)
      = ((if bool_decide (keyOf record ∈ keys) then 1 else 0)
         + sum_list (map (fun key => length (recordsIn keyOf key data)) keys))%nat).
    { clear IH. induction keys as [| k keys IHk]; [reflexivity |].
      apply NoDup_cons in Hnd as [Hk Hnd]. cbn [map sum_list]. rewrite (IHk Hnd).
      unfold recordsIn at 1. cbn [List.filter]. fold (recordsIn keyOf k data).
      destruct (decide (keyOf record = k)) as [Heq | Hne].
      - rewrite (bool_decide_eq_true_2 (keyOf record = k)) by exact Heq.
        rewrite (bool_decide_eq_true_2 (keyOf record ∈ k :: keys)) by (rewrite Heq; left).
        rewrite (bool_decide_eq_false_2 (keyOf record ∈ keys)) by (rewrite Heq; exact Hk).
        cbn [length]. unfold id. lia.
      - rewrite (bool_decide_eq_false_2 (keyOf record = k)) by exact Hne.
        destruct (decide (keyOf record ∈ keys)) as [Hin | Hnin].
        + rewrite (bool_decide_eq_true_2 (keyOf record ∈ keys)) by exact Hin.
          rewrite (bool_decide_eq_true_2 (keyOf record ∈ k :: keys)) by (right; exact Hin).
          unfold id. lia.
        + rewrite (bool_decide_eq_false_2 (keyOf record ∈ keys)) by exact Hnin.
          rewrite (bool_decide_eq_false_2 (keyOf record ∈ k :: keys))
            by (rewrite not_elem_of_cons; split; assumption).
          unfold id. lia. }
    rewrite Hstep, IH. destruct (bool_decide (keyOf record ∈ keys)); reflexivity.
Qed.

Lemma recordsIn_elem key data record :
  record ∈ data -> keyOf record = key -> recordsIn keyOf key data <> [].
Proof.
  intros Hin Hk Hnil.
  assert (H : record ∈ recordsIn keyOf key data).
  { unfold recordsIn. apply list_elem_of_In, filter_In.
    split; [apply list_elem_of_In, Hin | apply bool_decide_eq_true, Hk]. }
  rewrite Hnil in H. inversion H.
Qed.

(** A record is counted unless its key is the name of an inherited
    member. *)
Lemma groupBy_sum data :
  sumOfTotals (groupBy keyOf data)
  = length (List.filter
              (fun record => negb (bool_decide (keyOf record ∈ objectPrototypeKeys))) data).
Proof.
  unfold sumOfTotals.
  set (m := groupBy keyOf data).
  assert (Hmap : map (fun entry => total (snd entry)) (map_to_list m)
                 = map (fun key => length (recordsIn keyOf key data))
                     (map fst (map_to_list m))).
  { rewrite map_map. apply map_ext_in. intros [k c] Hin. simpl.
    apply list_elem_of_In, elem_of_map_to_list in Hin. unfold m in Hin.
    rewrite groupBy_lookup in Hin.
    destruct (bool_decide _); [discriminate |].
    destruct (recordsIn keyOf k data) eqn:E; [discriminate |].
    injection Hin as <-. unfold countsOf. rewrite E. reflexivity. }
  rewrite Hmap, count_by_key by apply NoDup_fst_map_to_list.
  f_equal. apply filter_ext_in. intros record Hin.
  apply list_elem_of_In in Hin.
  destruct (bool_decide (keyOf record ∈ objectPrototypeKeys)) eqn:Hp; cbn [negb].
  - apply bool_decide_eq_false. intros Hk.
    apply list_elem_of_fmap in Hk as ([k c] & Hkey & Hk). simpl in Hkey. subst k.
    apply elem_of_map_to_list in Hk. unfold m in Hk.
    rewrite groupBy_lookup, Hp in Hk. discriminate.
  - apply bool_decide_eq_true.
    apply list_elem_of_fmap. exists (keyOf record, countsOf keyOf (keyOf record) data).
    split; [reflexivity |]. apply elem_of_map_to_list. unfold m.
    rewrite groupBy_lookup, Hp.
    destruct (recordsIn keyOf (keyOf record) data) eqn:E; [| reflexivity].
    exfalso. exact (recordsIn_elem _ _ _ Hin eq_refl E).
Qed.

End GroupByFacts.

(** *** [TrainerCompletionChart] *)

Section TrainerFacts.

Variable Number_toString : number -> string.

(** X8. The bucket of a trainer holds the number of records of that
    trainer ([record.Trainer || 'Unknown']) and the number of those that
    are completed; there is no bucket for a trainer that no record has,
    nor for one named like an inherited member of the accumulator
    ("constructor", "toString", ...), whose records are left out. *)
Theorem trainerData_counts (data : list object) (trainer : string) :
  trainerData Number_toString data !! trainer =
  if bool_decide (trainer ∈ objectPrototypeKeys) then None
  else match recordsIn (trainerOf Number_toString) trainer data with
       | [] => None
       | _ :: _ => Some (countsOf (trainerOf Number_toString) trainer data)
       end.
Proof. apply (groupBy_lookup (trainerOf Number_toString)). Qed.

(** X9. The totals of the trainer buckets add up to the number of records
    whose trainer is not named like an inherited member of the
    accumulator; they add up to the number of records when no trainer has
    such a name. *)
Theorem trainerData_sum (data : list object) :
  sumOfTotals (trainerData Number_toString data)
  = length (List.filter
              (fun record =>
                 negb (bool_decide (trainerOf Number_toString record ∈ objectPrototypeKeys)))
              data)
  /\ ((forall record, record ∈ data ->
         trainerOf Number_toString record ∉ objectPrototypeKeys) ->
      sumOfTotals (trainerData Number_toString data) = length data).
Proof.
  assert (H := groupBy_sum (trainerOf Number_toString) data).
  split; [exact H |].
  intros Hkeys. change (trainerData Number_toString data)
    with (groupBy (trainerOf Number_toString) data).
  rewrite H. f_equal. apply filter_all_in. intros record Hin.
  rewrite bool_decide_eq_false_2 by (apply Hkeys, Hin). reflexivity.
Qed.

End TrainerFacts.

Lemma trainerData_sum_witness :
  sumOfTotals (trainerData Sample.noNumbers Sample.enrolments)
  = length Sample.enrolments.
Proof.
  apply (proj2 (trainerData_sum Sample.noNumbers Sample.enrolments)).
  intros record Hin. apply list_elem_of_In in Hin. simpl in Hin.
  destruct Hin as [<- | [<- | [<- | []]]];
    intros H; apply list_elem_of_In in H; vm_compute in H; intuition discriminate.
Defined.

(** *** Sorting *)

Section SortFacts.

Context {A : Type}.
Variable f : A -> Z.

Let cmp (a b : A) : Z := f a - f b.
Let le (a b : A) : Prop := f a <= f b.

Lemma insertBy_perm (c : A -> A -> Z) x l : insertBy c x l ≡ₚ x :: l.
Proof.
  induction l as [| y l IH]; simpl; [reflexivity |].
  destruct (c x y <=? 0); [reflexivity |].
  rewrite IH. apply Permutation_swap.
Qed.

Lemma sortBy_perm (c : A -> A -> Z) l : sortBy c l ≡ₚ l.
Proof.
  induction l as [| x l IH]; simpl; [reflexivity |].
  rewrite insertBy_perm, IH. reflexivity.
Qed.

Lemma insertBy_sorted x l :
  StronglySorted le l -> StronglySorted le (insertBy cmp x l).
Proof.
  induction 1 as [| y l Hs IH Hy]; simpl; [repeat constructor |].
  unfold cmp at 1. destruct (Z.leb_spec (f x - f y) 0) as [Hle | Hgt].
  - constructor; [constructor; assumption |].
    constructor; [unfold le; lia |].
    eapply Forall_impl; [exact Hy |]. intros z Hz. unfold le in *. lia.
  - constructor; [exact IH |].
    rewrite insertBy_perm. constructor; [unfold le; lia | exact Hy].
Qed.

Lemma sortBy_sorted l : StronglySorted le (sortBy cmp l).
Proof.
  induction l as [| x l IH]; simpl; [constructor | apply insertBy_sorted, IH].
Qed.

(** Two sorted arrangements of the same elements, on which the sort key
    is injective, are equal. *)
Lemma sorted_unique l1 : forall l2,
  NoDup (map f l1) -> StronglySorted le l1 -> StronglySorted le l2 ->
  l1 ≡ₚ l2 -> l1 = l2.
Proof.
  induction l1 as [| a l1 IH]; intros l2 Hnd Hs1 Hs2 Hp.
  - apply Permutation_nil_l in Hp. congruence.
  - destruct l2 as [| b l2]; [apply Permutation_nil_r in Hp; discriminate |].
    apply StronglySorted_inv in Hs1 as [Hs1 Ha].
    apply StronglySorted_inv in Hs2 as [Hs2 Hb].
    cbn [map] in Hnd. apply NoDup_cons in Hnd as [Hfa Hnd].
    assert (Hab : a = b).
    { assert (Hin_b : b ∈ a :: l1) by (rewrite Hp; left).
      assert (Hin_a : a ∈ b :: l2) by (rewrite <- Hp; left).
      apply elem_of_cons in Hin_b as [-> | Hin_b]; [reflexivity |].
      apply elem_of_cons in Hin_a as [-> | Hin_a]; [reflexivity |].
      rewrite Forall_forall in Ha, Hb.
      pose proof (Ha b Hin_b) as H1. pose proof (Hb a Hin_a) as H2. unfold le in *.
      exfalso. apply Hfa. apply list_elem_of_fmap. exists b. split; [lia | exact Hin_b]. }
    subst b. f_equal. apply IH; try assumption.
    apply (Permutation_cons_inv Hp).
Qed.

End SortFacts.

Lemma omap_pair_fmap {B C : Type} (g : string -> option B) (h : string -> B -> C)
    (l : list string) :
  omap (fun key => h key <$> g key) l
  = map (fun entry => h (fst entry) (snd entry)) (omap (fun key => pair key <$> g key) l).
Proof.
  induction l as [| key l IH]; [reflexivity |]. cbn [omap list_omap].
  destruct (g key); cbn; rewrite IH; reflexivity.
Qed.

Lemma elem_of_omap_pair {B : Type} (g : string -> option B) (l : list string) key b :
  (key, b) ∈ omap (fun key => pair key <$> g key) l <-> key ∈ l /\ g key = Some b.
Proof.
  rewrite list_elem_of_omap. split.
  - intros (k & Hk & Hg). destruct (g k) eqn:E; [| discriminate].
    injection Hg as -> ->. split; assumption.
  - intros [Hk Hg]. exists key. split; [exact Hk |]. rewrite Hg. reflexivity.
Qed.

Lemma NoDup_omap_pair {B : Type} (g : string -> option B) (l : list string) :
  NoDup l -> NoDup (omap (fun key => pair key <$> g key) l).
Proof.
  induction 1 as [| key l Hk Hnd IH]; [constructor |]. cbn [omap list_omap].
  destruct (g key) as [b |]; cbn; [| exact IH].
  constructor; [| exact IH].
  intros Hin. apply elem_of_omap_pair in Hin. tauto.
Qed.

(** *** [TenureCompletionChart] *)

Section TenureChartFacts.

Variable Date_parse : string -> option Z.
Variable now : Z.

Lemma tenureOf_bucket record : tenureOf Date_parse now record ∈ tenureBuckets.
Proof. apply calculateTenure_bucket. Qed.

Lemma tenureBuckets_not_inherited tenure :
  tenure ∈ tenureBuckets -> tenure ∉ objectPrototypeKeys.
Proof.
  intros H. apply list_elem_of_In in H. simpl in H.
  destruct H as [<- | [<- | [<- | [<- | []]]]];
    intros H; apply list_elem_of_In in H; vm_compute in H; intuition discriminate.
Qed.

Lemma tenureData_key data tenure c :
  tenureData Date_parse now data !! tenure = Some c -> tenure ∈ tenureBuckets.
Proof.
  unfold tenureData. rewrite groupBy_lookup.
  destruct (bool_decide _); [discriminate |].
  destruct (recordsIn _ tenure data) as [| record rs] eqn:E; [discriminate |].
  intros _.
  assert (Hin : record ∈ recordsIn (tenureOf Date_parse now) tenure data)
    by (rewrite E; left).
  unfold recordsIn in Hin. apply list_elem_of_In, filter_In in Hin as [_ Hk].
  apply bool_decide_eq_true in Hk. rewrite <- Hk. apply tenureOf_bucket.
Qed.

Lemma tenureData_lookup (data : list object) (tenure : string) :
  tenureData Date_parse now data !! tenure =
  match recordsIn (tenureOf Date_parse now) tenure data with
  | [] => None
  | _ :: _ => Some (countsOf (tenureOf Date_parse now) tenure data)
  end.
Proof.
  unfold tenureData. rewrite groupBy_lookup.
  destruct (bool_decide (tenure ∈ objectPrototypeKeys)) eqn:Hp; [| reflexivity].
  apply bool_decide_eq_true in Hp.
  destruct (recordsIn _ tenure data) as [| record rs] eqn:E; [reflexivity |].
  exfalso.
  assert (Hin : record ∈ recordsIn (tenureOf Date_parse now) tenure data)
    by (rewrite E; left).
  unfold recordsIn in Hin. apply list_elem_of_In, filter_In in Hin as [_ Hk].
  apply bool_decide_eq_true in Hk.
  apply (tenureBuckets_not_inherited tenure); [| exact Hp].
  rewrite <- Hk. apply tenureOf_bucket.
Qed.

(** X10. Every record is counted in the bucket of its tenure: a bucket
    holds the counts of the records classified into it, the keys of the
    buckets are tenure labels, and the totals of the buckets add up to the
    number of records. *)
Theorem tenureData_counts (data : list object) :
  (forall tenure,
     tenureData Date_parse now data !! tenure =
     match recordsIn (tenureOf Date_parse now) tenure data with
     | [] => None
     | _ :: _ => Some (countsOf (tenureOf Date_parse now) tenure data)
     end)
  /\ (forall tenure c,
        tenureData Date_parse now data !! tenure = Some c -> tenure ∈ tenureBuckets)
  /\ sumOfTotals (tenureData Date_parse now data) = length data.
Proof.
  split; [| split].
  - apply tenureData_lookup.
  - apply tenureData_key.
  - unfold tenureData. rewrite groupBy_sum. f_equal. apply filter_all_in.
    intros record _. rewrite bool_decide_eq_false_2; [reflexivity |].
    apply tenureBuckets_not_inherited, tenureOf_bucket.
Qed.

Lemma rowsInOrder_entries data :
  rowsInOrder Date_parse now data
  = map (fun entry => rowOf (fst entry) (snd entry))
      (omap (fun tenure => pair tenure <$> tenureData Date_parse now data !! tenure)
         tenureBuckets).
Proof. unfold rowsInOrder. apply omap_pair_fmap. Qed.

Lemma tenureBuckets_NoDup : NoDup tenureBuckets.
Proof.
  unfold tenureBuckets. apply NoDup_ListNoDup.
  repeat (constructor; [simpl; intuition discriminate |]). constructor.
Qed.

Lemma rowsInOrder_sorted data :
  let key := fun row => indexOf tenureBuckets (name row) in
  NoDup (map key (rowsInOrder Date_parse now data))
  /\ StronglySorted (fun a b => key a <= key b) (rowsInOrder Date_parse now data).
Proof.
  intros key. unfold rowsInOrder, tenureBuckets. cbn [omap list_omap].
  destruct (tenureData Date_parse now data !! "1-4 days");
    destruct (tenureData Date_parse now data !! "5-15 days");
    destruct (tenureData Date_parse now data !! "16-30 days");
    destruct (tenureData Date_parse now data !! "over a month");
    cbn [fmap option_fmap option_map map];
    (split;
     [ apply NoDup_ListNoDup; repeat (constructor; [simpl; intuition discriminate |]);
       constructor
     | repeat first [constructor | (vm_compute; discriminate)] ]).
Qed.

(** X11. Whatever the order in which the buckets are listed, the rows of
    the chart come out in the order of the tenure buckets ("1-4 days",
    "5-15 days", "16-30 days", "over a month"), one row for each bucket
    that holds a record. *)
Theorem chartData_in_bucket_order (data : list object) (entries : list (string * Counts)) :
  entries ≡ₚ map_to_list (tenureData Date_parse now data) ->
  chartData entries = rowsInOrder Date_parse now data.
Proof.
  intros Hp. unfold chartData. symmetry.
  destruct (rowsInOrder_sorted data) as [Hnd Hs].
  apply (sorted_unique (fun row => indexOf tenureBuckets (name row)));
    [exact Hnd | exact Hs | apply sortBy_sorted |].
  rewrite sortBy_perm, Hp, rowsInOrder_entries.
  apply Permutation_map.
  apply NoDup_Permutation.
  - apply NoDup_omap_pair, tenureBuckets_NoDup.
  - apply NoDup_map_to_list.
  - intros [tenure c]. rewrite elem_of_omap_pair, elem_of_map_to_list.
    split; [tauto |]. intros H. split; [eapply tenureData_key, H | exact H].
Qed.

End TenureChartFacts.

Lemma tenureData_counts_witness :
  sumOfTotals (tenureData isoDateParse Sample.now Sample.enrolments)
  = length Sample.enrolments
  /\ "over a month" ∈ tenureBuckets.
Proof.
  split.
  - apply (proj2 (proj2 (tenureData_counts isoDateParse Sample.now Sample.enrolments))).
  - apply (proj1 (proj2 (tenureData_counts isoDateParse Sample.now
                           [ {["date_of_joining" := VString "2023-01-01"]} ]))
             "over a month" {| total := 1; completed := 0 |}).
    vm_compute. reflexivity.
Defined.

Lemma chartData_in_bucket_order_witness :
  map name
    (chartData
       (map_to_list
          (tenureData isoDateParse Sample.now
             [ {["date_of_joining" := VString "2023-01-01"]};
               {["date_of_joining" := VString "2024-01-08"]} ])))
  = ["1-4 days"; "over a month"].
Proof.
  rewrite (chartData_in_bucket_order isoDateParse Sample.now _ _ (Permutation_refl _)).
  vm_compute. reflexivity.
Defined.

End ChartFacts.

(** ** Header cleaning *)

Lemma list_length_ind {A : Type} (P : list A -> Prop) :
  (forall l, (forall l', (length l' < length l)%nat -> P l') -> P l) -> forall l, P l.
Proof.
  intros H l. remember (length l) as n eqn:E. revert l E.
  induction n as [n IH] using lt_wf_ind. intros l ->.
  apply H. intros l' Hl'. apply (IH (length l') Hl' l' eq_refl).
Qed.

(** *** White-space characters *)

Ltac byte_tests c :=
  repeat match goal with
         | |- context [Nat.eqb (nat_of_ascii c) ?n] => destruct (Nat.eqb (nat_of_ascii c) n)
         end.

Lemma whiteSpaceLength_le l : (App.whiteSpaceLength l <= length l)%nat.
Proof.
  destruct l as [| c [| c1 [| c2 l]]]; simpl; [lia | | |].
  - destruct (App.isWhiteSpace1 c); lia.
  - destruct (App.isWhiteSpace1 c); [lia |]. destruct (App.isWhiteSpace2 c c1); lia.
  - destruct (App.isWhiteSpace1 c); [lia |]. destruct (App.isWhiteSpace2 c c1); [lia |].
    destruct (App.isWhiteSpace3 c c1 c2); lia.
Qed.

(** A white-space character at the head stays one when bytes are added
    at the end. *)
Lemma whiteSpaceLength_app l x k :
  App.whiteSpaceLength l = S k -> App.whiteSpaceLength (l ++ x) = S k.
Proof.
  destruct l as [| c [| c1 [| c2 l]]]; simpl; try discriminate.
  - destruct (App.isWhiteSpace1 c); [auto | discriminate].
  - destruct (App.isWhiteSpace1 c); [auto |].
    destruct (App.isWhiteSpace2 c c1); [auto | discriminate].
  - auto.
Qed.

Lemma isWhiteSpace2_space c : App.isWhiteSpace2 c " " = false.
Proof. unfold App.isWhiteSpace2. apply andb_false_r. Qed.

Lemma isWhiteSpace3_space c c2 : App.isWhiteSpace3 c " " c2 = false.
Proof. unfold App.isWhiteSpace3. cbv zeta. byte_tests c; reflexivity. Qed.

Lemma isWhiteSpace3_then_space c c1 : App.isWhiteSpace3 c c1 " " = false.
Proof. unfold App.isWhiteSpace3. cbv zeta. byte_tests c; byte_tests c1; reflexivity. Qed.

(** A byte that starts no white-space character starts none when the
    next byte, or the one after it, is replaced by a space. *)
Lemma whiteSpaceLength_then_space c l :
  App.isWhiteSpace1 c = false -> App.whiteSpaceLength (c :: " "%char :: l) = 0%nat.
Proof.
  intros Hc. simpl. rewrite Hc, isWhiteSpace2_space.
  destruct l as [| c2 l]; [reflexivity |]. rewrite isWhiteSpace3_space. reflexivity.
Qed.

Lemma whiteSpaceLength_then_space2 c c1 l :
  App.isWhiteSpace1 c = false -> App.isWhiteSpace2 c c1 = false ->
  App.whiteSpaceLength (c :: c1 :: " "%char :: l) = 0%nat.
Proof.
  intros Hc Hc1. simpl. rewrite Hc, Hc1, isWhiteSpace3_then_space. reflexivity.
Qed.

Lemma whiteSpaceLength_0 c l :
  App.whiteSpaceLength (c :: l) = 0%nat ->
  App.isWhiteSpace1 c = false
  /\ match l with
     | [] => True
     | c1 :: _ => App.isWhiteSpace2 c c1 = false
     end.
Proof.
  simpl. destruct (App.isWhiteSpace1 c); [discriminate |]. split; [reflexivity |].
  destruct l as [| c1 l]; [exact I |].
  destruct (App.isWhiteSpace2 c c1); [discriminate | reflexivity].
Qed.

Lemma whiteSpaceLength_nonempty l k : App.whiteSpaceLength l = S k -> l <> [].
Proof. destruct l; discriminate. Qed.

Lemma drop_shorter {A : Type} k (l : list A) :
  l <> [] -> (length (drop (S k) l) < length l)%nat.
Proof.
  destruct l as [| x l]; [contradiction |]. intros _. simpl. rewrite length_drop. lia.
Qed.

(** *** [trimStart] *)

Lemma trimStartFrom_drop k l : App.trimStartFrom k l = App.trimStart (drop k l).
Proof.
  revert k. induction l as [| c l IH]; intros k.
  - destruct k; reflexivity.
  - destruct k as [| k]; [reflexivity |]. simpl. apply IH.
Qed.

Lemma trimStart_unfold l :
  App.trimStart l =
  match App.whiteSpaceLength l with
  | O => l
  | S k => App.trimStart (drop (S k) l)
  end.
Proof.
  destruct l as [| c l]; [reflexivity |].
  unfold App.trimStart at 1. cbn [App.trimStartFrom].
  destruct (App.whiteSpaceLength (c :: l)) as [| k]; [reflexivity |].
  rewrite trimStartFrom_drop. reflexivity.
Qed.

Lemma trimStart_id l : App.whiteSpaceLength l = 0%nat -> App.trimStart l = l.
Proof. intros H. rewrite trimStart_unfold, H. reflexivity. Qed.

Lemma whiteSpaceLength_trimStart l : App.whiteSpaceLength (App.trimStart l) = 0%nat.
Proof.
  induction l as [l IH] using list_length_ind.
  rewrite trimStart_unfold. destruct (App.whiteSpaceLength l) as [| k] eqn:E; [exact E |].
  apply IH, drop_shorter, (whiteSpaceLength_nonempty l k E).
Qed.

(** White space before white space is white space. *)
Lemma trimStart_app p w :
  App.trimStart p = [] -> App.trimStart (p ++ w) = App.trimStart w.
Proof.
  induction p as [p IH] using list_length_ind. intros Hp.
  destruct p as [| c p']; [reflexivity |].
  rewrite trimStart_unfold in Hp.
  destruct (App.whiteSpaceLength (c :: p')) as [| k] eqn:E; [discriminate |].
  rewrite trimStart_unfold, (whiteSpaceLength_app _ w k E).
  pose proof (whiteSpaceLength_le (c :: p')) as Hle. rewrite E in Hle.
  rewrite drop_app_le by exact Hle.
  apply IH; [apply drop_shorter; discriminate | exact Hp].
Qed.

(** *** [trimEnd] *)

Lemma isAllWhiteSpace_true l : App.isAllWhiteSpace l = true <-> App.trimStart l = [].
Proof. unfold App.isAllWhiteSpace. destruct (App.trimStart l); split; congruence. Qed.

Lemma isAllWhiteSpace_false l : App.isAllWhiteSpace l = false <-> App.trimStart l <> [].
Proof. unfold App.isAllWhiteSpace. destruct (App.trimStart l); split; congruence. Qed.

(** What [trimEnd] drops is nothing but white space. *)
Lemma trimEnd_split l : exists w, l = (App.trimEnd l ++ w)%list /\ App.trimStart w = [].
Proof.
  induction l as [| c l IH]; [exists []; split; reflexivity |].
  cbn [App.trimEnd]. destruct (App.isAllWhiteSpace (c :: l)) eqn:E.
  - exists (c :: l). split; [reflexivity | apply isAllWhiteSpace_true, E].
  - destruct IH as (w & Hl & Hw). exists w. split; [| exact Hw].
    cbn [app]. rewrite <- Hl. reflexivity.
Qed.

Lemma noTrailingSpace_trimEnd l : App.noTrailingSpace (App.trimEnd l) = true.
Proof.
  induction l as [| c l IH]; [reflexivity |].
  cbn [App.trimEnd]. destruct (App.isAllWhiteSpace (c :: l)) eqn:E; [reflexivity |].
  cbn [App.noTrailingSpace]. rewrite IH, andb_true_r. apply negb_true_iff.
  apply isAllWhiteSpace_false. intros Hnil.
  destruct (trimEnd_split l) as (w & Hl & Hw).
  apply isAllWhiteSpace_false in E. apply E.
  rewrite Hl, app_comm_cons, (trimStart_app _ w Hnil). exact Hw.
Qed.

Lemma trimEnd_id l : App.noTrailingSpace l = true -> App.trimEnd l = l.
Proof.
  induction l as [| c l IH]; [reflexivity |].
  cbn [App.noTrailingSpace App.trimEnd]. intros H. apply andb_prop in H as [H1 H2].
  apply negb_true_iff in H1. rewrite H1, (IH H2). reflexivity.
Qed.

Lemma whiteSpaceLength_trimEnd l :
  App.whiteSpaceLength l = 0%nat -> App.whiteSpaceLength (App.trimEnd l) = 0%nat.
Proof.
  intros H. destruct (trimEnd_split l) as (w & Hl & _).
  destruct (App.whiteSpaceLength (App.trimEnd l)) as [| k] eqn:E; [reflexivity |].
  apply (whiteSpaceLength_app _ w) in E. rewrite <- Hl in E. congruence.
Qed.

Lemma noTrailingSpace_drop k l :
  App.noTrailingSpace l = true -> App.noTrailingSpace (drop k l) = true.
Proof.
  revert k. induction l as [| c l IH]; intros k H; [destruct k; exact H |].
  destruct k as [| k]; [exact H |]. cbn [App.noTrailingSpace] in H.
  apply andb_prop in H as [_ H]. apply (IH k H).
Qed.

Lemma noTrailingSpace_last l :
  App.noTrailingSpace l = true -> last l <> Some " "%char.
Proof.
  induction l as [| c l IH]; [discriminate |].
  cbn [App.noTrailingSpace]. intros H. apply andb_prop in H as [H1 H2].
  destruct l as [| c' l]; [| exact (IH H2)].
  intros [= ->]. discriminate.
Qed.

(** *** [replace(/\s+/g, ' ')] *)

Lemma collapseSpacesFrom_drop b k l :
  App.collapseSpacesFrom b k l = App.collapseSpaces b (drop k l).
Proof.
  revert k. induction l as [| c l IH]; intros k.
  - destruct k; reflexivity.
  - destruct k as [| k]; [reflexivity |]. simpl. apply IH.
Qed.

Lemma collapseSpaces_unfold b c l :
  App.collapseSpaces b (c :: l) =
  match App.whiteSpaceLength (c :: l) with
  | O => c :: App.collapseSpaces false l
  | S k =>
      if b then App.collapseSpaces true (drop (S k) (c :: l))
      else " "%char :: App.collapseSpaces true (drop (S k) (c :: l))
  end.
Proof.
  unfold App.collapseSpaces at 1. cbn [App.collapseSpacesFrom].
  destruct (App.whiteSpaceLength (c :: l)) as [| k]; [reflexivity |].
  rewrite collapseSpacesFrom_drop. reflexivity.
Qed.

(** A byte that starts no white-space character starts none in the
    output. *)
Lemma whiteSpaceLength_collapseSpaces c r :
  App.whiteSpaceLength (c :: r) = 0%nat ->
  App.whiteSpaceLength (c :: App.collapseSpaces false r) = 0%nat.
Proof.
  intros H. destruct (whiteSpaceLength_0 c r H) as [Hc Hc1].
  destruct r as [| c1 r1]; [exact H |].
  rewrite collapseSpaces_unfold.
  destruct (App.whiteSpaceLength (c1 :: r1)) as [| k];
    [| apply whiteSpaceLength_then_space, Hc].
  destruct r1 as [| c2 r2]; [exact H |].
  rewrite collapseSpaces_unfold.
  destruct (App.whiteSpaceLength (c2 :: r2)) as [| k];
    [exact H | apply whiteSpaceLength_then_space2; assumption].
Qed.

Lemma collapseSpaces_collapsed l : forall b, App.collapsed b (App.collapseSpaces b l) = true.
Proof.
  induction l as [l IH] using list_length_ind. intros b.
  destruct l as [| c l]; [reflexivity |].
  rewrite collapseSpaces_unfold.
  destruct (App.whiteSpaceLength (c :: l)) as [| k] eqn:E.
  - cbn [App.collapsed]. rewrite (whiteSpaceLength_collapseSpaces c l E).
    apply IH. simpl. lia.
  - assert (Hrest : App.collapsed true (App.collapseSpaces true (drop (S k) (c :: l))) = true)
      by (apply IH, drop_shorter; discriminate).
    destruct b; [exact Hrest |].
    cbn [App.collapsed]. change (App.whiteSpaceLength (" "%char :: ?x)) with 1%nat.
    cbv iota. rewrite Hrest. reflexivity.
Qed.

Lemma collapseSpaces_id l : forall b, App.collapsed b l = true -> App.collapseSpaces b l = l.
Proof.
  induction l as [| c l IH]; intros b; [reflexivity |].
  rewrite collapseSpaces_unfold. cbn [App.collapsed].
  destruct (App.whiteSpaceLength (c :: l)) as [| k] eqn:E.
  - intros H. rewrite (IH false H). reflexivity.
  - intros H. apply andb_prop in H as [H Hl]. apply andb_prop in H as [Hb Hc].
    apply negb_true_iff in Hb. subst b. apply Ascii.eqb_eq in Hc. subst c.
    change (App.whiteSpaceLength (" "%char :: l)) with 1%nat in E. injection E as <-.
    cbn [skipn]. rewrite drop_0, (IH true Hl). reflexivity.
Qed.

(** In a run, the white space at the head is dropped. *)
Lemma collapseSpaces_true l :
  App.collapseSpaces true l = App.collapseSpaces false (App.trimStart l).
Proof.
  induction l as [l IH] using list_length_ind.
  destruct l as [| c l]; [reflexivity |].
  rewrite trimStart_unfold, collapseSpaces_unfold.
  destruct (App.whiteSpaceLength (c :: l)) as [| k] eqn:E.
  - rewrite collapseSpaces_unfold, E. reflexivity.
  - apply IH, drop_shorter. discriminate.
Qed.

Lemma trimStart_collapseSpaces l :
  App.whiteSpaceLength l = 0%nat ->
  App.trimStart (App.collapseSpaces false l) = App.collapseSpaces false l
  /\ (l <> [] -> App.collapseSpaces false l <> []).
Proof.
  intros H. destruct l as [| c l]; [split; [reflexivity | contradiction] |].
  rewrite collapseSpaces_unfold, H. split; [| discriminate].
  apply trimStart_id, whiteSpaceLength_collapseSpaces, H.
Qed.

Lemma trimStart_space l : App.trimStart (" "%char :: l) = App.trimStart l.
Proof. rewrite trimStart_unfold. reflexivity. Qed.

Lemma noTrailingSpace_collapseSpaces l : forall b,
  App.noTrailingSpace l = true -> App.noTrailingSpace (App.collapseSpaces b l) = true.
Proof.
  induction l as [l IH] using list_length_ind. intros b Hl.
  destruct l as [| c l]; [reflexivity |].
  rewrite collapseSpaces_unfold.
  destruct (App.whiteSpaceLength (c :: l)) as [| k] eqn:E.
  - cbn [App.noTrailingSpace] in Hl |- *. apply andb_prop in Hl as [_ Hl].
    rewrite (IH l ltac:(simpl; lia) false Hl), andb_true_r.
    apply negb_true_iff, isAllWhiteSpace_false.
    rewrite (trimStart_id _ (whiteSpaceLength_collapseSpaces c l E)). discriminate.
  - set (rest := drop (S k) (c :: l)).
    assert (Hrest : App.noTrailingSpace (App.collapseSpaces true rest) = true)
      by (apply IH; [apply drop_shorter; discriminate | apply noTrailingSpace_drop, Hl]).
    destruct b; [exact Hrest |].
    cbn [App.noTrailingSpace]. rewrite Hrest, andb_true_r.
    apply negb_true_iff, isAllWhiteSpace_false.
    rewrite trimStart_space, collapseSpaces_true.
    cbn [App.noTrailingSpace] in Hl. apply andb_prop in Hl as [Hc _].
    apply negb_true_iff, isAllWhiteSpace_false in Hc.
    rewrite trimStart_unfold, E in Hc. fold rest in Hc.
    destruct (trimStart_collapseSpaces (App.trimStart rest) (whiteSpaceLength_trimStart _))
      as [Hfix Hne].
    rewrite Hfix. apply Hne, Hc.
Qed.

(** X12. Cleaning a header is idempotent. A cleaned header starts with no
    white-space character and ends with none, the white space that it
    holds is single spaces, and a second cleaning leaves it as it is. White
    space is that of [trim] and [\s], in UTF-8. *)
Theorem cleanKey_idempotent (key : string) :
  App.cleanKey (App.cleanKey key) = App.cleanKey key
  /\ App.whiteSpaceLength (list_ascii_of_string (App.cleanKey key)) = 0%nat
  /\ App.noTrailingSpace (list_ascii_of_string (App.cleanKey key)) = true
  /\ last (list_ascii_of_string (App.cleanKey key)) <> Some " "%char
  /\ App.collapsed false (list_ascii_of_string (App.cleanKey key)) = true.
Proof.
  unfold App.cleanKey. rewrite !list_ascii_of_string_of_list_ascii.
  set (t := App.trim (list_ascii_of_string key)).
  assert (Ht1 : App.whiteSpaceLength t = 0%nat)
    by apply whiteSpaceLength_trimEnd, whiteSpaceLength_trimStart.
  assert (Ht2 : App.noTrailingSpace t = true) by apply noTrailingSpace_trimEnd.
  destruct (trimStart_collapseSpaces t Ht1) as [Hc1 _].
  pose proof (noTrailingSpace_collapseSpaces t false Ht2) as Hc2.
  pose proof (collapseSpaces_collapsed t false) as Hc3.
  split; [| split; [| split; [exact Hc2 | split; [apply noTrailingSpace_last, Hc2 | exact Hc3]]]].
  - unfold App.trim at 1. rewrite Hc1, (trimEnd_id _ Hc2), (collapseSpaces_id _ _ Hc3).
    reflexivity.
  - rewrite <- Hc1. apply whiteSpaceLength_trimStart.
Qed.

(** A header with U+FEFF and U+00A0 before it, U+2003 and U+2028 in it and
    U+3000 after it. *)
Example cleanKey_unicode_example :
  App.cleanKey "﻿  Store    ID　 " = "Store ID".
Proof. vm_compute. reflexivity. Qed.

(** ** The directory merge: a record of a known store *)

Section MergeHit.

Variable storeMappingData : list App.StoreRecord.

Lemma storeMap_fold_other (l : list App.StoreRecord) (acc : gmap string object) id :
  (forall s, s ∈ l -> App.Store_ID s <> id) ->
  fold_left (fun m s => <[App.Store_ID s := App.storeInfoOf s]> m) l acc !! id = acc !! id.
Proof.
  revert acc. induction l as [| s l IH]; intros acc Hl; simpl; [reflexivity |].
  rewrite IH by (intros s' Hs'; apply Hl; right; exact Hs').
  apply lookup_insert_ne. apply Hl. left.
Qed.

(** The entry of an identifier in the map is the last directory row with
    that identifier. *)
Lemma storeMap_last (before after : list App.StoreRecord) (s : App.StoreRecord) :
  storeMappingData = (before ++ s :: after)%list ->
  (forall s', s' ∈ after -> App.Store_ID s' <> App.Store_ID s) ->
  App.storeMap storeMappingData !! App.Store_ID s = Some (App.storeInfoOf s).
Proof.
  intros -> Hafter. unfold App.storeMap. rewrite fold_left_app. cbn [fold_left].
  rewrite storeMap_fold_other by exact Hafter. apply lookup_insert_eq.
Qed.

Lemma mergeRecord_hit (before after : list App.StoreRecord) (s : App.StoreRecord)
    (emp : object) :
  storeMappingData = (before ++ s :: after)%list ->
  (forall s', s' ∈ after -> App.Store_ID s' <> App.Store_ID s) ->
  App.Store_ID s <> EmptyString ->
  get emp "Store ID" = VString (App.Store_ID s) ->
  App.mergeRecord storeMappingData emp = App.storeInfoOf s ∪ emp.
Proof.
  intros Hdir Hafter Hid Hemp. unfold App.mergeRecord, App.storeInfo.
  rewrite Hemp. cbn [toBoolean].
  destruct (String.eqb_spec (App.Store_ID s) EmptyString) as [E | _]; [contradiction |].
  cbn [negb]. rewrite (storeMap_last before after s Hdir Hafter). reflexivity.
Qed.

(** X13. A record whose store identifier is in the directory takes its
    location, region, area manager and trainer from the directory, whatever
    the row itself holds for them; when several directory rows have the
    identifier, the last one is used. Its other fields are unchanged. *)
Theorem mergeWithStoreData_known_store (data : list object) (i : nat) (emp : object)
    (before after : list App.StoreRecord) (s : App.StoreRecord) :
  storeMappingData = (before ++ s :: after)%list ->
  (forall s', s' ∈ after -> App.Store_ID s' <> App.Store_ID s) ->
  App.Store_ID s <> EmptyString ->
  data !! i = Some emp ->
  get emp "Store ID" = VString (App.Store_ID s) ->
  exists merged,
    App.mergeWithStoreData storeMappingData data !! i = Some merged
    /\ get merged "location" = VString (App.location s)
    /\ get merged "Region" = VString (App.Region s)
    /\ get merged "AM" = VString (App.AM s)
    /\ get merged "Trainer" = VString (App.Trainer s)
    /\ forall k, k ∉ App.directoryFields -> get merged k = get emp k.
Proof.
  intros Hdir Hafter Hid Hi Hemp.
  exists (App.mergeRecord storeMappingData emp). split.
  { unfold App.mergeWithStoreData. change (map ?f ?l) with (f <$> l).
    rewrite list_lookup_fmap, Hi. reflexivity. }
  rewrite (mergeRecord_hit before after s emp Hdir Hafter Hid Hemp).
  assert (Hdir_field : forall k v,
            App.storeInfoOf s !! k = Some v -> get (App.storeInfoOf s ∪ emp) k = v).
  { intros k v Hk. unfold get. rewrite (lookup_union_Some_l _ _ _ _ Hk). reflexivity. }
  split; [apply Hdir_field; reflexivity |].
  split; [apply Hdir_field; reflexivity |].
  split; [apply Hdir_field; reflexivity |].
  split; [apply Hdir_field; reflexivity |].
  intros k Hk. unfold get.
  rewrite lookup_union_r by (apply storeInfoOf_other, Hk). reflexivity.
Qed.

Lemma storeInfo_mergeRecord (emp : object) :
  App.storeInfo storeMappingData (App.mergeRecord storeMappingData emp)
  = App.storeInfo storeMappingData emp.
Proof.
  unfold App.storeInfo.
  rewrite (mergeRecord_other_fields storeMappingData emp "Store ID"); [reflexivity |].
  unfold App.directoryFields. rewrite !not_elem_of_cons.
  repeat split; try discriminate. apply not_elem_of_nil.
Qed.

(** X14. Merging is idempotent: merging merged records again, as happens
    when stored records are loaded and merged once more, changes
    nothing. *)
Theorem mergeWithStoreData_idempotent (data : list object) :
  App.mergeWithStoreData storeMappingData (App.mergeWithStoreData storeMappingData data)
  = App.mergeWithStoreData storeMappingData data.
Proof.
  unfold App.mergeWithStoreData. rewrite map_map. apply map_ext. intros emp.
  unfold App.mergeRecord at 1. rewrite storeInfo_mergeRecord.
  unfold App.mergeRecord.
  destruct (App.storeInfo storeMappingData emp) as [info |]; [| reflexivity].
  rewrite (assoc_L (∪)), (idemp_L (∪)). reflexivity.
Qed.

End MergeHit.

Lemma mergeWithStoreData_known_store_witness :
  exists merged,
    App.mergeWithStoreData Sample.directory
      [ {["employee_code" := VString "E3"; "Store ID" := VString "S1";
          "location" := VString "Elsewhere"]} ] !! 0%nat = Some merged
    /\ get merged "location" = VString "Pune"
    /\ get merged "Region" = VString "West"
    /\ get merged "AM" = VString "A. Rao"
    /\ get merged "Trainer" = VString "T. Iyer"
    /\ forall k, k ∉ App.directoryFields ->
         get merged k
         = get ({["employee_code" := VString "E3"; "Store ID" := VString "S1";
                  "location" := VString "Elsewhere"]} : object) k.
Proof.
  apply (mergeWithStoreData_known_store Sample.directory _ 0%nat _ []
           [] {| App.Store_ID := "S1"; App.location := "Pune"; App.Region := "West";
                 App.AM := "A. Rao"; App.Trainer := "T. Iyer" |}).
  - reflexivity.
  - intros other Hother. inversion Hother.
  - discriminate.
  - reflexivity.
  - reflexivity.
Defined.

(** ** The row mapper *)

Lemma cleanedD_fold_other (l : list (string * string)) (acc : gmap string string) k :
  (forall entry, entry ∈ l -> App.cleanKey (fst entry) <> k) ->
  fold_left (fun acc kv => <[App.cleanKey (fst kv) := snd kv]> acc) l acc !! k = acc !! k.
Proof.
  revert acc. induction l as [| e l IH]; intros acc Hl; simpl; [reflexivity |].
  rewrite IH by (intros e2 He2; apply Hl; right; exact He2).
  apply lookup_insert_ne. apply Hl. left.
Qed.

(** Of the columns whose cleaned header is [k], the last one gives the
    cell. *)
Lemma cleanedD_last d1 col cell d2 :
  (forall entry, entry ∈ d2 -> App.cleanKey (fst entry) <> App.cleanKey col) ->
  App.cleanedD (d1 ++ (col, cell) :: d2) !! App.cleanKey col = Some cell.
Proof.
  intros Hd2. unfold App.cleanedD. rewrite fold_left_app. cbn [fold_left fst snd].
  rewrite cleanedD_fold_other by exact Hd2. apply lookup_insert_eq.
Qed.

Lemma cleanedD_absent d k :
  (forall entry, entry ∈ d -> App.cleanKey (fst entry) <> k) ->
  App.cleanedD d !! k = None.
Proof.
  intros Hd. unfold App.cleanedD. rewrite cleanedD_fold_other by exact Hd.
  apply lookup_empty.
Qed.

Lemma csvRowMapper_status_lookup d :
  get (App.csvRowMapper d) "course_completion_status"
  = VString (if bool_decide (App.cleanedD d !! "course_completion_status" = Some "Completed")
             then "Completed" else "Not Completed").
Proof. unfold App.csvRowMapper, get. rewrite lookup_insert_eq. reflexivity. Qed.

(** X15. The completion status of a mapped row is "Completed" when the
    status cell, that of the last column whose cleaned header is
    [course_completion_status], is exactly the string "Completed", and
    "Not Completed" for every other cell and for a row without such a
    column. *)
Theorem csvRowMapper_status (d : list (string * string)) :
  (forall d1 col cell d2,
     d = (d1 ++ (col, cell) :: d2)%list ->
     App.cleanKey col = "course_completion_status" ->
     (forall entry, entry ∈ d2 -> App.cleanKey (fst entry) <> "course_completion_status") ->
     get (App.csvRowMapper d) "course_completion_status"
     = VString (if String.eqb cell "Completed" then "Completed" else "Not Completed"))
  /\ ((forall entry, entry ∈ d -> App.cleanKey (fst entry) <> "course_completion_status") ->
      get (App.csvRowMapper d) "course_completion_status" = VString "Not Completed").
Proof.
  split.
  - intros d1 col cell d2 -> Hcol Hd2. rewrite csvRowMapper_status_lookup.
    pose proof (cleanedD_last d1 col cell d2) as Hlast. rewrite Hcol in Hlast.
    rewrite (Hlast Hd2).
    destruct (String.eqb_spec cell "Completed") as [-> | Hne].
    + rewrite bool_decide_eq_true_2 by reflexivity. reflexivity.
    + rewrite bool_decide_eq_false_2 by congruence. reflexivity.
  - intros Hd. rewrite csvRowMapper_status_lookup, (cleanedD_absent d _ Hd).
    rewrite bool_decide_eq_false_2 by discriminate. reflexivity.
Qed.

Lemma csvRowMapper_status_witness :
  get (App.csvRowMapper [("employee_code", "E1"); (" course_completion_status ", "completed")])
    "course_completion_status"
  = VString "Not Completed".
Proof.
  apply (proj1 (csvRowMapper_status _) [("employee_code", "E1")]
           " course_completion_status " "completed" []).
  - reflexivity.
  - reflexivity.
  - intros entry Hentry. inversion Hentry.
Defined.

(** X16. A column other than the three computed ones is passed through:
    the mapped row holds, under the cleaned header, the cell as a string;
    when several headers clean to the same name, the cell of the last of
    them. (A header that cleans to [__proto__] names no property of the
    row.) *)
Theorem csvRowMapper_passes_through (d1 d2 : list (string * string)) (col cell : string) :
  (forall entry, entry ∈ d2 -> App.cleanKey (fst entry) <> App.cleanKey col) ->
  App.cleanKey col ∉ ["course_completion_hours"; "course_progress";
                      "course_completion_status"; "__proto__"] ->
  get (App.csvRowMapper (d1 ++ (col, cell) :: d2)) (App.cleanKey col) = VString cell.
Proof.
  intros Hd2 Hk. rewrite !not_elem_of_cons in Hk. destruct Hk as (H1 & H2 & H3 & _).
  unfold App.csvRowMapper, get.
  rewrite !lookup_insert_ne by congruence.
  rewrite lookup_fmap, (cleanedD_last d1 col cell d2 Hd2). reflexivity.
Qed.

Lemma csvRowMapper_passes_through_witness :
  get (App.csvRowMapper [("Store  ID", "S1"); ("employee_code", "E1"); (" Store ID ", "S2")])
    "Store ID"
  = VString "S2".
Proof.
  apply (csvRowMapper_passes_through
           [("Store  ID", "S1"); ("employee_code", "E1")] [] " Store ID " "S2").
  - intros entry Hentry. inversion Hentry.
  - intros Hin. apply list_elem_of_In in Hin. vm_compute in Hin. intuition discriminate.
Defined.

(** *** Numeric cells *)

Lemma digitChar_cases d :
  App.isDigitValue d ->
  d = 0 \/ d = 1 \/ d = 2 \/ d = 3 \/ d = 4 \/ d = 5 \/ d = 6 \/ d = 7 \/ d = 8 \/ d = 9.
Proof. unfold App.isDigitValue. lia. Qed.

Ltac each_digit H :=
  destruct (digitChar_cases _ H) as [-> | [-> | [-> | [-> | [-> | [-> | [-> | [-> | [-> | ->]]]]]]]]].

Lemma digit_digitChar d : App.isDigitValue d -> digit (App.digitChar d) = Some d.
Proof. intros H. each_digit H; reflexivity. Qed.

Lemma digitChar_plain d c :
  App.isDigitValue d ->
  c ∈ ["-"; "+"; "%"; "I"; " "]%char -> Ascii.eqb (App.digitChar d) c = false.
Proof.
  intros H Hc. apply list_elem_of_In in Hc. simpl in Hc.
  destruct Hc as [<- | [<- | [<- | [<- | [<- | []]]]]]; each_digit H; reflexivity.
Qed.

Lemma whiteSpaceLength_digitChar d l :
  App.isDigitValue d -> App.whiteSpaceLength (App.digitChar d :: l) = 0%nat.
Proof.
  intros H. destruct l as [| c1 [| c2 l]]; each_digit H; reflexivity.
Qed.

Lemma takeDigits_numeral ds :
  Forall App.isDigitValue ds -> App.takeDigits (map App.digitChar ds) = (ds, []).
Proof.
  induction 1 as [| d ds Hd Hds IH]; [reflexivity |].
  cbn [map App.takeDigits]. rewrite (digit_digitChar d Hd), IH. reflexivity.
Qed.

Lemma decimalToNumber_integer m : 0 <= m -> App.decimalToNumber false m 0 = num_of_Z m.
Proof.
  intros Hm. unfold App.decimalToNumber. destruct m as [| p | p]; [reflexivity | | lia].
  cbn [Z.leb Z.compare cond_Zopp]. rewrite Z.pow_0_r, Z.mul_1_r. reflexivity.
Qed.

Lemma digitsValue_nonneg ds : Forall App.isDigitValue ds -> 0 <= App.digitsValue ds.
Proof.
  intros H. unfold App.digitsValue.
  assert (G : forall a, 0 <= a -> 0 <= fold_left (fun acc d => acc * 10 + d) ds a).
  { induction H as [| d ds Hd Hds IH]; intros a Ha; simpl; [exact Ha |].
    apply IH. unfold App.isDigitValue in Hd. lia. }
  apply G. lia.
Qed.

(** [parseFloat] of a decimal numeral is the double nearest to the
    integer that it writes. *)
Lemma parseFloat_numeral ds :
  ds <> [] -> Forall App.isDigitValue ds ->
  App.parseFloat (App.numeral ds) = num_of_Z (App.digitsValue ds).
Proof.
  intros Hne Hds. unfold App.parseFloat, App.numeral.
  rewrite list_ascii_of_string_of_list_ascii.
  destruct ds as [| d ds]; [contradiction |].
  pose proof (Forall_inv Hds) as Hd.
  cbn [map]. rewrite (trimStart_id _ (whiteSpaceLength_digitChar d _ Hd)).
  cbn [App.takeSign].
  rewrite !(digitChar_plain d) by (exact Hd || (apply list_elem_of_In; simpl; tauto)).
  change (list_ascii_of_string "Infinity") with ("I"%char :: list_ascii_of_string "nfinity").
  cbn [App.startsWith].
  rewrite Ascii.eqb_sym, (digitChar_plain d) by (exact Hd || (apply list_elem_of_In; simpl; tauto)).
  cbn [andb].
  change (App.digitChar d :: map App.digitChar ds) with (map App.digitChar (d :: ds)).
  rewrite (takeDigits_numeral (d :: ds) Hds).
  apply decimalToNumber_integer, digitsValue_nonneg, Hds.
Qed.

Lemma string_of_list_ascii_app l1 l2 :
  string_of_list_ascii (l1 ++ l2)
  = (string_of_list_ascii l1 ++ string_of_list_ascii l2)%string.
Proof. induction l1 as [| c l1 IH]; simpl; [reflexivity | rewrite IH; reflexivity]. Qed.

Lemma stripPercent_numeral ds :
  Forall App.isDigitValue ds ->
  App.stripPercent (App.numeral ds ++ "%") = App.numeral ds.
Proof.
  intros Hds. unfold App.stripPercent, App.numeral.
  change "%"%string with (string_of_list_ascii ["%"%char]).
  rewrite <- string_of_list_ascii_app, list_ascii_of_string_of_list_ascii. f_equal.
  induction Hds as [| d ds Hd Hds IH]; [reflexivity |].
  cbn [map app App.removeFirst].
  rewrite (digitChar_plain d) by (exact Hd || (apply list_elem_of_In; simpl; tauto)).
  rewrite IH. reflexivity.
Qed.

Lemma numeral_nonEmpty ds : ds <> [] -> String.eqb (App.numeral ds) EmptyString = false.
Proof. destruct ds as [| d ds]; [contradiction | reflexivity]. Qed.

(** X17. The numeric fields of a mapped row. An hours cell that is a
    decimal numeral gives the double nearest to the integer that it
    writes, and so does a progress cell that is a numeral followed by a
    percent sign; a row without the column, or with an empty cell, gives
    0. *)
Theorem csvRowMapper_numeric_cells (d : list (string * string)) :
  (forall ds, ds <> [] -> Forall App.isDigitValue ds ->
     (App.cleanedD d !! "course_completion_hours" = Some (App.numeral ds) ->
      get (App.csvRowMapper d) "course_completion_hours"
      = VNumber (num_of_Z (App.digitsValue ds)))
     /\ (App.cleanedD d !! "course_progress" = Some (App.numeral ds ++ "%")%string ->
         get (App.csvRowMapper d) "course_progress"
         = VNumber (num_of_Z (App.digitsValue ds))))
  /\ (App.cleanedD d !! "course_completion_hours" = None
      \/ App.cleanedD d !! "course_completion_hours" = Some EmptyString ->
      get (App.csvRowMapper d) "course_completion_hours" = VNumber (num_of_Z 0))
  /\ (App.cleanedD d !! "course_progress" = None
      \/ App.cleanedD d !! "course_progress" = Some EmptyString ->
      get (App.csvRowMapper d) "course_progress" = VNumber (num_of_Z 0)).
Proof.
  split; [| split].
  - intros ds Hne Hds. split; intros Hcell.
    + rewrite csvRowMapper_hours, Hcell. unfold App.numberOrZero.
      rewrite (numeral_nonEmpty ds Hne). cbn [negb].
      rewrite (parseFloat_numeral ds Hne Hds). reflexivity.
    + rewrite csvRowMapper_progress, Hcell. unfold App.numberOrZero.
      assert (Hs : String.eqb (App.numeral ds ++ "%") EmptyString = false).
      { destruct ds as [| d0 ds0]; [contradiction | reflexivity]. }
      rewrite Hs. cbn [negb].
      rewrite (stripPercent_numeral ds Hds), (parseFloat_numeral ds Hne Hds). reflexivity.
  - intros [Hcell | Hcell]; rewrite csvRowMapper_hours, Hcell; reflexivity.
  - intros [Hcell | Hcell]; rewrite csvRowMapper_progress, Hcell; reflexivity.
Qed.

Lemma csvRowMapper_numeric_cells_witness :
  get (App.csvRowMapper [("course_completion_hours", "12"); ("course_progress", "75%")])
    "course_completion_hours" = VNumber (num_of_Z 12)
  /\ get (App.csvRowMapper [("course_completion_hours", "12"); ("course_progress", "75%")])
       "course_progress" = VNumber (num_of_Z 75)
  /\ get (App.csvRowMapper [("employee_code", "E1")]) "course_progress" = VNumber (num_of_Z 0).
Proof.
  split; [| split].
  - apply (proj1 (proj1 (csvRowMapper_numeric_cells _) [1; 2] ltac:(discriminate)
                    ltac:(repeat constructor; unfold App.isDigitValue; lia))).
    reflexivity.
  - apply (proj2 (proj1 (csvRowMapper_numeric_cells _) [7; 5] ltac:(discriminate)
                    ltac:(repeat constructor; unfold App.isDigitValue; lia))).
    reflexivity.
  - apply (proj2 (proj2 (csvRowMapper_numeric_cells _))). left. reflexivity.
Defined.

(** ** The handlers of a filter drop-down *)

Lemma elem_of_filter_ne (l : list string) (option v : string) :
  v ∈ List.filter (fun v => negb (String.eqb v option)) l <-> v ∈ l /\ v <> option.
Proof.
  rewrite !list_elem_of_In, filter_In, negb_true_iff.
  destruct (String.eqb_spec v option); intuition congruence.
Qed.

Lemma filter_ne_absent (l : list string) (option : string) :
  option ∉ l -> List.filter (fun v => negb (String.eqb v option)) l = l.
Proof.
  intros Hnin. apply filter_all_in. intros v Hv. apply negb_true_iff.
  destruct (String.eqb_spec v option) as [-> | _]; [contradiction | reflexivity].
Qed.

(** X18. Clicking an option flips the membership of that option in the
    selection and of no other value; it keeps a selection free of
    duplicates so; and clicking twice an option that was not selected gives
    the selection back. *)
Theorem handleOptionToggle_flips (selectedValues : list string) (option : string) :
  (option ∈ MultiSelectFilter.handleOptionToggle selectedValues option
   <-> option ∉ selectedValues)
  /\ (forall v, v <> option ->
        (v ∈ MultiSelectFilter.handleOptionToggle selectedValues option
         <-> v ∈ selectedValues))
  /\ (NoDup selectedValues ->
      NoDup (MultiSelectFilter.handleOptionToggle selectedValues option))
  /\ (option ∉ selectedValues ->
      MultiSelectFilter.handleOptionToggle
        (MultiSelectFilter.handleOptionToggle selectedValues option) option
      = selectedValues).
Proof.
  unfold MultiSelectFilter.handleOptionToggle at 1 2 3 5. cbn [includes].
  destruct (decide (option ∈ selectedValues)) as [Hin | Hnin].
  - rewrite bool_decide_eq_true_2 by exact Hin.
    split; [| split; [| split]].
    + rewrite elem_of_filter_ne. tauto.
    + intros v Hv. rewrite elem_of_filter_ne. tauto.
    + intros Hnd. apply NoDup_ListNoDup, List.NoDup_filter, NoDup_ListNoDup, Hnd.
    + contradiction.
  - rewrite bool_decide_eq_false_2 by exact Hnin.
    split; [| split; [| split]].
    + rewrite elem_of_app, list_elem_of_singleton. tauto.
    + intros v Hv. rewrite elem_of_app, list_elem_of_singleton. tauto.
    + intros Hnd. apply NoDup_app. split; [exact Hnd |]. split; [| apply NoDup_singleton].
      intros v Hv Hv'. apply list_elem_of_singleton in Hv'. subst v. contradiction.
    + intros _. unfold MultiSelectFilter.handleOptionToggle. cbn [includes].
      rewrite bool_decide_eq_true_2 by (rewrite elem_of_app, list_elem_of_singleton; tauto).
      rewrite List.filter_app, (filter_ne_absent _ _ Hnin). cbn [List.filter].
      rewrite String.eqb_refl. cbn [negb]. apply app_nil_r.
Qed.

Lemma handleOptionToggle_flips_witness :
  MultiSelectFilter.handleOptionToggle
    (MultiSelectFilter.handleOptionToggle ["Pune"] "Nashik") "Nashik"
  = ["Pune"].
Proof.
  apply (proj2 (proj2 (proj2 (handleOptionToggle_flips ["Pune"] "Nashik")))).
  intros Hin. apply list_elem_of_In in Hin. simpl in Hin. intuition discriminate.
Defined.

(** *** The count shown beside an option *)

Section ItemCount.

Variable Date_parse : string -> option Z.
Variable now : Z.

Lemma optionValue_isMerged filterKey isMerged item :
  MultiSelectFilter.optionValue filterKey isMerged item = get item filterKey.
Proof.
  unfold MultiSelectFilter.optionValue.
  destruct (String.eqb_spec filterKey "location") as [-> | _];
    [destruct isMerged; reflexivity |].
  destruct (String.eqb_spec filterKey "AM") as [-> | _];
    [destruct isMerged; reflexivity |].
  destruct (String.eqb_spec filterKey "Trainer") as [-> | _];
    [destruct isMerged; reflexivity |].
  reflexivity.
Qed.

Lemma getItemCount_length data filterKey isMerged option :
  filterKey <> EmptyString ->
  MultiSelectFilter.getItemCount true data filterKey isMerged option
  = length (List.filter
              (fun item =>
                 strictEqualsString (logicalOr (get item filterKey) (VString "Unknown")) option)
              data).
Proof.
  intros Hk. unfold MultiSelectFilter.getItemCount, toBoolean.
  rewrite (proj2 (String.eqb_neq filterKey EmptyString) Hk).
  cbn [negb orb]. f_equal. apply filter_ext_eq. intros item.
  rewrite optionValue_isMerged. reflexivity.
Qed.

Lemma strictEqualsString_includes v option :
  strictEqualsString v option = includes [option] v.
Proof.
  unfold strictEqualsString, includes. destruct v as [| | b | n | s];
    try (apply bool_decide_eq_false; discriminate).
  apply bool_decide_ext. rewrite list_elem_of_singleton. split; congruence.
Qed.

Lemma includes_Unknown_default v option :
  option <> "Unknown" -> option <> EmptyString ->
  includes [option] (logicalOr v (VString "Unknown")) = includes [option] v.
Proof.
  intros Hne Hne'. unfold logicalOr. destruct (toBoolean v) eqn:Hv; [reflexivity |].
  cbn [includes]. rewrite bool_decide_eq_false_2
    by (rewrite list_elem_of_singleton; congruence).
  destruct v as [| | b | n | s]; try reflexivity. cbn [includes].
  cbn [toBoolean] in Hv. apply negb_false_iff, String.eqb_eq in Hv. subst s.
  symmetry. apply bool_decide_eq_false. rewrite list_elem_of_singleton.
  congruence.
Qed.

(** X19. The count beside a course or a designation is the number of
    records that the filter returns when that option alone is selected; on
    merged data the same holds of a store, an area manager and a trainer
    other than "Unknown" and the empty string. The count does not depend
    on [isMerged]. *)
Theorem getItemCount_is_filter_length (data : list object) (option : string) :
  (forall isMerged isMerged',
     MultiSelectFilter.getItemCount true data "course_name" isMerged' option
     = length (filteredData Date_parse now isMerged (only ByCourse [option]) data)
     /\ MultiSelectFilter.getItemCount true data "designation" isMerged' option
        = length (filteredData Date_parse now isMerged (only ByDesignation [option]) data))
  /\ (option <> "Unknown" -> option <> EmptyString ->
      forall isMerged',
        MultiSelectFilter.getItemCount true data "location" isMerged' option
        = length (filteredData Date_parse now true (only ByStore [option]) data)
        /\ MultiSelectFilter.getItemCount true data "AM" isMerged' option
           = length (filteredData Date_parse now true (only ByAreaManager [option]) data)
        /\ MultiSelectFilter.getItemCount true data "Trainer" isMerged' option
           = length (filteredData Date_parse now true (only ByTrainer [option]) data))
  /\ (forall showCount filterKey,
        MultiSelectFilter.getItemCount showCount data filterKey true option
        = MultiSelectFilter.getItemCount showCount data filterKey false option).
Proof.
  split; [| split].
  - intros isMerged isMerged'.
    rewrite !getItemCount_length by discriminate. unfold filteredData.
    split; f_equal; apply filter_ext_eq; intros item;
      rewrite filterCallback_only by discriminate;
      apply strictEqualsString_includes.
  - intros Hne Hne' isMerged'.
    rewrite !getItemCount_length by discriminate. unfold filteredData.
    split; [| split]; f_equal; apply filter_ext_eq; intros item;
      rewrite filterCallback_only by discriminate; cbn [dimensionValue];
      rewrite strictEqualsString_includes; apply includes_Unknown_default; assumption.
  - intros showCount filterKey. unfold MultiSelectFilter.getItemCount.
    destruct (negb showCount || negb (toBoolean (VString filterKey))); [reflexivity |].
    f_equal. apply filter_ext_eq. intros item. rewrite !optionValue_isMerged. reflexivity.
Qed.

Lemma filter_none_in {A : Type} (f : A -> bool) (l : list A) :
  (forall x, x ∈ l -> f x = false) -> List.filter f l = [].
Proof.
  induction l as [| x l IH]; intros H; [reflexivity |]. cbn [List.filter].
  rewrite (H x (list_elem_of_here _ _)). apply IH.
  intros y Hy. apply H. right. exact Hy.
Qed.

(** X20. The count beside a tenure bucket is read from a property
    [tenure] of the records, not computed from the date of joining: on
    records without such a property every bucket shows 0, whatever the
    filter returns for it. *)
Theorem getItemCount_tenure (data : list object) (option : string) :
  (forall item, item ∈ data -> get item "tenure" = VUndefined) ->
  option ∈ tenureBuckets ->
  forall isMerged, MultiSelectFilter.getItemCount true data "tenure" isMerged option = 0%nat.
Proof.
  intros Hdata Hopt isMerged. rewrite getItemCount_length by discriminate.
  rewrite filter_none_in; [reflexivity |].
  intros item Hitem. rewrite (Hdata item Hitem). cbn [logicalOr toBoolean].
  apply bool_decide_eq_false. intros E. injection E as <-.
  apply list_elem_of_In in Hopt. simpl in Hopt. intuition discriminate.
Qed.

End ItemCount.

Lemma getItemCount_is_filter_length_witness :
  MultiSelectFilter.getItemCount true Sample.enrolments "Trainer" true "T. Iyer"
  = length (filteredData isoDateParse Sample.now true (only ByTrainer ["T. Iyer"])
              Sample.enrolments).
Proof.
  apply (proj2 (proj2 (proj1 (proj2 (getItemCount_is_filter_length isoDateParse Sample.now
                                       Sample.enrolments "T. Iyer"))
                         ltac:(discriminate) ltac:(discriminate) true))).
Defined.

Lemma getItemCount_tenure_witness :
  MultiSelectFilter.getItemCount true Sample.enrolments "tenure" false "over a month" = 0%nat
  /\ length (filteredData isoDateParse Sample.now false (only ByTenure ["over a month"])
               Sample.enrolments) = 3%nat.
Proof.
  split; [| reflexivity].
  apply (getItemCount_tenure Sample.enrolments "over a month").
  - intros item Hitem. apply list_elem_of_In in Hitem. simpl in Hitem.
    destruct Hitem as [<- | [<- | [<- | []]]]; reflexivity.
  - apply list_elem_of_In. simpl. tauto.
Defined.

(** ** [AreaManagerCompletionChart] and [TenureDistributionChart] *)

Module DistributionFacts.

Import CompletionCharts.

Section AreaManagerFacts.

Variable Number_toString : number -> string.

(** X21. The bucket of an area manager holds the counts of the records
    of that manager ([record.AM || 'Unknown']): at least one record, no
    more completions than records, and a rate [(completed / total) * 100]
    that is a finite number between 0 and 100. *)
Theorem amData_counts_and_rate (data : list object) (am : string) (c : Counts) :
  Z.of_nat (length data) < 2 ^ 53 ->
  amData Number_toString data !! am = Some c ->
  c = countsOf (amOf Number_toString) am data
  /\ (1 <= total c <= length data)%nat
  /\ (completed c <= total c)%nat
  /\ exists v, num_value (completionRate c) = Some v /\ (0 <= v)%Q /\ (v <= 100)%Q.
Proof.
  intros Hlen. unfold amData. rewrite ChartFacts.groupBy_lookup.
  destruct (bool_decide _); [discriminate |].
  destruct (recordsIn _ am data) as [| r rs] eqn:E; [discriminate |].
  intros [= <-].
  assert (H1 : (1 <= total (countsOf (amOf Number_toString) am data) <= length data)%nat).
  { unfold countsOf. cbn [total]. split; [rewrite E; simpl; lia |].
    unfold recordsIn. apply filter_length_bound. }
  assert (H2 : (completed (countsOf (amOf Number_toString) am data)
                <= total (countsOf (amOf Number_toString) am data))%nat).
  { unfold countsOf. cbn [total completed]. apply filter_length_bound. }
  split; [reflexivity |]. split; [exact H1 |]. split; [exact H2 |].
  apply completionRate_bounds; lia.
Qed.

End AreaManagerFacts.

Lemma amData_counts_and_rate_witness :
  exists c,
    amData Sample.noNumbers Sample.enrolments !! "Unknown" = Some c
    /\ (1 <= total c <= length Sample.enrolments)%nat.
Proof.
  exists {| total := 3; completed := 2 |}. split; [vm_compute; reflexivity |].
  apply (amData_counts_and_rate Sample.noNumbers Sample.enrolments "Unknown").
  - vm_compute. reflexivity.
  - vm_compute. reflexivity.
Defined.

Lemma Set_add_length (s : list value) (v : value) :
  (length s <= length (Set_add s v) <= S (length s))%nat
  /\ (1 <= length (Set_add s v))%nat.
Proof.
  unfold Set_add. destruct (decide (mapKey v ∈ s)) as [Hin | _].
  - split; [lia |]. destruct s; [inversion Hin | simpl; lia].
  - rewrite length_app. simpl. lia.
Qed.

Lemma Set_from_length (arr : list value) :
  (length (Set_from arr) <= length arr)%nat
  /\ (arr <> [] -> 1 <= length (Set_from arr))%nat.
Proof.
  induction arr as [| v arr IH] using rev_ind.
  - split; [reflexivity | contradiction].
  - rewrite Set_from_snoc, length_app. cbn [length].
    destruct (Set_add_length (Set_from arr) v) as [[_ Hle] Hone].
    split; [lia | intros _; exact Hone].
Qed.

Section DistributionChartFacts.

Variable Date_parse : string -> option Z.
Variable now : Z.

Abbreviation tenureOf := (tenureOf Date_parse now).
Abbreviation distData := (TenureDistributionChart.tenureData Date_parse now).
Abbreviation bucketOf := (TenureDistributionChart.bucketOf Date_parse now).

Lemma distData_snoc data record :
  distData (data ++ [record])
  = TenureDistributionChart.reducer Date_parse now (distData data) record.
Proof. unfold TenureDistributionChart.tenureData. rewrite fold_left_app. reflexivity. Qed.

Lemma bucketOf_other tenure data record :
  tenureOf record <> tenure -> bucketOf tenure (data ++ [record]) = bucketOf tenure data.
Proof.
  intros Hne. unfold TenureDistributionChart.bucketOf, TenureDistributionChart.recordsIn.
  rewrite ChartFacts.recordsIn_snoc.
  rewrite (bool_decide_eq_false_2 (tenureOf record = tenure)) by exact Hne.
  rewrite app_nil_r. reflexivity.
Qed.

Lemma tenureOf_not_inherited record :
  bool_decide (tenureOf record ∈ objectPrototypeKeys) = false.
Proof.
  apply bool_decide_eq_false, ChartFacts.tenureBuckets_not_inherited,
    ChartFacts.tenureOf_bucket.
Qed.

Lemma dist_reducer_lookup acc record tenure :
  TenureDistributionChart.reducer Date_parse now acc record !! tenure =
  if decide (tenureOf record = tenure)
  then Some (TenureDistributionChart.bump record
               (default {| TenureDistributionChart.total := 0;
                           TenureDistributionChart.completed := 0;
                           TenureDistributionChart.employees := [] |}
                        (acc !! tenureOf record)))
  else acc !! tenure.
Proof.
  unfold TenureDistributionChart.reducer. fold (tenureOf record).
  unfold TenureDistributionChart.hasTruthy. rewrite tenureOf_not_inherited.
  destruct (decide (tenureOf record = tenure)) as [<- | Hne].
  - destruct (strictEqualsString (get record "course_completion_status") "Completed") eqn:Hs;
      rewrite ?lookup_alter_eq; unfold TenureDistributionChart.bump; rewrite Hs;
      destruct (acc !! tenureOf record) as [b |] eqn:E; cbn [negb];
      rewrite ?lookup_insert_eq, ?E; reflexivity.
  - destruct (strictEqualsString (get record "course_completion_status") "Completed");
      rewrite ?lookup_alter_ne by exact Hne;
      destruct (acc !! tenureOf record); cbn [negb];
      rewrite ?lookup_insert_ne by exact Hne; reflexivity.
Qed.

Lemma bucketOf_same data record :
  bucketOf (tenureOf record) (data ++ [record])
  = TenureDistributionChart.bump record (bucketOf (tenureOf record) data).
Proof.
  unfold TenureDistributionChart.bucketOf, TenureDistributionChart.recordsIn,
    TenureDistributionChart.bump.
  cbn [TenureDistributionChart.total TenureDistributionChart.completed
       TenureDistributionChart.employees].
  rewrite ChartFacts.recordsIn_snoc, bool_decide_eq_true_2 by reflexivity.
  rewrite List.filter_app, map_app, !length_app. cbn [List.filter map].
  rewrite Set_from_snoc. unfold isCompleted.
  destruct (strictEqualsString (get record "course_completion_status") "Completed");
    cbn [length]; f_equal; lia.
Qed.

Lemma distData_lookup data tenure :
  distData data !! tenure =
  match TenureDistributionChart.recordsIn Date_parse now tenure data with
  | [] => None
  | _ :: _ => Some (bucketOf tenure data)
  end.
Proof.
  revert tenure. induction data as [| record data IH] using rev_ind; intros tenure.
  - cbn. apply lookup_empty.
  - rewrite distData_snoc, dist_reducer_lookup.
    destruct (decide (tenureOf record = tenure)) as [<- | Hne].
    + rewrite IH, bucketOf_same.
      unfold TenureDistributionChart.recordsIn at 2.
      rewrite ChartFacts.recordsIn_snoc, bool_decide_eq_true_2 by reflexivity.
      fold (TenureDistributionChart.recordsIn Date_parse now (tenureOf record) data).
      unfold TenureDistributionChart.bucketOf.
      destruct (TenureDistributionChart.recordsIn Date_parse now (tenureOf record) data)
        as [| r rs]; reflexivity.
    + rewrite IH, bucketOf_other by exact Hne.
      unfold TenureDistributionChart.recordsIn.
      rewrite ChartFacts.recordsIn_snoc.
      rewrite (bool_decide_eq_false_2 (tenureOf record = tenure)) by exact Hne.
      rewrite app_nil_r. reflexivity.
Qed.

(** X22. A bucket of the distribution chart holds the number of records
    of its tenure, the number of those that are completed, and the distinct
    employee codes of those records in order of first appearance; it counts
    at least one employee and no more employees than records; and its
    counts are those of the same bucket of the completion chart. *)
Theorem distribution_bucket (data : list object) (tenure : string)
    (b : TenureDistributionChart.Bucket) :
  distData data !! tenure = Some b ->
  b = bucketOf tenure data
  /\ (1 <= TenureDistributionChart.uniqueEmployees b <= TenureDistributionChart.total b)%nat
  /\ (TenureDistributionChart.completed b <= TenureDistributionChart.total b)%nat
  /\ tenureData Date_parse now data !! tenure = Some (TenureDistributionChart.countsOf b).
Proof.
  rewrite distData_lookup.
  destruct (TenureDistributionChart.recordsIn Date_parse now tenure data) as [| r rs] eqn:E;
    [discriminate |].
  intros [= <-]. split; [reflexivity |].
  unfold TenureDistributionChart.uniqueEmployees, TenureDistributionChart.bucketOf.
  cbn [TenureDistributionChart.total TenureDistributionChart.completed
       TenureDistributionChart.employees].
  destruct (Set_from_length
              (map (fun record => get record "employee_code")
                 (TenureDistributionChart.recordsIn Date_parse now tenure data)))
    as [Hle Hone].
  rewrite length_map in Hle.
  split; [split; [apply Hone; rewrite E; discriminate | exact Hle] |].
  split; [apply filter_length_bound |].
  rewrite ChartFacts.tenureData_lookup. unfold TenureDistributionChart.recordsIn in E. rewrite E. reflexivity.
Qed.

End DistributionChartFacts.

Lemma distribution_bucket_witness :
  exists b,
    TenureDistributionChart.tenureData isoDateParse Sample.now Sample.enrolments
      !! "over a month" = Some b
    /\ (1 <= TenureDistributionChart.uniqueEmployees b <= TenureDistributionChart.total b)%nat.
Proof.
  eexists. split.
  - vm_compute. reflexivity.
  - refine (proj1 (proj2 (distribution_bucket isoDateParse Sample.now Sample.enrolments
                            "over a month" _ _))).
    vm_compute. reflexivity.
Defined.

End DistributionFacts.

(** ** The summary of the active filters, and "Select All" *)

Section FilterSummary.

Variable Date_parse : string -> option Z.
Variable now : Z.
Variable isMerged : bool.

(** X23. The summary reads "All Data" exactly when no selection is made,
    and the filter then returns its input. *)
Theorem getActiveFiltersText_all_data (sel : FilterSelection) :
  (getActiveFiltersText sel = "All Data" <-> sel = noSelection)
  /\ (getActiveFiltersText sel = "All Data" ->
      forall data, filteredData Date_parse now isMerged sel data = data).
Proof.
  assert (H : getActiveFiltersText sel = "All Data" <-> sel = noSelection).
  { destruct sel as [t s a r c d].
    destruct t as [| t0 t]; destruct s as [| s0 s]; destruct a as [| a0 a];
      destruct r as [| r0 r]; destruct c as [| c0 c]; destruct d as [| d0 d];
      (split; [| discriminate || reflexivity]); try reflexivity;
      unfold getActiveFiltersText, activeFilters, pushActive, describe;
      cbn [nonEmpty app selectedTenure selectedStore selectedAreaManager selectedTrainer
           selectedCourse selectedDesignation String.append];
      intros E; exfalso; revert E; try discriminate.
    all: try (vm_compute; discriminate). }
  split; [exact H |].
  intros E data. apply H in E. subst sel.
  unfold filteredData. apply filter_all_in. reflexivity.
Qed.

(** X24. "Select All" on a selection that does not have as many values
    as there are options selects exactly the options; the filter on that
    dimension then returns, in their order, the records of the input whose
    value on the dimension is among the options (every record when there
    is no option), so it returns the whole input when every record has
    such a value; and a second "Select All" clears the selection. On a
    selection with as many values as there are options, "Select All"
    clears the selection whatever its values are. *)
Theorem handleSelectAll_keeps_records (d : Dimension) (selected options : list string)
    (data : list object) :
  (length selected <> length options ->
   MultiSelectFilter.handleSelectAll selected options = options
   /\ (forall item,
        item ∈ filteredData Date_parse now isMerged
                 (only d (MultiSelectFilter.handleSelectAll selected options)) data
        <-> item ∈ data
            /\ (options <> [] ->
                memberOf (dimensionValue Date_parse now isMerged d item) options))
   /\ filteredData Date_parse now isMerged
        (only d (MultiSelectFilter.handleSelectAll selected options)) data
      `sublist_of` data
   /\ ((forall item, item ∈ data ->
          memberOf (dimensionValue Date_parse now isMerged d item) options) ->
       filteredData Date_parse now isMerged
         (only d (MultiSelectFilter.handleSelectAll selected options)) data = data)
   /\ MultiSelectFilter.handleSelectAll
        (MultiSelectFilter.handleSelectAll selected options) options = [])
  /\ (length selected = length options ->
      MultiSelectFilter.handleSelectAll selected options = []
      /\ filteredData Date_parse now isMerged
           (only d (MultiSelectFilter.handleSelectAll selected options)) data = data).
Proof.
  unfold MultiSelectFilter.handleSelectAll. split.
  - intros Hlen. rewrite (proj2 (Nat.eqb_neq _ _) Hlen), Nat.eqb_refl.
    assert (Hpass : forall item,
              filterCallback Date_parse now isMerged (only d options) item = true
              <-> (options <> [] ->
                   memberOf (dimensionValue Date_parse now isMerged d item) options)).
    { intros item. rewrite filterCallback_only_block, negb_true_iff. apply block_passes. }
    split; [reflexivity |]. split; [| split; [| split; [| reflexivity]]].
    + intros item. unfold filteredData.
      rewrite !list_elem_of_In, filter_In, Hpass. reflexivity.
    + apply filter_sublist.
    + intros Hdata. unfold filteredData. apply filter_all_in. intros item Hitem.
      apply Hpass. intros _. apply Hdata, Hitem.
  - intros Hlen. rewrite (proj2 (Nat.eqb_eq _ _) Hlen). split; [reflexivity |].
    unfold filteredData. apply filter_all. intros item. destruct d; reflexivity.
Qed.

End FilterSummary.

Lemma getActiveFiltersText_all_data_witness :
  filteredData isoDateParse Sample.now true noSelection Sample.enrolments
  = Sample.enrolments.
Proof.
  apply (proj2 (getActiveFiltersText_all_data isoDateParse Sample.now true noSelection)).
  reflexivity.
Defined.

Lemma handleSelectAll_keeps_records_witness :
  MultiSelectFilter.handleSelectAll [] ["T. Iyer"] = ["T. Iyer"]
  /\ (Sample.trained "E1" "T. Iyer" "Completed"
      ∈ filteredData isoDateParse Sample.now true
          (only ByTrainer (MultiSelectFilter.handleSelectAll [] ["T. Iyer"]))
          [Sample.trained "E1" "T. Iyer" "Completed";
           Sample.trained "E2" "R. Nair" "Completed"])
  /\ (Sample.trained "E2" "R. Nair" "Completed"
      ∉ filteredData isoDateParse Sample.now true
          (only ByTrainer (MultiSelectFilter.handleSelectAll [] ["T. Iyer"]))
          [Sample.trained "E1" "T. Iyer" "Completed";
           Sample.trained "E2" "R. Nair" "Completed"]).
Proof.
  destruct (proj1 (handleSelectAll_keeps_records isoDateParse Sample.now true ByTrainer
                     [] ["T. Iyer"]
                     [Sample.trained "E1" "T. Iyer" "Completed";
                      Sample.trained "E2" "R. Nair" "Completed"])
              ltac:(discriminate)) as (Hall & Hin & _).
  split; [exact Hall |]. split.
  - apply Hin. split; [left |]. intros _.
    exists "T. Iyer". split; [reflexivity | left].
  - intros H. apply Hin in H as [_ H].
    destruct (H ltac:(discriminate)) as (s & Hs & Hmem).
    apply list_elem_of_In in Hmem. simpl in Hmem.
    destruct Hmem as [<- | []]. vm_compute in Hs. discriminate.
Defined.
